(** * cli-typer: text layout and typing-session engine

    A shallow embedding of [src/cli_typer.py]: the greedy word wrap
    ([wrap_text_to_lines]), the flat-index coordinate table built by
    [render_screen] and [draw_text], the [Stats] record with its derived
    metrics, [WordSource], and the key-handling loop of [typing_session].

    Conventions.
    - A Python [str] is a list of Unicode code points ([N]); a one-character
      string delivered by the keyboard is a single code point.
    - Python integers that may be negative are [Z]; lengths and indices
      produced by [len], [enumerate] and [range] are [nat].
    - Clock readings ([time.time()]) and the metrics computed from them are
      exact rationals ([Q]).
    - A raised exception is the [None] of an error monad. *)

From Stdlib Require Import List ZArith NArith Arith Bool Lia Ascii QArith Qminmax
  Sorted.
From Stdlib Require String.
From Equations Require Import Equations.
Import ListNotations String.StringSyntax.

Set Implicit Arguments.
Delimit Scope string_scope with string.
Local Open Scope Z_scope.

(** ** Strings *)

Definition char := N.
Definition str := list char.

(** ASCII literals: [u "ab"] is the Python string ["ab"]. *)
Definition u (s : String.string) : str :=
  List.map N_of_ascii (String.list_ascii_of_string s).
Arguments u s%_string.

Definition SPACE : char := 32%N.

Definition len {A} (l : list A) : Z := Z.of_nat (length l).

Definition str_eqb (a b : str) : bool :=
  if list_eq_dec N.eq_dec a b then true else false.

(** Truth value of a string: [if line:] holds for a non-empty one. *)
Definition truthy {A} (l : list A) : bool :=
  match l with [] => false | _ :: _ => true end.

(** [text.split(" ")]: the maximal space-free pieces, empty ones included. *)
Fixpoint str_split (s : str) : list str :=
  match s with
  | [] => [[]]
  | c :: s' =>
      if (c =? SPACE)%N then [] :: str_split s'
      else match str_split s' with
           | w :: ws => (c :: w) :: ws
           | [] => [[c]]
           end
  end.

(** [sep.join(ws)]. *)
Fixpoint str_join (sep : str) (ws : list str) : str :=
  match ws with
  | [] => []
  | [w] => w
  | w :: ws' => w ++ sep ++ str_join sep ws'
  end.

(** ** wrap_text_to_lines *)

Definition inspect {A} (a : A) : {b : A | a = b} := exist _ a eq_refl.

(** The inner [while len(w) > width] loop: emit [w[:width]] as a line and go
    on with [w[width:]].  The function reaches the loop only after its
    [width <= 0] guard, so [width] is positive here; the model keeps that
    fact in the loop test. *)
Equations? hard_split (width : Z) (w : str) (lines : list str)
  : list str * str by wf (length w) lt :=
  hard_split width w lines
    with inspect ((0 <? width) && (width <? len w)) := {
    | exist _ true _ =>
        hard_split width (skipn (Z.to_nat width) w)
                   (lines ++ [firstn (Z.to_nat width) w]);
    | exist _ false _ => (lines, w) }.
Proof.
  apply andb_prop in e. destruct e as [H0 H1].
  apply Z.ltb_lt in H0. apply Z.ltb_lt in H1. unfold len in H1.
  rewrite length_skipn. lia.
Qed.

(** One iteration of [for w in words]; the state is [(lines, line)]. *)
Definition wrap_step (width : Z) (st : list str * str) (w : str)
  : list str * str :=
  let '(lines, line) := st in
  let trial := if truthy line then line ++ [SPACE] ++ w else w in
  if len trial <=? width then (lines, trial)
  else
    let lines := if truthy line then lines ++ [line] else lines in
    hard_split width w lines.

Definition wrap_text_to_lines (text : str) (width : Z) : list str :=
  if width <=? 0 then [text]
  else
    let words := str_split text in
    let '(lines, line) := fold_left (wrap_step width) words ([], []) in
    if truthy line then lines ++ [line] else lines.

(** ** The coordinate table of [render_screen] and [draw_text]

    Both functions build [flat_to_line] with the same loop: the cells of every
    character of every wrapped line, and after a line one more cell for the
    space that follows it in [text], when the line is shorter than the width. *)

Definition cell := (nat * nat)%type.

Definition enumerate {A} (l : list A) : list (nat * A) :=
  combine (seq 0 (length l)) l.

(** The inner [for ci, ch in enumerate(line)] loop. *)
Definition line_cells (li : nat) (line : str) : list cell :=
  List.map (fun p => (li, fst p)) (enumerate line).

(** One iteration of [for li, line in enumerate(lines)]; the state is
    [(flat_to_line, idx)]. *)
Definition table_step (text : str) (max_text_width : Z)
    (st : list cell * nat) (p : nat * str) : list cell * nat :=
  let '(flat_to_line, idx) := st in
  let '(li, line) := p in
  let flat_to_line := flat_to_line ++ line_cells li line in
  let idx := (idx + length line)%nat in
  if (idx <? length text)%nat
     && match nth_error text idx with
        | Some c => (c =? SPACE)%N
        | None => false
        end
  then
    if len line <? max_text_width
    then (flat_to_line ++ [(li, length line)], S idx)
    else (flat_to_line, idx)
  else (flat_to_line, idx).

Definition flat_to_line (text : str) (max_text_width : Z) (lines : list str)
  : list cell :=
  fst (fold_left (table_step text max_text_width) (enumerate lines) ([], 0%nat)).

(** The table for a text wrapped at [max_text_width]. *)
Definition coordinate_table (text : str) (max_text_width : Z) : list cell :=
  flat_to_line text max_text_width (wrap_text_to_lines text max_text_width).

(** [render_screen] and [draw_text] wrap at [max(1, width - 2)] for a
    terminal [width] columns wide. *)
Definition screen_table (text : str) (width : Z) : list cell :=
  coordinate_table text (Z.max 1 (width - 2)).

(** ** Library interfaces

    Two pieces of the Python runtime are used through their contracts: the
    Unicode table behind [str.isprintable], and the generator behind
    [random.Random]. *)

Class UnicodeDB := {
  isprintable : char -> bool;
  (** On ASCII, the printable characters are those from the space to the
      tilde. *)
  isprintable_ascii :
    forall c, (c < 128)%N -> isprintable c = (32 <=? c)%N && (c <? 127)%N
}.

Class PRNG := {
  rng_state : Type;
  (** [random.Random(seed)] for an integer seed. *)
  rng_seed : Z -> rng_state;
  (** [_randbelow(n)]: an index below [n] and the advanced generator. *)
  randbelow : rng_state -> nat -> nat * rng_state;
  randbelow_lt :
    forall g n, (0 < n)%nat -> (fst (randbelow g n) < n)%nat
}.

(** Whitespace in the sense of [str.isspace], which is what [str.strip()] and
    [str.split()] remove. *)
Definition isspace (c : char) : bool :=
  ((9 <=? c) && (c <=? 13) || (28 <=? c) && (c <=? 32)
   || (c =? 133) || (c =? 160) || (c =? 5760)
   || (8192 <=? c) && (c <=? 8202)
   || (c =? 8232) || (c =? 8233) || (c =? 8239) || (c =? 8287)
   || (c =? 12288))%N.

(** [s.split()]: the maximal whitespace-free pieces, empty ones dropped. *)
Fixpoint split_ws_from (cur : str) (s : str) : list str :=
  match s with
  | [] => if truthy cur then [rev cur] else []
  | c :: s' =>
      if isspace c
      then (if truthy cur then [rev cur] else []) ++ split_ws_from [] s'
      else split_ws_from (c :: cur) s'
  end.

Definition split_ws (s : str) : list str := split_ws_from [] s.

(** ** Vocabulary *)

Definition DEFAULT_WORDS : list str :=
  split_ws (
   u "the of and to in is you that it he was for on are as with his they I at be this have from or one had by word but not what all were we when your can said there use an each which she do how their if"
   ++   u " will up other about out many then them these so some her would make like him into time has look two more write go see number no way could people my than first water been call who oil its now find"
   ++   u " long down day did get come made may part over new sound take only little work know place year live me back give most very after thing our just name good sentence man think say great where help through"
   ++   u " much before line right too means old any same tell boy follow came want show also around form three small set put end does another well large must big even such because turn here why ask went men read"
   ++   u " need land different home us move try kind hand picture again change off play spell air away animal house point page letter mother answer found study still learn should America world high every near add food"
   ++   u " between own below country plant last school father keep tree never start city earth eye light thought head under story saw left don't few while along might close something seem next hard open example begin"
   ++   u " life always those both paper together got group often run important until children side feet car mile night walk white sea began grow took river four carry state once book hear stop without second late miss"
   ++   u " idea enough eat face watch far Indian real almost let above girl sometimes mountain cut young talk soon list song being leave family it's body music color stand sun questions fish area mark dog horse birds"
   ++   (u " problem complete room knew since ever piece told usually didn"
      ++ [8217%N] ++ u "t friends easy heard order red door sure become top ship across today during short better best however low hours black products happened whole measure remember")
   ++   u " early waves reached listen wind rock space covered fast several hold himself toward five step morning passed vowel true hundred against pattern numeral table north slowly money map farm pulled draw voice seen cold cried"
   ++   u " plan notice south sing war ground fall king town I'll unit figure certain field travel wood fire upon done English road halt ten fly gave box finally waited correct oh quickly person became shown minutes").

(** [list("0123456789")]: the one-character strings. *)
Definition NUMBERS : list str := List.map (fun c => [c]) (u "0123456789").

(** The seventeen punctuation tokens; code point 34 is the double quote. *)
Definition PUNCT : list str :=
  split_ws (u ", . ! ? : ; ' " ++ [34%N] ++ u " - ( ) [ ] { } / \").

(** ** Config *)

Record Config := mkConfig {
  mode : str;            (* "time" or "words" *)
  seconds : Z;
  words : Z;
  numbers : bool;
  punctuation : bool;
  seed : option Z
}.

(** ** Stats *)

Module Stats.

Record t := mk {
  started : option Q;
  ended : option Q;
  typed : Z;
  correct : Z;
  mistakes : Z
}.

(** [Stats()]: the dataclass defaults. *)
Definition init : t := mk None None 0 0 0.

Definition set_started (v : option Q) (s : t) : t :=
  mk v (ended s) (typed s) (correct s) (mistakes s).
Definition set_ended (v : option Q) (s : t) : t :=
  mk (started s) v (typed s) (correct s) (mistakes s).
Definition set_typed (v : Z) (s : t) : t :=
  mk (started s) (ended s) v (correct s) (mistakes s).
Definition set_correct (v : Z) (s : t) : t :=
  mk (started s) (ended s) (typed s) v (mistakes s).
Definition set_mistakes (v : Z) (s : t) : t :=
  mk (started s) (ended s) (typed s) (correct s) v.

(** [now] is the value [time.time()] returns. *)
Definition start (now : Q) (s : t) : t :=
  match started s with
  | None => set_started (Some now) s
  | Some _ => s
  end.

Definition stop (now : Q) (s : t) : t :=
  match ended s with
  | None => set_ended (Some now) s
  | Some _ => s
  end.

Definition seconds_elapsed (now : Q) (s : t) : Q :=
  match started s with
  | None => 0%Q
  | Some t0 =>
      let e := match ended s with Some e => e | None => now end in
      Qmax 0 (e - t0)
  end.

Definition minutes_elapsed (now : Q) (s : t) : Q :=
  (seconds_elapsed now s / 60)%Q.

Definition accuracy (s : t) : Q :=
  if typed s =? 0 then 0%Q
  else (inject_Z (correct s) / inject_Z (typed s))%Q.

Definition raw_wpm (now : Q) (s : t) : Q :=
  if Qle_bool (minutes_elapsed now s) 0 then 0%Q
  else ((inject_Z (correct s) / 5) / minutes_elapsed now s)%Q.

End Stats.

(** ** The error monad: [None] is a raised exception *)

Definition bind {A B} (m : option A) (f : A -> option B) : option B :=
  match m with
  | Some a => f a
  | None => None
  end.

Notation "x <- m ;; k" := (bind m (fun x => k))
  (at level 61, m at next level, right associativity).

(** [seq[i]], raising [IndexError] out of range. *)
Definition index {A} (l : list A) (i : nat) : option A := nth_error l i.

(** ** WordSource *)

Section WordSource.

Context {R : PRNG}.

Record WordSource := mkWordSource {
  ws_words : list str;
  ws_rng : rng_state
}.

(** [WordSource(config)].  With [seed = None], [random.Random] seeds itself
    from the operating system; [entropy] is the generator it then gets. *)
Definition WordSource_init (entropy : rng_state) (config : Config)
  : WordSource :=
  let base := DEFAULT_WORDS in
  let base := if numbers config then base ++ NUMBERS else base in
  let base := if punctuation config then base ++ PUNCT else base in
  {| ws_words := base;
     ws_rng := match seed config with
               | Some z => rng_seed z
               | None => entropy
               end |}.

(** [rng.choice(seq)]: [IndexError] on an empty sequence. *)
Definition choice {A} (g : rng_state) (l : list A) : option (A * rng_state) :=
  match l with
  | [] => None
  | _ :: _ =>
      let '(k, g') := randbelow g (length l) in
      x <- index l k ;; Some (x, g')
  end.

(** The comprehension of [generate], one draw per element of
    [range(count)]; the generator is threaded through. *)
Fixpoint draw (ws : list str) (g : rng_state) (n : nat)
  : option (list str * rng_state) :=
  match n with
  | O => Some ([], g)
  | S n' =>
      r <- choice g ws ;;
      rest <- draw ws (snd r) n' ;;
      Some (fst r :: fst rest, snd rest)
  end.

Definition generate (src : WordSource) (count : Z)
  : option (list str * WordSource) :=
  r <- draw (ws_words src) (ws_rng src) (Z.to_nat count) ;;
  Some (fst r, {| ws_words := ws_words src; ws_rng := snd r |}).

End WordSource.

(** ** build_text *)

Section BuildText.

Context {R : PRNG}.

(** [est_words] stands for [int(max(50, (config.seconds / 60.0) * 300))],
    which the program computes in double precision. *)
Definition build_text (est_words : Z) (source : WordSource) (config : Config)
  : option (str * WordSource) :=
  let count :=
    if str_eqb (mode config) (u "words") then Z.max 1 (words config)
    else est_words in
  r <- generate source count ;;
  Some (str_join [SPACE] (fst r), snd r).

End BuildText.

(** ** Key events *)

(** What [stdscr.get_wch()] returns: a one-character string, or an integer
    key code. *)
Inductive key :=
| KStr (c : char)
| KInt (n : Z).

(** The curses key codes. *)
Definition KEY_BACKSPACE : Z := 263.
Definition KEY_EXIT : Z := 361.
Definition KEY_RESIZE : Z := 410.

Definition TAB : char := 9%N.
Definition ESC : char := 27%N.
Definition LF : char := 10%N.
Definition CR : char := 13%N.
Definition DEL : char := 127%N.
Definition BS : char := 8%N.

(** ** typing_session *)

Section Session.

Context {U : UnicodeDB} {R : PRNG}.

(** Where control is: in the main [while True] loop, in the loop of the
    results panel, or past a [return] with the returned [Stats]. *)
Inductive phase :=
| Typing
| Results
| Returned (result : Stats.t).

(** The local variables of [typing_session]. *)
Record Session := mkSession {
  source : WordSource;
  text : str;
  typed : list char;
  stats : Stats.t;
  phase_of : phase
}.

(** What one pass of the loop reads from outside: the clock, taken as one
    instant for the whole pass, and the generator a [random.Random(None)]
    constructed during the pass would get. *)
Record Env := mkEnv {
  now : Q;
  entropy : rng_state
}.

Definition set_text (v : str) (s : Session) : Session :=
  mkSession (source s) v (typed s) (stats s) (phase_of s).
Definition set_typed (v : list char) (s : Session) : Session :=
  mkSession (source s) (text s) v (stats s) (phase_of s).
Definition set_stats (v : Stats.t) (s : Session) : Session :=
  mkSession (source s) (text s) (typed s) v (phase_of s).
Definition set_phase (v : phase) (s : Session) : Session :=
  mkSession (source s) (text s) (typed s) (stats s) v.

(** The state before the first key is read. *)
Definition session_start (src : WordSource) (txt : str) : Session :=
  mkSession src txt [] Stats.init Typing.

(** Lines 320-324: [source = WordSource(config)],
    [text = build_text(source, config)]. *)
Definition typing_session_init (est_words : Z) (e : rng_state)
    (config : Config) : option Session :=
  r <- build_text est_words (WordSource_init e config) config ;;
  Some (session_start (snd r) (fst r)).

(** The nested [finished()]. *)
Definition finished (config : Config) (t : Q) (s : Session) : bool :=
  if str_eqb (mode config) (u "time") then
    match Stats.started (stats s) with
    | Some _ =>
        Qle_bool (inject_Z (seconds config)) (Stats.seconds_elapsed t (stats s))
    | None => false
    end
  else (length (text s) <=? length (typed s))%nat.

(** The body guarded by [if typed:] in both backspace branches. *)
Definition backspace (s : Session) : option Session :=
  if truthy (typed s) then
    let last_i := (length (typed s) - 1)%nat in
    a <- index (typed s) last_i ;;
    b <- index (text s) last_i ;;
    let st := stats s in
    let st :=
      if (a =? b)%N
      then Stats.set_correct (Z.max 0 (Stats.correct st - 1)) st
      else Stats.set_mistakes (Z.max 0 (Stats.mistakes st - 1)) st in
    let st := Stats.set_typed (Z.max 0 (Stats.typed st - 1)) st in
    Some (set_typed (removelast (typed s)) (set_stats st s))
  else Some s.

(** Lines 366-367: the first key that is not whitespace starts the clock. *)
Definition start_on_key (e : Env) (s : Session) (ch : char) : Session :=
  match Stats.started (stats s) with
  | None => if negb (isspace ch)
            then set_stats (Stats.start (now e) (stats s)) s else s
  | Some _ => s
  end.

(** Lines 369-376: append the key and compare it to the target. *)
Definition append_char (s : Session) (ch : char) : option Session :=
  if (length (typed s) <? length (text s))%nat then
    let s := set_typed (typed s ++ [ch]) s in
    let st := Stats.set_typed (Stats.typed (stats s) + 1) (stats s) in
    target_ch <- index (text s) (length (typed s) - 1)%nat ;;
    let st :=
      if (ch =? target_ch)%N
      then Stats.set_correct (Stats.correct st + 1) st
      else Stats.set_mistakes (Stats.mistakes st + 1) st in
    Some (set_stats st s)
  else Some s.

(** Lines 378-380: in time mode, a buffer typed to its end grows by fifty
    words of a new [WordSource(config)]. *)
Definition extend_text (config : Config) (e : Env) (s : Session)
  : option Session :=
  if str_eqb (mode config) (u "time")
     && (length (text s) <=? length (typed s))%nat
     && negb (finished config (now e) s)
  then
    r <- generate (WordSource_init (entropy e) config) 50 ;;
    Some (set_text (text s ++ [SPACE] ++ str_join [SPACE] (fst r)) s)
  else Some s.

(** The body of [if ch.isprintable() or ch == " "] (lines 366-380). *)
Definition printable (config : Config) (e : Env) (s : Session) (ch : char)
  : option Session :=
  let s := start_on_key e s ch in
  s <- append_char s ch ;;
  extend_text config e s.

(** [# Check end condition] (lines 397-398); the results panel then takes
    over the keyboard. *)
Definition check_end (config : Config) (e : Env) (s : Session) : Session :=
  if finished config (now e) s
  then set_phase Results (set_stats (Stats.stop (now e) (stats s)) s)
  else s.

(** One pass of the main loop (lines 335-398) on the key [ch]. *)
Definition main_loop (config : Config) (e : Env) (s : Session) (ch : key)
  : option Session :=
  match ch with
  | KStr c =>
      if (c =? TAB)%N then Some (set_phase (Returned Stats.init) s)
      else if (c =? ESC)%N then
        let st := Stats.stop (now e) (stats s) in
        Some (set_phase (Returned st) (set_stats st s))
      else
        let c := if (c =? LF)%N || (c =? CR)%N then SPACE else c in
        if (c =? DEL)%N || (c =? BS)%N then backspace s
        else
          s <- (if isprintable c || (c =? SPACE)%N
                then printable config e s c else Some s) ;;
          Some (check_end config e s)
  | KInt n =>
      if n =? KEY_EXIT then
        let st := Stats.stop (now e) (stats s) in
        Some (set_phase (Returned st) (set_stats st s))
      else if n =? KEY_RESIZE then Some s
      else
        s <- (if (n =? KEY_BACKSPACE) || (n =? 127)
              then backspace s else Some s) ;;
        Some (check_end config e s)
  end.

(** One pass of the loop of the results panel (lines 408-421) on [k]. *)
Definition results_loop (s : Session) (k : key) : Session :=
  match k with
  | KStr c =>
      if (c =? 114)%N || (c =? 82)%N          (* k.lower() == "r" *)
      then set_phase (Returned Stats.init) s
      else if (c =? 113)%N || (c =? 81)%N     (* k.lower() == "q" *)
      then set_phase (Returned (stats s)) s
      else if (c =? TAB)%N then set_phase (Returned Stats.init) s
      else if (c =? ESC)%N then set_phase (Returned (stats s)) s
      else s
  | KInt n =>
      if n =? KEY_EXIT then set_phase (Returned (stats s)) s else s
  end.

(** The session applied to one key event; after a [return] no key reaches
    it any more. *)
Definition apply (config : Config) (s : Session) (ev : key * Env)
  : option Session :=
  match phase_of s with
  | Typing => main_loop config (snd ev) s (fst ev)
  | Results => Some (results_loop s (fst ev))
  | Returned _ => Some s
  end.

Fixpoint run (config : Config) (s : Session) (evs : list (key * Env))
  : option Session :=
  match evs with
  | [] => Some s
  | ev :: evs' => s' <- apply config s ev ;; run config s' evs'
  end.

(** [typing_session] on the keys [evs]: the final state holds the returned
    [Stats] in its phase once the function has returned. *)
Definition typing_session (est_words : Z) (e : rng_state) (config : Config)
    (evs : list (key * Env)) : option Session :=
  s <- typing_session_init est_words e config ;;
  run config s evs.

End Session.

(** ** Notions used in the statements *)

(** A run of separator spaces. *)
Definition only_spaces (s : str) : Prop := Forall (fun c => c = SPACE) s.

(** Lines put back one after the other, each behind its gap. *)
Fixpoint rejoin (gaps lines : list str) : str :=
  match gaps, lines with
  | g :: gaps', l :: lines' => g ++ l ++ rejoin gaps' lines'
  | _, _ => []
  end.

(** Number of typed characters that equal the target character at their
    position, and number of those that differ. *)
Definition matches (typed text : str) : nat :=
  length (filter (fun p => (fst p =? snd p)%N) (combine typed text)).

Definition mismatches (typed text : str) : nat :=
  length (filter (fun p => negb (fst p =? snd p)%N) (combine typed text)).

(** The loop state of the wrap holds lines within the width. *)
Definition fits (width : Z) (st : list str * str) : Prop :=
  Forall (fun l => len l <= width) (fst st) /\ len (snd st) <= width.

(** The part [T] of the text read so far is the closed lines and the current
    line, in order, with nothing but spaces between them. *)
Definition covers (T : str) (st : list str * str) : Prop :=
  exists gaps g,
    length gaps = length (fst st)
    /\ Forall only_spaces gaps
    /\ only_spaces g
    /\ T = rejoin gaps (fst st) ++ g ++ snd st.

(** A join between two lines of a text whose words are not empty: nothing,
    or the one space that the wrap took. *)
Definition join_gap (g : str) : Prop := g = [] \/ g = [SPACE].

Definition covers_tight (T : str) (st : list str * str) : Prop :=
  exists gaps g,
    length gaps = length (fst st)
    /\ Forall join_gap gaps
    /\ join_gap g
    /\ T = rejoin gaps (fst st) ++ g ++ snd st
    /\ snd st <> [].

(** A string without its spaces. *)
Definition strip_spaces (s : str) : str :=
  filter (fun c => negb (c =? SPACE)%N) s.

(** What a cell at flat index [i] of the table can be: a character of one of
    the lines, or the cell just past the end of a line shorter than the
    width, and then the text has a space at [i]. *)
Definition cell_ok (text : str) (max_text_width : Z) (lines : list str)
    (i : nat) (c : cell) : Prop :=
  exists line,
    nth_error lines (fst c) = Some line
    /\ ((snd c < length line)%nat
        \/ (snd c = length line
            /\ len line < max_text_width
            /\ nth_error text i = Some SPACE)).

Definition table_ok (text : str) (max_text_width : Z) (lines : list str)
    (st : list cell * nat) : Prop :=
  snd st = length (fst st)
  /\ forall i c, nth_error (fst st) i = Some c ->
                 cell_ok text max_text_width lines i c.

(** The counters count the typed characters, split into those that equal
    the target character at their position and those that differ. *)
Definition counts_ok (text typed : str) (st : Stats.t) : Prop :=
  (length typed <= length text)%nat
  /\ Stats.typed st = Z.of_nat (length typed)
  /\ Stats.correct st = Z.of_nat (matches typed text)
  /\ Stats.mistakes st = Z.of_nat (mismatches typed text).

(** The counters as a triple [(typed, correct, mistakes)]. *)
Definition counters (st : Stats.t) : Z * Z * Z :=
  (Stats.typed st, Stats.correct st, Stats.mistakes st).

(** The keys the session treats as a backspace. *)
Definition backspace_keys : list key :=
  [KStr DEL; KStr BS; KInt KEY_BACKSPACE; KInt 127].

(** A key that reaches the printable branch: enter (mapped to a space), a
    space, or a printable character. *)
Definition printable_key {U : UnicodeDB} (c : char) : bool :=
  (c =? LF)%N || (c =? CR)%N || (c =? SPACE)%N || isprintable c.

(** The character the printable branch works with. *)
Definition normalize (c : char) : char :=
  if (c =? LF)%N || (c =? CR)%N then SPACE else c.

(** ** Two small instances of the library interfaces

    Used to run the model on concrete keys: a table that knows the ASCII
    range only, and a linear congruential generator. *)

Definition ascii_printable (c : char) : bool := ((32 <=? c) && (c <? 127))%N.

Definition lcg_next (g : N) : N := ((g * 1103515245 + 12345) mod 2147483648)%N.

Definition lcg_below (g : N) (n : nat) : nat * N :=
  (N.to_nat (lcg_next g mod N.of_nat n), lcg_next g).

Definition ascii_table : UnicodeDB.
Proof.
  refine {| isprintable := ascii_printable |}.
  intros c _. reflexivity.
Defined.

Definition lcg : PRNG.
Proof.
  refine {| rng_state := N;
            rng_seed := fun z => Z.to_N (Z.abs z);
            randbelow := lcg_below |}.
  intros g n Hn. unfold lcg_below. cbn [fst].
  assert (H : (lcg_next g mod N.of_nat n < N.of_nat n)%N)
    by (apply N.mod_lt; lia).
  lia.
Defined.

(** Sample configurations and surroundings for running the model. *)
Definition time_config : Config :=
  mkConfig (u "time") 60 50 false false (Some 1).

Definition words_config : Config :=
  mkConfig (u "words") 60 1 false false (Some 1).

Definition at_time (t : Q) : Env (R := lcg) := mkEnv (R := lcg) t 7%N.

Definition sample_source : WordSource (R := lcg) :=
  WordSource_init (R := lcg) 7%N words_config.

Section SessionNotions.

Context {R : PRNG}.

(** What holds of the session between two keys: the counters agree with
    the typed log, and while the main loop runs the log ends before the end
    of the text (or nothing was typed yet). *)
Definition consistent (s : Session) : Prop :=
  counts_ok (text s) (typed s) (stats s)
  /\ (phase_of s = Typing ->
      typed s = [] \/ (length (typed s) < length (text s))%nat).

End SessionNotions.

(** ** Notions for the further properties *)

(** A line that shows something at its left edge: not empty, and not
    beginning with a space. *)
Definition starts_visible (l : str) : Prop :=
  match l with
  | c :: _ => c <> SPACE
  | [] => False
  end.

(** Reading order of screen cells: earlier line, or same line and earlier
    column. *)
Definition cell_lt (a b : cell) : Prop :=
  (fst a < fst b)%nat \/ (fst a = fst b /\ (snd a < snd b)%nat).

(** ** The text area of render_screen *)

(** The colour pairs [render_screen] and [render_keyboard] paint with. *)
Inductive color :=
| default_color
| correct_color
| wrong_color
| caret_color
| dim_color
| key_color.

(** One [stdscr.addnstr(y, x, text, n, color)]. *)
Record paint := mkPaint {
  p_y : Z;
  p_x : Z;
  p_text : str;
  p_n : Z;
  p_color : color
}.

Definition get_keyboard_layout : list (list str) :=
  [ [u "`"; u "1"; u "2"; u "3"; u "4"; u "5"; u "6"; u "7"; u "8"; u "9";
     u "0"; u "-"; u "="; u "Back"];
    [u "Tab"; u "q"; u "w"; u "e"; u "r"; u "t"; u "y"; u "u"; u "i"; u "o";
     u "p"; u "["; u "]"; u "\"];
    [u "Caps"; u "a"; u "s"; u "d"; u "f"; u "g"; u "h"; u "j"; u "k"; u "l";
     u ";"; u "'"; u "Enter"];
    [u "Shift"; u "z"; u "x"; u "c"; u "v"; u "b"; u "n"; u "m"; u ","; u ".";
     u "/"; u "Shift"];
    [u "Space"] ].

(** Lines 236-239: the rows left for the text. *)
Definition usable_lines (height : Z) : Z :=
  let show_keyboard := 16 <=? height in
  let kb_rows := get_keyboard_layout in
  let kb_height := if show_keyboard then len kb_rows + 1 else 0 in
  Z.max 3 (height - (kb_height + 5)).

(** Line 254. *)
Definition caret_line (lines : list str) (flat_to_line : list cell) (pos : nat)
  : Z :=
  match nth_error flat_to_line pos with
  | Some c => Z.of_nat (fst c)
  | None => if truthy lines then len lines - 1 else 0
  end.

(** Line 255. *)
Definition scroll_of (caret : Z) (usable : Z) : Z :=
  Z.max 0 (caret - usable / 2).

(** [seq[z]] for an integer [z]: a negative index counts from the end. *)
Definition index_z {A} (l : list A) (z : Z) : option A :=
  if z <? 0 then
    if len l + z <? 0 then None else index l (Z.to_nat (len l + z))
  else index l (Z.to_nat z).

(** A loop that collects one result per element and stops at the first
    exception. *)
Fixpoint mapM {A B} (f : A -> option B) (l : list A) : option (list B) :=
  match l with
  | [] => Some []
  | a :: l' => b <- f a ;; bs <- mapM f l' ;; Some (b :: bs)
  end.

(** Lines 258-263: the visible lines in the neutral colour, blank rows below
    the text. *)
Definition base_draw (lines : list str) (max_text_width usable scroll : Z)
  : option (list paint) :=
  mapM
    (fun i : nat =>
       let y := 2 + Z.of_nat i in
       if Z.of_nat i + scroll <? len lines
       then
         line <- index_z lines (Z.of_nat i + scroll) ;;
         Some (mkPaint y 1 line max_text_width default_color)
       else
         Some (mkPaint y 1 (repeat SPACE (Z.to_nat max_text_width))
                       max_text_width default_color))
    (seq 0 (Z.to_nat usable)).

(** [flat_to_line[i] if i < len(flat_to_line) else (len(lines) - 1, 0)]. *)
Definition cell_or_last (lines : list str) (flat_to_line : list cell) (i : nat)
  : Z * Z :=
  match nth_error flat_to_line i with
  | Some c => (Z.of_nat (fst c), Z.of_nat (snd c))
  | None => (len lines - 1, 0)
  end.

(** Lines 266-274: the typed characters in green or red. *)
Fixpoint overlay (lines : list str) (flat_to_line : list cell) (typed : list char)
    (usable scroll : Z) (ps : list (nat * char)) : option (list paint) :=
  match ps with
  | [] => Some []
  | (i, ch) :: ps' =>
      let '(tl, tc) := cell_or_last lines flat_to_line i in
      let y := 2 + (tl - scroll) in
      let x := 1 + tc in
      here <- (if (2 <=? y) && (y <? 2 + usable) then
                 t <- index typed i ;;
                 Some [mkPaint y x [ch] 1
                         (if (t =? ch)%N then correct_color else wrong_color)]
               else Some []) ;;
      rest <- overlay lines flat_to_line typed usable scroll ps' ;;
      Some (here ++ rest)
  end.

(** Lines 277-283: the caret, an underscore on a space. *)
Definition caret_draw (text : str) (flat_to_line : list cell) (pos : nat)
    (usable scroll : Z) : option (list paint) :=
  if (pos <? length text)%nat && (pos <? length flat_to_line)%nat then
    c <- index flat_to_line pos ;;
    let y := 2 + (Z.of_nat (fst c) - scroll) in
    let x := 1 + Z.of_nat (snd c) in
    if (2 <=? y) && (y <? 2 + usable) then
      caret_ch <- index text pos ;;
      Some [mkPaint y x [if (caret_ch =? SPACE)%N then 95%N else caret_ch] 1
              caret_color]
    else Some []
  else Some [].

(** What [render_screen] paints into the text area of a window of [height]
    rows and [width] columns. *)
Definition render_text_area (height width : Z) (text : str) (typed : list char)
  : option (list paint) :=
  let max_text_width := Z.max 1 (width - 2) in
  let lines := wrap_text_to_lines text max_text_width in
  let usable := usable_lines height in
  let pos := length typed in
  let table := flat_to_line text max_text_width lines in
  let scroll := scroll_of (caret_line lines table pos) usable in
  base <- base_draw lines max_text_width usable scroll ;;
  ov <- overlay lines table typed usable scroll
          (enumerate (firstn (length typed) text)) ;;
  ca <- caret_draw text table pos usable scroll ;;
  Some (base ++ ov ++ ca).

(** A paint that stays in the text area: rows 2 to [1 + usable], columns 1
    to [max_text_width]. *)
Definition in_text_area (max_text_width usable : Z) (p : paint) : Prop :=
  2 <= p_y p < 2 + usable
  /\ 1 <= p_x p
  /\ 0 <= p_n p
  /\ p_x p + p_n p <= 1 + max_text_width.

(** ** Notions about the vocabulary *)

(** A token that can stand in a text: not empty and free of spaces. *)
Definition clean_word (w : str) : bool :=
  truthy w && negb (existsb (N.eqb SPACE) w).

Definition str_in (w : str) (l : list str) : bool := existsb (str_eqb w) l.

(** The number of words [build_text] asks for. *)
Definition build_count (est_words : Z) (config : Config) : Z :=
  if str_eqb (mode config) (u "words") then Z.max 1 (words config)
  else est_words.

(** ** run_curses and what a session hands back *)

(** The test of [run_curses] (line 536) on the [Stats] a session returned:
    a restart is an object with neither time set. *)
Definition restart_requested (r : Stats.t) : bool :=
  match Stats.started r, Stats.ended r with
  | None, None => true
  | _, _ => false
  end.

Section SessionOutcome.

Context {R : PRNG}.

(** The keys on which [typing_session] returns a new [Stats()]: tab in the
    main loop; [r], [R] or tab in the results panel. *)
Definition restart_key (ph : phase) (k : key) : bool :=
  match ph, k with
  | Typing, KStr c => (c =? TAB)%N
  | Results, KStr c => (c =? 114)%N || (c =? 82)%N || (c =? TAB)%N
  | _, _ => false
  end.

(** How the phase and the end time go together. *)
Definition phase_ok (config : Config) (s : Session) : Prop :=
  match phase_of s with
  | Typing => Stats.ended (stats s) = None
  | Results =>
      (exists t, Stats.ended (stats s) = Some t)
      /\ forall t, finished config t s = true
  | Returned r =>
      r = Stats.init
      \/ (r = stats s /\ exists t, Stats.ended (stats s) = Some t)
  end.

(** The clock readings of a key sequence never go back. *)
Definition clock_sorted (evs : list (key * Env)) : Prop :=
  StronglySorted (fun a b => (now (snd a) <= now (snd b))%Q) evs.

(** The times of a session are in order, and its start is not later than
    any of the readings still to come. *)
Definition times_ok (evs : list (key * Env)) (s : Session) : Prop :=
  (forall a b, Stats.started (stats s) = Some a ->
               Stats.ended (stats s) = Some b -> (a <= b)%Q)
  /\ (forall a, Stats.started (stats s) = Some a ->
                Forall (fun ev => (a <= now (snd ev))%Q) evs).

End SessionOutcome.

(** ** The status bar *)

(** [int(x)] on a float: truncation toward zero. *)
Definition py_int (q : Q) : Z := Z.quot (Qnum q) (Zpos (Qden q)).

(** Line 287: the seconds left, shown in time mode only. *)
Definition remaining (config : Config) (now : Q) (st : Stats.t) : option Z :=
  if str_eqb (mode config) (u "time")
  then Some (Z.max 0 (seconds config - py_int (Stats.seconds_elapsed now st)))
  else None.

(** ** The keyboard display *)

(** Lines 236 and 299 of [render_screen]. *)
Definition show_keyboard (height : Z) : bool := 16 <=? height.

Definition kb_top (height : Z) : Z := 2 + usable_lines height + 1.

(** The f-string of lines 503 and 516: a key cap in brackets. *)
Definition key_label (t : str) : str := u "[" ++ t ++ u "]".

Definition row_text (row : list str) : str :=
  str_join [SPACE] (List.map key_label row).

(** Lines 514-521: the caps of a row that are in the highlight set, painted
    one by one from [cursor_x] on. *)
Fixpoint highlight_row (y cursor_x : Z) (highlight_tokens : list str)
    (row : list str) : list paint :=
  match row with
  | [] => []
  | t :: row' =>
      let label := key_label t in
      let span := len label in
      (if str_in t highlight_tokens
       then [mkPaint y cursor_x label span key_color] else [])
      ++ highlight_row y (cursor_x + span + 1) highlight_tokens row'
  end.

(** One pass of the loop of [render_keyboard] (lines 501-521). *)
Definition render_keyboard_row (top width : Z) (highlight_tokens : list str)
    (r : nat * list str) : list paint :=
  let r_index := fst r in
  let row := snd r in
  let total_width := len (row_text row) in
  let x0 := Z.max 1 ((width - total_width) / 2) in
  let y := top + Z.of_nat r_index in
  mkPaint y x0 (row_text row) (Z.min total_width (width - x0 - 1)) dim_color
  :: (if truthy highlight_tokens
      then highlight_row y x0 highlight_tokens row else []).

(** [render_keyboard], the highlight set being the global it reads. *)
Definition render_keyboard (top width : Z) (highlight_tokens : list str)
  : list paint :=
  flat_map (render_keyboard_row top width highlight_tokens)
           (enumerate get_keyboard_layout).

(** The part [s[a : a + n]] of a string. *)
Definition substring (a n : Z) (s : str) : str :=
  firstn (Z.to_nat n) (skipn (Z.to_nat a) s).

(** ** Keys and their caps *)

(** [str.isalpha], [str.isupper] and [str.lower] of a one-character string,
    through what they do on ASCII. *)
Class CaseDB := {
  isalpha : char -> bool;
  isupper : char -> bool;
  lower : char -> str;
  isalpha_ascii :
    forall c, (c < 128)%N ->
      isalpha c = ((65 <=? c) && (c <=? 90) || (97 <=? c) && (c <=? 122))%N;
  isupper_ascii :
    forall c, (c < 128)%N -> isupper c = ((65 <=? c) && (c <=? 90))%N;
  lower_ascii :
    forall c, (c < 128)%N ->
      lower c = [if ((65 <=? c) && (c <=? 90))%N then (c + 32)%N else c]
}.

(** The dict of lines 436-458; code point 34 is the double quote. *)
Definition SHIFTED_TO_BASE : list (char * str) :=
  [ (126%N, u "`"); (33%N, u "1"); (64%N, u "2"); (35%N, u "3");
    (36%N, u "4"); (37%N, u "5"); (94%N, u "6"); (38%N, u "7");
    (42%N, u "8"); (40%N, u "9"); (41%N, u "0"); (95%N, u "-");
    (43%N, u "="); (123%N, u "["); (125%N, u "]"); (124%N, u "\");
    (58%N, u ";"); (34%N, u "'"); (60%N, u ","); (62%N, u ".");
    (63%N, u "/") ].

(** [d[k]] guarded by [k in d]. *)
Fixpoint dict_get {V} (d : list (char * V)) (k : char) : option V :=
  match d with
  | [] => None
  | (k', v) :: d' => if (k =? k')%N then Some v else dict_get d' k
  end.

Section Tokens.

Context {C : CaseDB}.

(** Lines 461-496; the set of tokens as a list without order. *)
Definition normalize_key_to_tokens (k : key) : list str :=
  match k with
  | KStr c =>
      if (c =? DEL)%N || (c =? BS)%N then [u "Back"]
      else if (c =? LF)%N || (c =? CR)%N then [u "Enter"]
      else if (c =? TAB)%N then [u "Tab"]
      else if (c =? SPACE)%N then [u "Space"]
      else if isalpha c then
        (if isupper c then [u "Shift"] else []) ++ [lower c]
      else
        match dict_get SHIFTED_TO_BASE c with
        | Some b => [u "Shift"; b]
        | None => [[c]]
        end
  | KInt n =>
      if (n =? 8) || (n =? 127) || (n =? 263) then [u "Back"] else []
  end.

End Tokens.

(** The three calls on ASCII, computed. *)
Definition ascii_case : CaseDB.
Proof.
  refine {| isalpha := fun c =>
              ((65 <=? c) && (c <=? 90) || (97 <=? c) && (c <=? 122))%N;
            isupper := fun c => ((65 <=? c) && (c <=? 90))%N;
            lower := fun c =>
              [if ((65 <=? c) && (c <=? 90))%N then (c + 32)%N else c] |};
    intros c _; reflexivity.
Defined.

(** The keys the statements about caps speak of: the printable ASCII
    characters and the control characters the session gives a meaning. *)
Definition cap_key (c : char) : bool :=
  ((32 <=? c) && (c <? 127) || (c =? DEL) || (c =? BS) || (c =? LF)
   || (c =? CR) || (c =? TAB))%N.

(** All caps of the layout. *)
Definition all_caps : list str := List.concat get_keyboard_layout.

(** * Properties *)

Unset Implicit Arguments.

(** ** Splitting and joining *)

Lemma len_nonneg {A} (l : list A) : 0 <= len l.
Proof. unfold len. lia. Qed.

Lemma len_app {A} (a b : list A) : len (a ++ b) = len a + len b.
Proof. unfold len. rewrite length_app. lia. Qed.

Lemma truthy_false {A} (l : list A) : truthy l = false -> l = [].
Proof. destruct l; [reflexivity | discriminate]. Qed.

Lemma truthy_true {A} (l : list A) : truthy l = true -> l <> [].
Proof. destruct l; [discriminate | intros _ E; discriminate E]. Qed.

Lemma str_split_nonempty (s : str) : str_split s <> [].
Proof.
  destruct s as [|c s]; cbn [str_split]; [discriminate |].
  destruct (c =? SPACE)%N; [discriminate |].
  destruct (str_split s); discriminate.
Qed.

(** [" ".join(text.split(" "))] is [text]. *)
Lemma str_join_split (s : str) : str_join [SPACE] (str_split s) = s.
Proof.
  induction s as [|c s IH]; [reflexivity |].
  cbn [str_split]. destruct (N.eqb_spec c SPACE) as [-> | Hc].
  - pose proof (str_split_nonempty s) as Hne.
    destruct (str_split s) as [|w ws]; [contradiction |].
    rewrite <- IH. destruct ws; reflexivity.
  - pose proof (str_split_nonempty s) as Hne.
    destruct (str_split s) as [|w ws]; [contradiction |].
    rewrite <- IH. destruct ws; reflexivity.
Qed.

Lemma str_join_cons (sep w : str) (ws : list str) :
  str_join sep (w :: ws) = w ++ concat (List.map (fun x => sep ++ x) ws).
Proof.
  revert w. induction ws as [|w' ws IH]; intros w.
  - cbn. rewrite app_nil_r. reflexivity.
  - change (str_join sep (w :: w' :: ws)) with (w ++ sep ++ str_join sep (w' :: ws)).
    rewrite IH. cbn [List.map concat]. rewrite <- app_assoc. reflexivity.
Qed.

Example str_split_doubled : str_split (u "a  b ") = [u "a"; []; u "b"; []].
Proof. reflexivity. Qed.

Example str_split_empty : str_split [] = [[]].
Proof. reflexivity. Qed.

Example split_ws_runs : split_ws (u "  a  bc ") = [u "a"; u "bc"].
Proof. reflexivity. Qed.

Example PUNCT_length : length PUNCT = 17%nat.
Proof. reflexivity. Qed.

(** ** The hard split *)

(** The loop cuts [w] into full-width chunks, appended to [lines] in order,
    and hands back a remainder that fits. *)
Lemma hard_split_spec (width : Z) (w : str) (lines : list str) :
  0 < width ->
  exists cs r,
    hard_split width w lines = (lines ++ cs, r)
    /\ Forall (fun c => len c = width) cs
    /\ concat cs ++ r = w
    /\ len r <= width
    /\ (len w <= width -> cs = []).
Proof.
  intros Hw. funelim (hard_split width w lines).
  - match goal with
    | IH : 0 < _ -> _ |- _ =>
        destruct (IH Hw) as (cs & r & E & Hcs & Hcat & Hr & _)
    end.
    match goal with
    | e : _ && _ = true |- _ =>
        destruct (andb_prop _ _ e) as [_ Hlt]; apply Z.ltb_lt in Hlt
    end.
    exists (firstn (Z.to_nat width) w :: cs), r.
    rewrite E, <- app_assoc. cbn [app concat].
    repeat split.
    + constructor; [| exact Hcs].
      unfold len in *. rewrite length_firstn. lia.
    + rewrite <- app_assoc, Hcat. apply firstn_skipn.
    + exact Hr.
    + intros Hle. lia.
  - match goal with
    | e : _ && _ = false |- _ =>
        destruct (proj1 (andb_false_iff _ _) e) as [Hge | Hge];
        [apply Z.ltb_ge in Hge; lia | apply Z.ltb_ge in Hge]
    end.
    exists [], w. rewrite app_nil_r. cbn [concat app].
    repeat split; auto.
Qed.

(** ** One word of the wrap loop *)

(** Either the word joins the current line, which then still fits, or the
    current line is closed and the word starts a new one, cut into full-width
    chunks as long as it is too long. *)
Lemma wrap_step_cases (width : Z) (lines : list str) (line w : str) :
  0 < width ->
  let trial := if truthy line then line ++ [SPACE] ++ w else w in
  (len trial <= width /\ wrap_step width (lines, line) w = (lines, trial))
  \/ (width < len trial
      /\ exists cs r,
           wrap_step width (lines, line) w
           = ((if truthy line then lines ++ [line] else lines) ++ cs, r)
           /\ Forall (fun c => len c = width) cs
           /\ concat cs ++ r = w
           /\ len r <= width
           /\ (len w <= width -> cs = [])).
Proof.
  intros Hw trial. unfold wrap_step. fold trial.
  destruct (Z.leb_spec (len trial) width) as [Hfit | Hover].
  - left. split; [exact Hfit | reflexivity].
  - right. split; [exact Hover |].
    destruct (hard_split_spec width w (if truthy line then lines ++ [line] else lines) Hw)
      as (cs & r & E & H).
    exists cs, r. split; [exact E | exact H].
Qed.

Lemma wrap_step_fits (width : Z) (st : list str * str) (w : str) :
  0 < width -> fits width st -> fits width (wrap_step width st w).
Proof.
  intros Hw [Hlines Hline]. destruct st as [lines line]. cbn [fst snd] in *.
  destruct (wrap_step_cases width lines line w Hw) as [[Hfit E] | [_ (cs & r & E & Hcs & _ & Hr & _)]];
    rewrite E; split; cbn [fst snd]; auto.
  apply Forall_app. split.
  - destruct (truthy line); [apply Forall_app; split; auto | exact Hlines].
  - eapply Forall_impl; [| exact Hcs]. cbn. intros c Hc. lia.
Qed.

Lemma wrap_fold_fits (width : Z) (ws : list str) (st : list str * str) :
  0 < width -> fits width st -> fits width (fold_left (wrap_step width) ws st).
Proof.
  intros Hw. revert st. induction ws as [|w ws IH]; intros st Hst; [exact Hst |].
  cbn [fold_left]. apply IH. apply wrap_step_fits; assumption.
Qed.

(** One step of the loop only adds to the closed lines; a current line that
    is not empty either takes the word behind a space or is closed as it
    is. *)
Lemma wrap_step_extends (width : Z) (lines : list str) (line w : str) :
  0 < width ->
  exists lines' line' more,
    wrap_step width (lines, line) w = (lines', line')
    /\ lines' = lines ++ more
    /\ (line <> [] ->
        (more = [] /\ line' = line ++ SPACE :: w)
        \/ (exists more', more = line :: more')).
Proof.
  intros Hw.
  destruct (wrap_step_cases width lines line w Hw)
    as [[_ E] | [_ (cs & r & E & _)]]; rewrite E.
  - eexists. eexists. exists []. split; [reflexivity |].
    split; [rewrite app_nil_r; reflexivity |].
    intros Hne. left. split; [reflexivity |].
    destruct line; [congruence | reflexivity].
  - destruct line as [|c line]; cbn [truthy].
    + eexists. eexists. exists cs. split; [reflexivity |].
      split; [reflexivity | congruence].
    + eexists. eexists. exists ((c :: line) :: cs). split; [reflexivity |].
      split; [rewrite <- app_assoc; reflexivity |].
      intros _. right. exists cs. reflexivity.
Qed.

(** What the function returns once the loop is in the state
    [(lines, line)] with the words [ws] still to come: the closed lines, in
    order, and then further lines, the first of which begins with the current
    line when that is not empty. *)
Lemma wrap_fold_output (width : Z) (ws : list str) (lines : list str)
    (line : str) :
  0 < width ->
  exists rest,
    (let '(l, ln) := fold_left (wrap_step width) ws (lines, line) in
     if truthy ln then l ++ [ln] else l) = lines ++ rest
    /\ (line <> [] ->
        exists tail rest',
          rest = (line ++ tail) :: rest'
          /\ (tail = [] \/ exists t, tail = SPACE :: t)).
Proof.
  intros Hw. revert lines line.
  induction ws as [|w ws IH]; intros lines line; cbn [fold_left].
  - destruct line as [|c line]; cbn [truthy].
    + exists []. split; [rewrite app_nil_r; reflexivity | congruence].
    + exists [c :: line]. split; [reflexivity |].
      intros _. exists [], []. rewrite app_nil_r.
      split; [reflexivity | left; reflexivity].
  - destruct (wrap_step_extends width lines line w Hw)
      as (lines' & line' & more & E & -> & Hline).
    rewrite E. destruct (IH (lines ++ more) line') as (rest & Eout & Hrest).
    exists (more ++ rest). split; [rewrite Eout, app_assoc; reflexivity |].
    intros Hne. destruct (Hline Hne) as [[-> ->] | (more' & ->)].
    + destruct Hrest as (tail & rest' & -> & _);
        [destruct line; discriminate |].
      exists (SPACE :: w ++ tail), rest'. cbn [app].
      split; [rewrite <- app_assoc; reflexivity |].
      right. exists (w ++ tail). reflexivity.
    + exists [], (more' ++ rest). rewrite app_nil_r.
      split; [reflexivity | left; reflexivity].
Qed.

(** C8. For a width of at least 1, no line that [wrap_text_to_lines]
    returns is longer than the width.  In each step of its loop a word joins
    the current line only when the joined line fits; otherwise the line is
    closed and the word is cut into successive chunks of exactly [width]
    characters, each a line of its own, the remainder becoming the current
    line.  And what a step does shows in the result: for every word of the
    text, the lines closed when its step is done are the first lines the
    function returns, in that order, and the current line the step leaves,
    when not empty, is the beginning of the line returned next, followed
    there by nothing or by a space and later words. *)
Theorem wrap_lines_within_width (text : str) (width : Z) :
  1 <= width ->
  Forall (fun l => len l <= width) (wrap_text_to_lines text width)
  /\ (forall (lines : list str) (line w : str),
       let trial := if truthy line then line ++ [SPACE] ++ w else w in
       (len trial <= width /\ wrap_step width (lines, line) w = (lines, trial))
       \/ (width < len trial
           /\ exists cs r,
                wrap_step width (lines, line) w
                = ((if truthy line then lines ++ [line] else lines) ++ cs, r)
                /\ Forall (fun c => len c = width) cs
                /\ concat cs ++ r = w
                /\ len r <= width
                /\ (len w <= width -> cs = [])))
  /\ forall (pre : list str) (w : str) (post : list str),
       str_split text = pre ++ w :: post ->
       exists lines' line' rest,
         wrap_step width (fold_left (wrap_step width) pre ([], [])) w
         = (lines', line')
         /\ wrap_text_to_lines text width = lines' ++ rest
         /\ (line' <> [] ->
             exists tail rest',
               rest = (line' ++ tail) :: rest'
               /\ (tail = [] \/ exists t, tail = SPACE :: t)).
Proof.
  intros Hw. split; [| split].
  - unfold wrap_text_to_lines.
    destruct (Z.leb_spec width 0) as [Hle | _]; [lia |].
    assert (Hfit : fits width (fold_left (wrap_step width) (str_split text) ([], []))).
    { apply wrap_fold_fits; [lia |]. split; cbn; [constructor | lia]. }
    destruct (fold_left (wrap_step width) (str_split text) ([], [])) as [lines line].
    destruct Hfit as [Hlines Hline]. cbn [fst snd] in *.
    destruct (truthy line); [| exact Hlines].
    apply Forall_app. split; [exact Hlines | constructor; [exact Hline | constructor]].
  - intros lines line w. apply wrap_step_cases. lia.
  - intros pre w post Hsplit. unfold wrap_text_to_lines.
    destruct (Z.leb_spec width 0) as [Hle | _]; [lia |].
    rewrite Hsplit, fold_left_app. cbn [fold_left].
    destruct (wrap_step width (fold_left (wrap_step width) pre ([], [])) w)
      as [lines' line'].
    exists lines', line'.
    destruct (wrap_fold_output width post lines' line' ltac:(lia))
      as (rest & Eout & Hrest).
    exists rest. split; [reflexivity |]. split; [exact Eout | exact Hrest].
Qed.

Lemma wrap_lines_within_width_witness :
  1 <= 3
  /\ Forall (fun l => len l <= 3) (wrap_text_to_lines (u "abcdefg hi") 3)
  /\ exists lines' line' rest,
       wrap_step 3 (fold_left (wrap_step 3) [] ([], [])) (u "abcdefg")
       = (lines', line')
       /\ wrap_text_to_lines (u "abcdefg hi") 3 = lines' ++ rest
       /\ (line' <> [] ->
           exists tail rest',
             rest = (line' ++ tail) :: rest'
             /\ (tail = [] \/ exists t, tail = SPACE :: t)).
Proof.
  assert (H : 1 <= 3) by lia.
  split; [exact H |].
  split; [exact (proj1 (wrap_lines_within_width (u "abcdefg hi") 3 H)) |].
  exact (proj2 (proj2 (wrap_lines_within_width (u "abcdefg hi") 3 H))
           [] (u "abcdefg") [u "hi"] eq_refl).
Defined.

Example wrap_ab_cd_4 : wrap_text_to_lines (u "ab cd") 4 = [u "ab"; u "cd"].
Proof. reflexivity. Qed.

Example wrap_oversized :
  wrap_text_to_lines (u "abcdefg hi") 3 = [u "abc"; u "def"; u "g"; u "hi"].
Proof. reflexivity. Qed.

(** ** Putting the lines back together *)

Lemma rejoin_app (gaps gs lines ls : list str) :
  length gaps = length lines ->
  rejoin (gaps ++ gs) (lines ++ ls) = rejoin gaps lines ++ rejoin gs ls.
Proof.
  revert lines. induction gaps as [|g gaps IH]; intros [|l lines] Hlen;
    try discriminate Hlen; [reflexivity |].
  cbn [app rejoin]. rewrite IH by (injection Hlen; auto).
  rewrite <- !app_assoc. reflexivity.
Qed.

Lemma rejoin_no_gaps (cs : list str) :
  rejoin (repeat [] (length cs)) cs = concat cs.
Proof.
  induction cs as [|c cs IH]; [reflexivity |].
  cbn [length repeat rejoin concat app]. rewrite IH. reflexivity.
Qed.

Lemma only_spaces_app (a b : str) :
  only_spaces a -> only_spaces b -> only_spaces (a ++ b).
Proof. intros Ha Hb. apply Forall_app. split; assumption. Qed.

Lemma Forall_only_spaces_repeat (n : nat) : Forall only_spaces (repeat [] n).
Proof. induction n; constructor; [constructor | assumption]. Qed.

(** A run of spaces followed by hard-split chunks: the run is the gap before
    the first chunk, and the chunks follow each other without a gap. *)
Lemma chunks_rejoin (g0 : str) (cs : list str) :
  only_spaces g0 ->
  exists gs g',
    length gs = length cs
    /\ Forall only_spaces gs
    /\ only_spaces g'
    /\ g0 ++ concat cs = rejoin gs cs ++ g'.
Proof.
  intros Hg0. destruct cs as [|c cs].
  - exists [], g0. repeat split; auto.
    cbn. rewrite app_nil_r. reflexivity.
  - exists (g0 :: repeat [] (length cs)), [].
    repeat split.
    + cbn. rewrite repeat_length. reflexivity.
    + constructor; [exact Hg0 | apply Forall_only_spaces_repeat].
    + constructor.
    + cbn [rejoin concat]. rewrite rejoin_no_gaps, app_nil_r. reflexivity.
Qed.

Lemma covers_extend (T : str) (lines ls : list str) (g0 r : str) (gaps : list str) :
  length gaps = length lines ->
  Forall only_spaces gaps ->
  only_spaces g0 ->
  T = rejoin gaps lines ++ g0 ++ concat ls ++ r ->
  covers T (lines ++ ls, r).
Proof.
  intros Hlen Hgaps Hg0 ->.
  destruct (chunks_rejoin g0 ls Hg0) as (gs & g' & Hl & Hgs & Hg' & E).
  exists (gaps ++ gs), g'. cbn [fst snd]. repeat split.
  - rewrite !length_app. congruence.
  - apply Forall_app. split; assumption.
  - exact Hg'.
  - rewrite rejoin_app by exact Hlen.
    rewrite <- !app_assoc. f_equal.
    rewrite (app_assoc g0), E, <- app_assoc. reflexivity.
Qed.

(** Reading one more word keeps the decomposition.  The separator before the
    word is a space, or nothing for the very first word. *)
Lemma wrap_step_covers (width : Z) (T sep w : str) (st : list str * str) :
  0 < width ->
  covers T st ->
  sep = [SPACE] \/ (sep = [] /\ snd st = []) ->
  covers (T ++ sep ++ w) (wrap_step width st w).
Proof.
  intros Hw (gaps & g & Hlen & Hgaps & Hg & ->) Hsep.
  destruct st as [lines line]. cbn [fst snd] in *.
  assert (Hsp : only_spaces sep).
  { destruct Hsep as [-> | [-> _]]; repeat constructor. }
  destruct (wrap_step_cases width lines line w Hw)
    as [[_ E] | [_ (cs & r & E & _ & Hcat & _ & _)]]; rewrite E; clear E.
  - (* the word joins the line *)
    destruct line as [|c line]; cbn [truthy].
    + exists gaps, (g ++ sep). cbn [fst snd]. repeat split; auto.
      * apply only_spaces_app; assumption.
      * rewrite <- !app_assoc. reflexivity.
    + destruct Hsep as [-> | [_ Hnil]]; [| discriminate Hnil].
      exists gaps, g. cbn [fst snd]. repeat split; auto.
      rewrite <- !app_assoc. reflexivity.
  - (* the line is closed, the word starts the next one *)
    subst w. destruct line as [|c line]; cbn [truthy].
    + apply covers_extend with (g0 := g ++ sep) (gaps := gaps); auto.
      * apply only_spaces_app; assumption.
      * rewrite <- !app_assoc. reflexivity.
    + destruct Hsep as [-> | [_ Hnil]]; [| discriminate Hnil].
      rewrite <- app_assoc.
      apply covers_extend with (g0 := [SPACE]) (gaps := gaps ++ [g]).
      * rewrite !length_app. cbn. lia.
      * apply Forall_app. split; [exact Hgaps | repeat constructor; exact Hg].
      * repeat constructor.
      * rewrite rejoin_app by exact Hlen. cbn [rejoin].
        rewrite <- !app_assoc. reflexivity.
Qed.

Lemma wrap_fold_covers (width : Z) (ws : list str) (T : str) (st : list str * str) :
  0 < width ->
  covers T st ->
  covers (T ++ concat (List.map (fun w => [SPACE] ++ w) ws))
         (fold_left (wrap_step width) ws st).
Proof.
  intros Hw. revert T st. induction ws as [|w ws IH]; intros T st Hc.
  - cbn. rewrite app_nil_r. exact Hc.
  - cbn [List.map concat fold_left].
    rewrite app_assoc. apply IH.
    apply wrap_step_covers; auto.
Qed.

(** *** Texts of non-empty words: single-space joins *)

Lemma hard_split_remainder (width : Z) (w : str) (lines : list str) :
  0 < width -> w <> [] -> snd (hard_split width w lines) <> [].
Proof.
  intros Hw. funelim (hard_split width w lines).
  - intros _.
    match goal with
    | IH : 0 < _ -> _ |- _ => apply (IH Hw)
    end.
    match goal with
    | e : _ && _ = true |- _ =>
        destruct (andb_prop _ _ e) as [_ Hlt]; apply Z.ltb_lt in Hlt
    end.
    intros E. apply (f_equal (@length char)) in E.
    rewrite length_skipn in E. unfold len in Hlt. cbn [length] in E. lia.
  - intros Hne. exact Hne.
Qed.

Lemma Forall_join_gap_repeat (n : nat) : Forall join_gap (repeat [] n).
Proof. induction n; constructor; [left; reflexivity | assumption]. Qed.

Lemma chunks_rejoin_tight (g0 : str) (cs : list str) :
  join_gap g0 ->
  exists gs g',
    length gs = length cs
    /\ Forall join_gap gs
    /\ join_gap g'
    /\ g0 ++ concat cs = rejoin gs cs ++ g'.
Proof.
  intros Hg0. destruct cs as [|c cs].
  - exists [], g0. repeat split; auto.
    cbn. rewrite app_nil_r. reflexivity.
  - exists (g0 :: repeat [] (length cs)), [].
    repeat split.
    + cbn. rewrite repeat_length. reflexivity.
    + constructor; [exact Hg0 | apply Forall_join_gap_repeat].
    + left. reflexivity.
    + cbn [rejoin concat]. rewrite rejoin_no_gaps, app_nil_r. reflexivity.
Qed.

Lemma tight_extend (T : str) (lines ls : list str) (g0 r : str) (gaps : list str) :
  length gaps = length lines ->
  Forall join_gap gaps ->
  join_gap g0 ->
  r <> [] ->
  T = rejoin gaps lines ++ g0 ++ concat ls ++ r ->
  covers_tight T (lines ++ ls, r).
Proof.
  intros Hlen Hgaps Hg0 Hr ->.
  destruct (chunks_rejoin_tight g0 ls Hg0) as (gs & g' & Hl & Hgs & Hg' & E).
  exists (gaps ++ gs), g'. cbn [fst snd]. repeat split.
  - rewrite !length_app. congruence.
  - apply Forall_app. split; assumption.
  - exact Hg'.
  - rewrite rejoin_app by exact Hlen.
    rewrite <- !app_assoc. f_equal.
    rewrite (app_assoc g0), E, <- app_assoc. reflexivity.
  - exact Hr.
Qed.

Lemma wrap_step_remainder (width : Z) (st : list str * str) (w : str) :
  0 < width -> w <> [] -> snd (wrap_step width st w) <> [].
Proof.
  intros Hw Hne. destruct st as [lines line]. unfold wrap_step.
  destruct (len (if truthy line then line ++ [SPACE] ++ w else w) <=? width).
  - cbn [snd]. destruct line as [|c line]; cbn [truthy]; [exact Hne | discriminate].
  - apply hard_split_remainder; assumption.
Qed.

(** The first word, read into the empty state. *)
Lemma wrap_first_tight (width : Z) (w : str) (lines : list str) (line : str) :
  0 < width -> w <> [] -> lines = [] -> line = [] ->
  covers_tight w (wrap_step width (lines, line) w).
Proof.
  intros Hw Hne El Ei.
  pose proof (wrap_step_remainder width (lines, line) w Hw Hne) as Hr.
  destruct (wrap_step_cases width lines line w Hw)
    as [[_ E] | [_ (cs & r & E & _ & Hcat & _ & _)]]; rewrite E in Hr |- *;
    clear E; subst lines line; cbn [truthy fst snd] in *.
  - exists [], []. cbn. repeat split; auto; left; reflexivity.
  - apply tight_extend with (g0 := []) (gaps := []); auto;
      first [left; reflexivity | cbn; symmetry; exact Hcat].
Qed.

(** A further non-empty word, after its separating space. *)
Lemma wrap_step_tight (width : Z) (T w : str) (st : list str * str) :
  0 < width -> w <> [] ->
  covers_tight T st ->
  covers_tight (T ++ [SPACE] ++ w) (wrap_step width st w).
Proof.
  intros Hw Hne (gaps & g & Hlen & Hgaps & Hg & -> & Hline).
  pose proof (wrap_step_remainder width st w Hw Hne) as Hr.
  destruct st as [lines line]. cbn [fst snd] in *.
  destruct line as [|c line]; [contradiction |].
  destruct (wrap_step_cases width lines (c :: line) w Hw)
    as [[_ E] | [_ (cs & r & E & _ & Hcat & _ & _)]]; rewrite E in Hr |- *;
    clear E; cbn [truthy fst snd] in *.
  - exists gaps, g. cbn [fst snd]. repeat split; auto.
    rewrite <- !app_assoc. reflexivity.
  - subst w. rewrite <- app_assoc.
    apply tight_extend with (g0 := [SPACE]) (gaps := gaps ++ [g]); auto.
    + rewrite !length_app. cbn. lia.
    + apply Forall_app. split; [exact Hgaps | constructor; [exact Hg | constructor]].
    + right. reflexivity.
    + rewrite rejoin_app by exact Hlen. cbn [rejoin].
      rewrite <- !app_assoc. reflexivity.
Qed.

Lemma wrap_fold_tight (width : Z) (ws : list str) (T : str) (st : list str * str) :
  0 < width ->
  Forall (fun w => w <> []) ws ->
  covers_tight T st ->
  covers_tight (T ++ concat (List.map (fun w => [SPACE] ++ w) ws))
               (fold_left (wrap_step width) ws st).
Proof.
  intros Hw Hws. revert T st. induction Hws as [|w ws Hne _ IH]; intros T st Hc.
  - cbn. rewrite app_nil_r. exact Hc.
  - cbn [List.map concat fold_left].
    rewrite app_assoc. apply IH.
    apply wrap_step_tight; auto.
Qed.

Lemma wrap_rejoin_tight (text : str) (width : Z) :
  0 < width ->
  Forall (fun w => w <> []) (str_split text) ->
  exists gaps : list str,
    length gaps = length (wrap_text_to_lines text width)
    /\ Forall join_gap gaps
    /\ rejoin gaps (wrap_text_to_lines text width) = text.
Proof.
  intros Hpos Hws. unfold wrap_text_to_lines.
  destruct (Z.leb_spec width 0) as [Hle | _]; [lia |].
  pose proof (str_join_split text) as Hjoin.
  pose proof (str_split_nonempty text) as Hsplit.
  destruct (str_split text) as [|w0 ws]; [contradiction |].
  apply Forall_cons_iff in Hws. destruct Hws as [Hw0 Hrest].
  rewrite str_join_cons in Hjoin.
  assert (H0 : covers_tight w0 (wrap_step width ([], []) w0))
    by (apply wrap_first_tight; auto).
  pose proof (wrap_fold_tight width ws w0 _ Hpos Hrest H0) as Hc.
  rewrite Hjoin in Hc. cbn [fold_left].
  destruct (fold_left (wrap_step width) ws (wrap_step width ([], []) w0))
    as [lines line].
  destruct Hc as (gaps & g & Hlen & Hgaps & Hg & E & Hline). cbn [fst snd] in *.
  destruct line as [|c line]; [contradiction |]. cbn [truthy].
  exists (gaps ++ [g]). repeat split.
  - rewrite !length_app. cbn. lia.
  - apply Forall_app. split; [exact Hgaps | constructor; [exact Hg | constructor]].
  - rewrite rejoin_app by exact Hlen. cbn [rejoin].
    rewrite E, !app_nil_r. reflexivity.
Qed.

Lemma strip_spaces_app (a b : str) :
  strip_spaces (a ++ b) = strip_spaces a ++ strip_spaces b.
Proof. apply filter_app. Qed.

Lemma strip_only_spaces (g : str) : only_spaces g -> strip_spaces g = [].
Proof.
  induction 1 as [|c g Hc _ IH]; [reflexivity |].
  subst c. cbn. exact IH.
Qed.

Lemma strip_rejoin (gaps lines : list str) :
  length gaps = length lines ->
  Forall only_spaces gaps ->
  strip_spaces (rejoin gaps lines) = strip_spaces (concat lines).
Proof.
  revert lines. induction gaps as [|g gaps IH]; intros [|l lines] Hlen Hg;
    try discriminate Hlen; [reflexivity |].
  inversion Hg as [|? ? Hg1 Hg2]; subst.
  cbn [rejoin concat]. rewrite !strip_spaces_app, (strip_only_spaces g Hg1).
  rewrite IH by (try injection Hlen; auto). reflexivity.
Qed.

(** C4. For a width of at least 1 the text is its wrapped lines, in order and
    each in one piece, with nothing but separator spaces in front of, between
    and behind them: putting the lines back behind their gaps rebuilds the
    text, so the lines hold no character the text does not have and none
    twice, and all that wrapping leaves out is spaces; in particular the
    lines and the text have the same characters other than spaces, in the
    same order.  When no word of the text is empty (no space at either end,
    none doubled), every join is a single space, or nothing where a long word
    was cut, and nothing is left behind the last line. *)
Theorem wrap_rejoin (text : str) (width : Z) :
  1 <= width ->
  (exists (gaps : list str) (tail : str),
     length gaps = length (wrap_text_to_lines text width)
     /\ Forall only_spaces gaps
     /\ only_spaces tail
     /\ rejoin gaps (wrap_text_to_lines text width) ++ tail = text)
  /\ strip_spaces (concat (wrap_text_to_lines text width)) = strip_spaces text
  /\ (Forall (fun w => w <> []) (str_split text) ->
      exists gaps : list str,
        length gaps = length (wrap_text_to_lines text width)
        /\ Forall (fun g => g = [] \/ g = [SPACE]) gaps
        /\ rejoin gaps (wrap_text_to_lines text width) = text).
Proof.
  intros Hw.
  assert (Htight : Forall (fun w => w <> []) (str_split text) ->
      exists gaps : list str,
        length gaps = length (wrap_text_to_lines text width)
        /\ Forall (fun g => g = [] \/ g = [SPACE]) gaps
        /\ rejoin gaps (wrap_text_to_lines text width) = text)
    by (apply wrap_rejoin_tight; lia).
  assert (H : exists (gaps : list str) (tail : str),
     length gaps = length (wrap_text_to_lines text width)
     /\ Forall only_spaces gaps
     /\ only_spaces tail
     /\ rejoin gaps (wrap_text_to_lines text width) ++ tail = text);
    [| split; [exact H |]; split; [| exact Htight];
       destruct H as (gaps & tail & Hlen & Hgaps & Htail & E);
       rewrite <- E at 2;
       rewrite strip_spaces_app, (strip_only_spaces tail Htail), app_nil_r;
       symmetry; apply strip_rejoin; assumption].
  clear Htight.
  unfold wrap_text_to_lines.
  destruct (Z.leb_spec width 0) as [Hle | Hpos]; [lia |].
  pose proof (str_join_split text) as Hjoin.
  pose proof (str_split_nonempty text) as Hne.
  destruct (str_split text) as [|w0 ws]; [contradiction |].
  rewrite str_join_cons in Hjoin.
  assert (H0 : covers w0 (wrap_step width ([], []) w0)).
  { apply (wrap_step_covers width [] [] w0 ([], []) Hpos).
    - exists [], []. repeat split; constructor.
    - right. split; reflexivity. }
  pose proof (wrap_fold_covers width ws w0 _ Hpos H0) as Hc.
  rewrite Hjoin in Hc. cbn [fold_left].
  destruct (fold_left (wrap_step width) ws (wrap_step width ([], []) w0))
    as [lines line].
  destruct Hc as (gaps & g & Hlen & Hgaps & Hg & E). cbn [fst snd] in *.
  destruct line as [|c line]; cbn [truthy].
  - exists gaps, g. repeat split; auto.
    rewrite E, app_nil_r. reflexivity.
  - exists (gaps ++ [g]), []. repeat split.
    + rewrite !length_app. cbn. lia.
    + apply Forall_app. split; [exact Hgaps | repeat constructor; exact Hg].
    + constructor.
    + rewrite rejoin_app by exact Hlen. cbn [rejoin].
      rewrite E, !app_nil_r. reflexivity.
Qed.

Lemma wrap_rejoin_witness :
  1 <= 4
  /\ strip_spaces (concat (wrap_text_to_lines (u "ab cd") 4))
     = strip_spaces (u "ab cd").
Proof.
  split; [lia |].
  apply (wrap_rejoin (u "ab cd") 4). lia.
Defined.

(** ** The coordinate table *)

Lemma enumerate_from_In {A} (l : list A) (a k : nat) (x : A) :
  In (k, x) (combine (seq a (length l)) l) ->
  (a <= k)%nat /\ nth_error l (k - a) = Some x.
Proof.
  revert a. induction l as [|y l IH]; intros a Hin; [destruct Hin |].
  cbn [length seq combine] in Hin. destruct Hin as [E | Hin].
  - injection E as <- <-. rewrite Nat.sub_diag. split; [lia | reflexivity].
  - destruct (IH (S a) Hin) as [Hle Hnth]. split; [lia |].
    replace (k - a)%nat with (S (k - S a)) by lia. exact Hnth.
Qed.

Lemma enumerate_In {A} (l : list A) (k : nat) (x : A) :
  In (k, x) (enumerate l) -> nth_error l k = Some x.
Proof.
  intros Hin. destruct (enumerate_from_In l 0 k x Hin) as [_ H].
  rewrite Nat.sub_0_r in H. exact H.
Qed.

Lemma line_cells_In (li : nat) (line : str) (c : cell) :
  In c (line_cells li line) -> fst c = li /\ (snd c < length line)%nat.
Proof.
  unfold line_cells. intros Hin. apply in_map_iff in Hin.
  destruct Hin as ([ci ch] & <- & Hin). cbn [fst snd].
  apply enumerate_In in Hin. split; [reflexivity |].
  apply nth_error_Some. congruence.
Qed.

Lemma line_cells_length (li : nat) (line : str) :
  length (line_cells li line) = length line.
Proof.
  unfold line_cells, enumerate.
  rewrite length_map, length_combine, length_seq. lia.
Qed.

Lemma table_step_ok (text : str) (W : Z) (lines : list str)
    (st : list cell * nat) (p : nat * str) :
  nth_error lines (fst p) = Some (snd p) ->
  table_ok text W lines st ->
  table_ok text W lines (table_step text W st p).
Proof.
  destruct st as [tbl idx], p as [li line]. cbn [fst snd].
  intros Hline [Hidx Hcells]. cbn [fst snd] in *. subst idx.
  assert (Hbase : forall i c,
             nth_error (tbl ++ line_cells li line) i = Some c ->
             cell_ok text W lines i c).
  { intros i c Hi. destruct (Nat.lt_ge_cases i (length tbl)) as [Hlt | Hge].
    - rewrite nth_error_app1 in Hi by exact Hlt. apply Hcells. exact Hi.
    - rewrite nth_error_app2 in Hi by exact Hge.
      apply nth_error_In, line_cells_In in Hi. destruct Hi as [Hfst Hsnd].
      exists line. rewrite Hfst. split; [exact Hline | left; exact Hsnd]. }
  assert (Hlen : length (tbl ++ line_cells li line) = (length tbl + length line)%nat)
    by (rewrite length_app, line_cells_length; reflexivity).
  unfold table_step.
  destruct ((length tbl + length line <? length text)%nat) eqn:Hin;
    cbn [andb]; [| split; cbn [fst snd]; auto].
  destruct (nth_error text (length tbl + length line)) as [ch|] eqn:Hch;
    [| split; cbn [fst snd]; auto].
  destruct (N.eqb_spec ch SPACE) as [-> | _]; [| split; cbn [fst snd]; auto].
  destruct (Z.ltb_spec (len line) W) as [Hroom | _]; [| split; cbn [fst snd]; auto].
  split; cbn [fst snd].
  - rewrite length_app, Hlen. cbn. lia.
  - intros i c Hi.
    destruct (Nat.lt_ge_cases i (length tbl + length line)) as [Hlt | Hge].
    + rewrite nth_error_app1 in Hi by lia. apply Hbase. exact Hi.
    + rewrite nth_error_app2 in Hi by lia. rewrite Hlen in Hi.
      destruct (i - (length tbl + length line))%nat as [|k] eqn:Hk;
        [| destruct k; discriminate Hi].
      injection Hi as <-. replace i with (length tbl + length line)%nat by lia.
      exists line. cbn [fst snd]. split; [exact Hline |].
      right. repeat split; assumption.
Qed.

Lemma table_fold_ok (text : str) (W : Z) (lines : list str)
    (ps : list (nat * str)) (st : list cell * nat) :
  (forall p, In p ps -> nth_error lines (fst p) = Some (snd p)) ->
  table_ok text W lines st ->
  table_ok text W lines (fold_left (table_step text W) ps st).
Proof.
  revert st. induction ps as [|p ps IH]; intros st Hps Hst; [exact Hst |].
  cbn [fold_left]. apply IH.
  - intros q Hq. apply Hps. right. exact Hq.
  - apply table_step_ok; [apply Hps; left; reflexivity | exact Hst].
Qed.

Lemma flat_to_line_ok (text : str) (W : Z) (lines : list str) (i : nat) (c : cell) :
  nth_error (flat_to_line text W lines) i = Some c ->
  cell_ok text W lines i c.
Proof.
  unfold flat_to_line.
  assert (H : table_ok text W lines
                (fold_left (table_step text W) (enumerate lines) ([], 0%nat))).
  { apply table_fold_ok.
    - intros [li line] Hin. apply enumerate_In. exact Hin.
    - split; [reflexivity |]. intros j d Hj. destruct j; discriminate Hj. }
  destruct H as [_ H]. apply H.
Qed.

(** C3, as the code has it.  A cell past the last character of a line is
    given out only for a space of the text and only when that line is shorter
    than the width; whether wrapping closed the line plays no part.  For
    "ab cd" at width 4 the lines are "ab" and "cd" and the space at flat
    index 2 has the cell in line 0, column 2; it is left without a cell at
    width 2, where "ab" fills its line. *)
Theorem space_cell_needs_room :
  (forall (text : str) (W : Z) (i li ci : nat) (line : str),
      nth_error (coordinate_table text W) i = Some (li, ci) ->
      nth_error (wrap_text_to_lines text W) li = Some line ->
      (ci <= length line)%nat
      /\ (ci = length line ->
          len line < W /\ nth_error text i = Some SPACE))
  /\ wrap_text_to_lines (u "ab cd") 4 = [u "ab"; u "cd"]
  /\ coordinate_table (u "ab cd") 4
     = [(0, 0); (0, 1); (0, 2); (1, 0); (1, 1)]%nat
  /\ wrap_text_to_lines (u "ab cd") 2 = [u "ab"; u "cd"]
  /\ coordinate_table (u "ab cd") 2 = [(0, 0); (0, 1); (1, 0); (1, 1)]%nat.
Proof.
  split; [| repeat split; reflexivity].
  intros text W i li ci line Hcell Hline.
  apply flat_to_line_ok in Hcell.
  destruct Hcell as (line' & Hline' & Hc). cbn [fst snd] in *.
  assert (line' = line) by congruence. subst line'.
  destruct Hc as [Hlt | (-> & Hroom & Hsp)].
  - split; [lia |]. intros E. lia.
  - split; [lia |]. intros _. split; assumption.
Qed.

(** Counterexample to C3 as the specification words it: at width 4 the line
    "ab" is closed by wrapping, and the space at flat index 2 still gets a
    screen cell. *)
Lemma space_after_wrapped_line_has_cell :
  wrap_text_to_lines (u "ab cd") 4 = [u "ab"; u "cd"]
  /\ nth_error (u "ab cd") 2 = Some SPACE
  /\ nth_error (coordinate_table (u "ab cd") 4) 2 = Some (0, 2)%nat.
Proof. repeat split; reflexivity. Qed.

Lemma space_cell_needs_room_witness :
  (2 <= length (u "ab"))%nat
  /\ (2%nat = length (u "ab") ->
      len (u "ab") < 4 /\ nth_error (u "ab cd") 2 = Some SPACE).
Proof.
  apply (proj1 space_cell_needs_room (u "ab cd") 4 2%nat 0%nat 2%nat (u "ab"));
    reflexivity.
Defined.

(** ** WordSource *)

Lemma DEFAULT_WORDS_length : length DEFAULT_WORDS = 416%nat.
Proof. vm_compute. reflexivity. Qed.

Lemma DEFAULT_WORDS_nonempty : DEFAULT_WORDS <> [].
Proof.
  intros E. pose proof DEFAULT_WORDS_length as H. rewrite E in H. discriminate H.
Qed.

Section WordSourceFacts.

Context {R : PRNG}.

Lemma WordSource_words_nonempty (e : rng_state) (config : Config) :
  ws_words (WordSource_init e config) <> [].
Proof.
  unfold WordSource_init. cbn [ws_words].
  destruct (numbers config), (punctuation config); intros E.
  - apply app_eq_nil in E. destruct E as [E _].
    apply app_eq_nil in E. destruct E as [E _].
    exact (DEFAULT_WORDS_nonempty E).
  - apply app_eq_nil in E. destruct E as [E _].
    exact (DEFAULT_WORDS_nonempty E).
  - apply app_eq_nil in E. destruct E as [E _].
    exact (DEFAULT_WORDS_nonempty E).
  - exact (DEFAULT_WORDS_nonempty E).
Qed.

Lemma choice_succeeds {A} (g : rng_state) (l : list A) :
  l <> [] -> exists r, choice g l = Some r.
Proof.
  intros Hne. destruct l as [|a l]; [contradiction |].
  unfold choice.
  pose proof (@randbelow_lt R g (length (a :: l))) as Hlt.
  destruct (randbelow g (length (a :: l))) as [k g']. cbn [fst] in Hlt.
  unfold index.
  destruct (nth_error (a :: l) k) as [x|] eqn:Hx.
  - exists (x, g'). reflexivity.
  - apply nth_error_None in Hx. cbn [length] in *. lia.
Qed.

Lemma draw_succeeds (ws : list str) (g : rng_state) (n : nat) :
  ws <> [] -> exists r, draw ws g n = Some r /\ length (fst r) = n.
Proof.
  intros Hne. revert g. induction n as [|n IH]; intros g.
  - exists ([], g). split; reflexivity.
  - cbn [draw]. destruct (choice_succeeds g ws Hne) as [[x g1] E]. rewrite E.
    cbn [bind snd fst]. destruct (IH g1) as ([rest g2] & E2 & Hlen).
    rewrite E2. cbn [bind fst snd].
    exists (x :: rest, g2). split; [reflexivity |].
    cbn [fst length] in *. congruence.
Qed.

Lemma generate_succeeds (e : rng_state) (config : Config) (count : Z) :
  exists ws src,
    generate (WordSource_init e config) count = Some (ws, src)
    /\ length ws = Z.to_nat count.
Proof.
  unfold generate.
  destruct (draw_succeeds (ws_words (WordSource_init e config))
              (ws_rng (WordSource_init e config)) (Z.to_nat count)
              (WordSource_words_nonempty e config)) as ([ws g] & E & Hlen).
  rewrite E. cbn [bind fst snd]. eauto.
Qed.

(** A draw of [n + m] words starts with the draw of [n] words. *)
Lemma draw_prefix (ws : list str) (g : rng_state) (n m : nat)
    (r : list str * rng_state) :
  draw ws g (n + m) = Some r ->
  exists r', draw ws g n = Some r' /\ fst r' = firstn n (fst r).
Proof.
  revert g r. induction n as [|n IH]; intros g r H.
  - exists ([], g). split; reflexivity.
  - cbn [Nat.add draw] in *.
    destruct (choice g ws) as [[x g1]|]; [| discriminate H].
    cbn [bind fst snd] in *.
    destruct (draw ws g1 (n + m)) as [[rest g2]|] eqn:E; [| discriminate H].
    cbn [bind fst snd] in H. injection H as <-.
    destruct (IH g1 _ E) as ([rest' g'] & E' & Hp). rewrite E'.
    cbn [bind fst snd] in *. eexists. split; [reflexivity |].
    cbn [fst firstn]. congruence.
Qed.

(** C9. With a seed in the configuration, what [generate(n)] returns does
    not depend on anything but the configuration: two word sources built
    from it, whatever the surroundings at their construction, return the
    same [n] words, and the call succeeds.  [generate(0)] returns the empty
    list, for every configuration. *)
Theorem generate_deterministic (config : Config) (z : Z) (n : Z)
    (e1 e2 : rng_state) :
  seed config = Some z ->
  (exists ws src,
      generate (WordSource_init e1 config) n = Some (ws, src)
      /\ generate (WordSource_init e2 config) n = Some (ws, src)
      /\ length ws = Z.to_nat n)
  /\ (forall (config' : Config) (e : rng_state),
         generate (WordSource_init e config') 0
         = Some ([], WordSource_init e config')).
Proof.
  intros Hseed. split.
  - destruct (generate_succeeds e1 config n) as (ws & src & E & Hlen).
    exists ws, src. repeat split; auto.
    rewrite <- E. unfold WordSource_init. rewrite Hseed. reflexivity.
  - intros config' e. reflexivity.
Qed.

End WordSourceFacts.

Lemma generate_deterministic_witness :
  seed (mkConfig (u "words") 60 5 false false (Some 1)) = Some 1
  /\ exists ws src,
       generate (R := lcg)
         (WordSource_init (R := lcg) 11%N (mkConfig (u "words") 60 5 false false (Some 1))) 5
       = Some (ws, src)
       /\ generate (R := lcg)
            (WordSource_init (R := lcg) 22%N (mkConfig (u "words") 60 5 false false (Some 1))) 5
          = Some (ws, src)
       /\ length ws = Z.to_nat 5.
Proof.
  split; [reflexivity |].
  apply (generate_deterministic (R := lcg)
           (mkConfig (u "words") 60 5 false false (Some 1)) 1 5 11%N 22%N).
  reflexivity.
Defined.

(** ** Counting matches *)

Lemma combine_snoc (typed text : str) (c t : char) :
  nth_error text (length typed) = Some t ->
  combine (typed ++ [c]) text = combine typed text ++ [(c, t)].
Proof.
  revert text. induction typed as [|a typed IH]; intros [|b text] H;
    try discriminate H.
  - cbn in H. injection H as ->. reflexivity.
  - cbn [length nth_error] in H. cbn [app combine]. rewrite (IH text H). reflexivity.
Qed.

Lemma combine_text_app (typed text ext : str) :
  (length typed <= length text)%nat ->
  combine typed (text ++ ext) = combine typed text.
Proof.
  revert text. induction typed as [|a typed IH]; intros [|b text] H;
    cbn [length] in H; try lia; try reflexivity.
  cbn [app combine]. rewrite IH by lia. reflexivity.
Qed.

Lemma matches_snoc (typed text : str) (c t : char) :
  nth_error text (length typed) = Some t ->
  matches (typed ++ [c]) text
  = (matches typed text + if (c =? t)%N then 1 else 0)%nat
  /\ mismatches (typed ++ [c]) text
     = (mismatches typed text + if (c =? t)%N then 0 else 1)%nat.
Proof.
  intros H. unfold matches, mismatches. rewrite (combine_snoc typed text c t H).
  rewrite !filter_app, !length_app. cbn [filter fst snd].
  destruct (c =? t)%N; cbn [negb length]; split; reflexivity.
Qed.

Lemma matches_text_app (typed text ext : str) :
  (length typed <= length text)%nat ->
  matches typed (text ++ ext) = matches typed text
  /\ mismatches typed (text ++ ext) = mismatches typed text.
Proof.
  intros H. unfold matches, mismatches.
  rewrite (combine_text_app typed text ext H). split; reflexivity.
Qed.

Lemma filter_split_length {A} (f : A -> bool) (l : list A) :
  (length (filter f l) + length (filter (fun x => negb (f x)) l))%nat = length l.
Proof.
  induction l as [|a l IH]; [reflexivity |].
  cbn [filter]. destruct (f a); cbn [negb length]; lia.
Qed.

Lemma matches_total (typed text : str) :
  (length typed <= length text)%nat ->
  (matches typed text + mismatches typed text)%nat = length typed.
Proof.
  intros H. unfold matches, mismatches.
  rewrite (filter_split_length (fun p => (fst p =? snd p)%N)).
  rewrite length_combine. lia.
Qed.

Lemma counts_ok_sum (text typed : str) (st : Stats.t) :
  counts_ok text typed st ->
  Stats.typed st = Stats.correct st + Stats.mistakes st
  /\ Stats.typed st = len typed
  /\ 0 <= Stats.correct st <= Stats.typed st
  /\ 0 <= Stats.mistakes st.
Proof.
  intros (Hle & Ht & Hc & Hm).
  pose proof (matches_total typed text Hle) as Hsum.
  unfold len. rewrite Ht, Hc, Hm. lia.
Qed.

Lemma last_index_snoc {A} (l : list A) (a : A) :
  nth_error (l ++ [a]) (length (l ++ [a]) - 1) = Some a.
Proof.
  rewrite length_app. cbn [length].
  replace (length l + 1 - 1)%nat with (length l) by lia.
  rewrite nth_error_app2 by lia. rewrite Nat.sub_diag. reflexivity.
Qed.

Lemma split_last {A} (l : list A) :
  l <> [] ->
  exists l' a, l = l' ++ [a].
Proof.
  intros Hne. destruct (exists_last Hne) as (l' & a & E). eauto.
Qed.

(** ** The steps of the session *)

Section SessionFacts.

Context {U : UnicodeDB} {R : PRNG}.

Lemma counts_ok_counters (text typed : str) (st st' : Stats.t) :
  counters st' = counters st ->
  counts_ok text typed st -> counts_ok text typed st'.
Proof.
  unfold counters, counts_ok. intros E (Hle & Ht & Hc & Hm).
  injection E as -> -> ->. auto.
Qed.

Lemma start_counters (t : Q) (st : Stats.t) :
  counters (Stats.start t st) = counters st
  /\ Stats.ended (Stats.start t st) = Stats.ended st.
Proof.
  unfold Stats.start. destruct (Stats.started st); split; reflexivity.
Qed.

Lemma stop_counters (t : Q) (st : Stats.t) :
  counters (Stats.stop t st) = counters st
  /\ Stats.started (Stats.stop t st) = Stats.started st.
Proof.
  unfold Stats.stop. destruct (Stats.ended st); split; reflexivity.
Qed.

(** Starting the clock touches [started] only. *)
Lemma start_on_key_spec (e : Env) (s : Session) (ch : char) :
  let s' := start_on_key e s ch in
  source s' = source s /\ text s' = text s /\ typed s' = typed s
  /\ phase_of s' = phase_of s
  /\ counters (stats s') = counters (stats s)
  /\ Stats.ended (stats s') = Stats.ended (stats s)
  /\ Stats.started (stats s')
     = match Stats.started (stats s) with
       | Some t => Some t
       | None => if isspace ch then None else Some (now e)
       end.
Proof.
  unfold start_on_key, Stats.start.
  destruct s as [src txt ty [st en n c m] ph]. cbn.
  destruct st; [repeat split |].
  destruct (isspace ch); cbn; repeat split.
Qed.

(** Appending a key: with room in the text the log grows by the key and the
    counters move by one; without room nothing changes. *)
Lemma append_char_spec (s : Session) (ch : char) :
  counts_ok (text s) (typed s) (stats s) ->
  exists s',
    append_char s ch = Some s'
    /\ source s' = source s /\ text s' = text s /\ phase_of s' = phase_of s
    /\ Stats.started (stats s') = Stats.started (stats s)
    /\ Stats.ended (stats s') = Stats.ended (stats s)
    /\ counts_ok (text s') (typed s') (stats s')
    /\ (((length (typed s) < length (text s))%nat
         /\ typed s' = typed s ++ [ch]
         /\ exists t,
              nth_error (text s) (length (typed s)) = Some t
              /\ counters (stats s')
                 = (Stats.typed (stats s) + 1,
                    Stats.correct (stats s) + (if (ch =? t)%N then 1 else 0),
                    Stats.mistakes (stats s) + (if (ch =? t)%N then 0 else 1)))
        \/ ((length (text s) <= length (typed s))%nat /\ s' = s)).
Proof.
  intros Hok. unfold append_char.
  destruct s as [src txt ty [st en n c m] ph]. cbn [text typed stats] in *.
  destruct (Nat.ltb_spec (length ty) (length txt)) as [Hroom | Hfull].
  - cbn [set_typed typed text stats source phase_of].
    replace (length (ty ++ [ch]) - 1)%nat with (length ty)
      by (rewrite length_app; cbn; lia).
    destruct (nth_error txt (length ty)) as [t|] eqn:Ht;
      [| apply nth_error_None in Ht; lia].
    unfold index. rewrite Ht. cbn [bind].
    destruct Hok as (Hle & Hn & Hc & Hm). cbn in Hn, Hc, Hm.
    destruct (matches_snoc ty txt ch t Ht) as [Em Emm].
    eexists. split; [reflexivity |].
    destruct (ch =? t)%N eqn:Hct;
      unfold set_typed, set_stats, Stats.set_typed, Stats.set_correct,
        Stats.set_mistakes;
      cbn [source text typed stats phase_of Stats.started Stats.ended
           Stats.typed Stats.correct Stats.mistakes];
      repeat (split; [reflexivity |]); (split; [| left]).
    1, 3: unfold counts_ok; cbn [Stats.typed Stats.correct Stats.mistakes];
      rewrite Em, Emm, length_app; cbn [length]; repeat split; lia.
    all: split; [exact Hroom | split; [reflexivity | exists t; split; [reflexivity |]]];
      rewrite Hct; unfold counters;
      cbn [Stats.typed Stats.correct Stats.mistakes];
      rewrite ?Z.add_0_r; reflexivity.
  - exists (mkSession src txt ty (Stats.mk st en n c m) ph).
    repeat (split; [reflexivity |]).
    split; [exact Hok | right; split; [exact Hfull | reflexivity]].
Qed.

(** Growing the buffer: the log and the counters stay, the text gets a
    suffix, and that suffix is a space and fifty generated words when the
    three conditions of the [if] hold, and nothing otherwise. *)
Lemma extend_text_spec (config : Config) (e : Env) (s : Session) :
  exists s',
    extend_text config e s = Some s'
    /\ source s' = source s /\ typed s' = typed s /\ stats s' = stats s
    /\ phase_of s' = phase_of s
    /\ ((str_eqb (mode config) (u "time")
         && (length (text s) <=? length (typed s))%nat
         && negb (finished config (now e) s) = false
         /\ s' = s)
        \/ (str_eqb (mode config) (u "time")
            && (length (text s) <=? length (typed s))%nat
            && negb (finished config (now e) s) = true
            /\ exists ws src,
                 generate (WordSource_init (entropy e) config) 50
                 = Some (ws, src)
                 /\ length ws = 50%nat
                 /\ text s' = text s ++ [SPACE] ++ str_join [SPACE] ws)).
Proof.
  unfold extend_text.
  destruct (str_eqb (mode config) (u "time")
            && (length (text s) <=? length (typed s))%nat
            && negb (finished config (now e) s)).
  - destruct (generate_succeeds (entropy e) config 50) as (ws & src & E & Hlen).
    rewrite E. cbn [bind fst].
    eexists. split; [reflexivity |].
    destruct s as [sr txt ty st ph]. cbn [set_text source text typed stats phase_of].
    repeat (split; [reflexivity |]).
    right. split; [reflexivity |]. exists ws, src. repeat split; auto.
  - exists s. repeat (split; [reflexivity |]). left. split; reflexivity.
Qed.

(** [finished()] looks at the mode, the clock and the two lengths only. *)
Lemma finished_time (config : Config) (t : Q) (s s' : Session) :
  str_eqb (mode config) (u "time") = true ->
  stats s' = stats s ->
  finished config t s' = finished config t s.
Proof.
  intros Hm E. unfold finished. rewrite Hm, E. reflexivity.
Qed.

Lemma finished_words (config : Config) (t : Q) (s : Session) :
  str_eqb (mode config) (u "time") = false ->
  finished config t s = (length (text s) <=? length (typed s))%nat.
Proof.
  intros Hm. unfold finished. rewrite Hm. reflexivity.
Qed.

(** Backspace on a log that ends in [a]: the entry goes and the counter
    that took it goes down by one. *)
Lemma backspace_snoc (s : Session) (l : list char) (a t : char) :
  typed s = l ++ [a] ->
  nth_error (text s) (length l) = Some t ->
  exists s',
    backspace s = Some s'
    /\ source s' = source s /\ text s' = text s /\ phase_of s' = phase_of s
    /\ typed s' = l
    /\ Stats.started (stats s') = Stats.started (stats s)
    /\ Stats.ended (stats s') = Stats.ended (stats s)
    /\ counters (stats s')
       = (Z.max 0 (Stats.typed (stats s) - 1),
          (if (a =? t)%N then Z.max 0 (Stats.correct (stats s) - 1)
           else Stats.correct (stats s)),
          (if (a =? t)%N then Stats.mistakes (stats s)
           else Z.max 0 (Stats.mistakes (stats s) - 1))).
Proof.
  intros Hty Ht. unfold backspace.
  destruct s as [src txt ty [st en n c m] ph]. cbn [text typed stats] in *.
  subst ty.
  assert (Htr : truthy (l ++ [a]) = true) by (destruct l; reflexivity).
  rewrite Htr. unfold index. rewrite last_index_snoc. cbn [bind].
  replace (length (l ++ [a]) - 1)%nat with (length l)
    by (rewrite length_app; cbn; lia).
  rewrite Ht. cbn [bind]. rewrite removelast_last.
  eexists. split; [reflexivity |].
  destruct (a =? t)%N; repeat split; reflexivity.
Qed.

Lemma backspace_empty (s : Session) :
  typed s = [] -> backspace s = Some s.
Proof. intros E. unfold backspace. rewrite E. reflexivity. Qed.

(** Backspace never fails, keeps the counters in step with the log, and
    leaves the log short of the end of the text. *)
Lemma backspace_spec (s : Session) :
  counts_ok (text s) (typed s) (stats s) ->
  exists s',
    backspace s = Some s'
    /\ source s' = source s /\ text s' = text s /\ phase_of s' = phase_of s
    /\ Stats.started (stats s') = Stats.started (stats s)
    /\ Stats.ended (stats s') = Stats.ended (stats s)
    /\ counts_ok (text s') (typed s') (stats s')
    /\ (typed s' = [] \/ (length (typed s') < length (text s'))%nat).
Proof.
  intros Hok. destruct (typed s) as [|c0 ty0] eqn:Hty.
  - exists s. rewrite (backspace_empty s Hty).
    repeat (split; [reflexivity |]). rewrite Hty.
    split; [exact Hok | left; reflexivity].
  - assert (Hne : c0 :: ty0 <> []) by discriminate.
    destruct (split_last (c0 :: ty0) Hne) as (l & a & El).
    rewrite El in *. clear Hne El c0 ty0.
    destruct Hok as (Hle & Hn & Hc & Hm).
    rewrite length_app in Hle. cbn [length] in Hle.
    destruct (nth_error (text s) (length l)) as [t|] eqn:Ht;
      [| apply nth_error_None in Ht; lia].
    destruct (backspace_snoc s l a t Hty Ht)
      as (s' & E & Hsrc & Htxt & Hph & Hty' & Hst & Hen & Hcnt).
    exists s'. rewrite Htxt, Hty'.
    repeat (split; [first [assumption | reflexivity] |]).
    split; [| right; lia].
    destruct (matches_snoc l (text s) a t Ht) as [Em Emm].
    rewrite length_app in Hn. cbn [length] in Hn.
    unfold counters in Hcnt. injection Hcnt as Hn' Hc' Hm'.
    unfold counts_ok. rewrite Hn', Hc', Hm', Hn, Hc, Hm, Em, Emm.
    destruct (a =? t)%N; repeat split; lia.
Qed.

(** The end check leaves text, log and counters alone; it stops the clock
    and hands over to the results panel exactly when [finished()]. *)
Lemma check_end_spec (config : Config) (e : Env) (s : Session) :
  let s' := check_end config e s in
  source s' = source s /\ text s' = text s /\ typed s' = typed s
  /\ counters (stats s') = counters (stats s)
  /\ Stats.started (stats s') = Stats.started (stats s)
  /\ (if finished config (now e) s
      then phase_of s' = Results
           /\ Stats.ended (stats s')
              = match Stats.ended (stats s) with
                | Some t => Some t
                | None => Some (now e)
                end
      else s' = s).
Proof.
  unfold check_end. destruct (finished config (now e) s).
  - destruct s as [src txt ty [st en n c m] ph].
    unfold Stats.stop. cbn. destruct en; cbn; repeat split; reflexivity.
  - repeat split; reflexivity.
Qed.

Lemma consistent_not_typing (s : Session) :
  counts_ok (text s) (typed s) (stats s) ->
  phase_of s <> Typing ->
  consistent s.
Proof. intros Hok Hph. split; [exact Hok | intros E; contradiction]. Qed.

Lemma check_end_consistent (config : Config) (e : Env) (s : Session) :
  counts_ok (text s) (typed s) (stats s) ->
  (finished config (now e) s = false ->
   typed s = [] \/ (length (typed s) < length (text s))%nat) ->
  consistent (check_end config e s).
Proof.
  intros Hok HJ.
  pose proof (check_end_spec config e s) as (Hsrc & Htxt & Hty & Hcnt & _ & Hfin).
  cbv zeta in *.
  assert (Hok' : counts_ok (text (check_end config e s))
                   (typed (check_end config e s))
                   (stats (check_end config e s))).
  { rewrite Htxt, Hty. apply (counts_ok_counters _ _ (stats s)); assumption. }
  destruct (finished config (now e) s).
  - destruct Hfin as [Hph _]. apply consistent_not_typing; [exact Hok' |].
    rewrite Hph. discriminate.
  - split; [exact Hok' |]. intros _. rewrite Hfin. apply HJ. reflexivity.
Qed.

(** The printable branch as a whole. *)
Lemma printable_spec (config : Config) (e : Env) (s : Session) (ch : char) :
  counts_ok (text s) (typed s) (stats s) ->
  exists s',
    printable config e s ch = Some s'
    /\ source s' = source s /\ phase_of s' = phase_of s
    /\ Stats.ended (stats s') = Stats.ended (stats s)
    /\ Stats.started (stats s')
       = match Stats.started (stats s) with
         | Some t => Some t
         | None => if isspace ch then None else Some (now e)
         end
    /\ counts_ok (text s') (typed s') (stats s')
    /\ (exists ext, text s' = text s ++ ext)
    /\ (finished config (now e) s' = false ->
        (length (typed s') < length (text s'))%nat)
    /\ (((length (typed s) < length (text s))%nat
         /\ typed s' = typed s ++ [ch]
         /\ exists t,
              nth_error (text s) (length (typed s)) = Some t
              /\ counters (stats s')
                 = (Stats.typed (stats s) + 1,
                    Stats.correct (stats s) + (if (ch =? t)%N then 1 else 0),
                    Stats.mistakes (stats s) + (if (ch =? t)%N then 0 else 1)))
        \/ ((length (text s) <= length (typed s))%nat
            /\ typed s' = typed s
            /\ counters (stats s') = counters (stats s))).
Proof.
  intros Hok. unfold printable.
  pose proof (start_on_key_spec e s ch) as H1. cbv zeta in H1.
  set (s1 := start_on_key e s ch) in *.
  destruct H1 as (Hsrc1 & Htxt1 & Hty1 & Hph1 & Hcnt1 & Hen1 & Hst1).
  assert (Hok1 : counts_ok (text s1) (typed s1) (stats s1)).
  { rewrite Htxt1, Hty1. apply (counts_ok_counters _ _ (stats s)); assumption. }
  destruct (append_char_spec s1 ch Hok1)
    as (s2 & E2 & Hsrc2 & Htxt2 & Hph2 & Hst2 & Hen2 & Hok2 & Hcase).
  rewrite E2. cbn [bind].
  destruct (extend_text_spec config e s2)
    as (s3 & E3 & Hsrc3 & Hty3 & Hstats3 & Hph3 & Hext).
  exists s3. split; [exact E3 |].
  split; [congruence |]. split; [congruence |].
  split; [rewrite Hstats3; congruence |].
  split; [rewrite Hstats3; congruence |].
  assert (Hle2 : (length (typed s2) <= length (text s2))%nat) by apply Hok2.
  assert (Htext3 : exists ext, text s3 = text s2 ++ ext
                               /\ counts_ok (text s3) (typed s3) (stats s3)).
  { destruct Hext as [[_ ->] | [_ (ws & src & _ & _ & Et)]].
    - exists []. rewrite app_nil_r. split; [reflexivity | exact Hok2].
    - exists ([SPACE] ++ str_join [SPACE] ws). split; [exact Et |].
      rewrite Et, Hty3, Hstats3.
      destruct Hok2 as (Hle & Hn & Hc & Hm).
      destruct (matches_text_app (typed s2) (text s2)
                  ([SPACE] ++ str_join [SPACE] ws) Hle) as [Em Emm].
      unfold counts_ok. rewrite Em, Emm, length_app. repeat split; auto. lia. }
  destruct Htext3 as (ext & Etext3 & Hok3).
  split; [exact Hok3 |].
  split; [exists ext; congruence |].
  split.
  - intros Hfin. destruct Hext as [[Hcond ->] | [_ (ws & src & _ & _ & Et)]].
    + destruct (str_eqb (mode config) (u "time")) eqn:Hm.
      * rewrite Hfin in Hcond. cbn [negb andb] in Hcond.
        rewrite andb_true_r in Hcond. apply Nat.leb_gt in Hcond. exact Hcond.
      * rewrite (finished_words config (now e) s2 Hm) in Hfin.
        apply Nat.leb_gt in Hfin. exact Hfin.
    + rewrite Et, Hty3, length_app. cbn [length app]. lia.
  - destruct Hcase as [(Hroom & Hpush & t & Ht & Hcnt) | [Hfull ->]].
    + left. rewrite Htxt1, Hty1 in Hroom. split; [exact Hroom |].
      split; [congruence |]. exists t. split; [congruence |].
      rewrite Hstats3, Hcnt. unfold counters in Hcnt1.
      injection Hcnt1 as -> -> ->. reflexivity.
    + right. rewrite Htxt1, Hty1 in Hfull. split; [exact Hfull |].
      split; [congruence |]. rewrite Hstats3. exact Hcnt1.
Qed.

Lemma returned_consistent (s : Session) (st r : Stats.t) :
  counts_ok (text s) (typed s) (stats s) ->
  counters st = counters (stats s) ->
  consistent (set_phase (Returned r) (set_stats st s)).
Proof.
  intros Hok Hcnt. apply consistent_not_typing.
  - destruct s as [src txt ty st0 ph]. cbn in *.
    apply (counts_ok_counters _ _ st0); assumption.
  - destruct s; cbn. discriminate.
Qed.

(** One pass of the main loop: it does not raise, keeps the counters in
    step with the log, never resets a clock that was started, and only ever
    adds to the end of the text. *)
Lemma main_loop_spec (config : Config) (e : Env) (s : Session) (ch : key) :
  consistent s ->
  phase_of s = Typing ->
  exists s',
    main_loop config e s ch = Some s'
    /\ consistent s'
    /\ source s' = source s
    /\ (exists ext, text s' = text s ++ ext)
    /\ (forall t, Stats.started (stats s) = Some t ->
                  Stats.started (stats s') = Some t).
Proof.
  intros [Hok HJ] Hph. specialize (HJ Hph).
  assert (Hexit : let st := Stats.stop (now e) (stats s) in
            consistent (set_phase (Returned st) (set_stats st s))
            /\ source (set_phase (Returned st) (set_stats st s)) = source s
            /\ (exists ext, text (set_phase (Returned st) (set_stats st s))
                            = text s ++ ext)
            /\ (forall t, Stats.started (stats s) = Some t ->
                  Stats.started
                    (stats (set_phase (Returned st) (set_stats st s))) = Some t)).
  { cbv zeta. destruct (stop_counters (now e) (stats s)) as [Hc Hs].
    split; [apply returned_consistent; assumption |].
    split; [reflexivity |].
    split; [exists []; cbn; rewrite app_nil_r; reflexivity |].
    intros t Ht. cbn. congruence. }
  assert (Hsame : forall s0, s0 = s ->
            exists s', Some (check_end config e s0) = Some s'
              /\ consistent s' /\ source s' = source s
              /\ (exists ext, text s' = text s ++ ext)
              /\ (forall t, Stats.started (stats s) = Some t ->
                            Stats.started (stats s') = Some t)).
  { intros s0 ->. eexists. split; [reflexivity |].
    pose proof (check_end_spec config e s) as (Hsrc & Htxt & _ & _ & Hst & _).
    cbv zeta in *.
    split; [apply check_end_consistent; auto |].
    split; [exact Hsrc |].
    split; [exists []; rewrite app_nil_r; exact Htxt |].
    intros t Ht. congruence. }
  assert (Hbs : exists s1, backspace s = Some s1
            /\ consistent s1 /\ source s1 = source s
            /\ text s1 = text s
            /\ Stats.started (stats s1) = Stats.started (stats s)
            /\ (typed s1 = [] \/ (length (typed s1) < length (text s1))%nat)
            /\ counts_ok (text s1) (typed s1) (stats s1)).
  { destruct (backspace_spec s Hok)
      as (s1 & E & Hsrc & Htxt & _ & Hst & _ & Hok1 & HJ1).
    exists s1. split; [exact E |].
    split; [split; [exact Hok1 | intros _; exact HJ1] |].
    repeat (split; [assumption |]). exact Hok1. }
  destruct ch as [c | n]; unfold main_loop.
  - destruct (c =? TAB)%N.
    { eexists. split; [reflexivity |].
      split; [apply (returned_consistent s (stats s) Stats.init Hok eq_refl) |].
      split; [reflexivity |].
      split; [exists []; cbn; rewrite app_nil_r; reflexivity |].
      intros t Ht. exact Ht. }
    destruct (c =? ESC)%N.
    { eexists. split; [reflexivity |]. exact Hexit. }
    set (c' := if (c =? LF)%N || (c =? CR)%N then SPACE else c).
    destruct ((c' =? DEL)%N || (c' =? BS)%N).
    { destruct Hbs as (s1 & E & Hc1 & Hsrc & Htxt & Hst & _).
      exists s1. split; [exact E |]. split; [exact Hc1 |].
      split; [exact Hsrc |].
      split; [exists []; rewrite app_nil_r; exact Htxt |].
      intros t Ht. congruence. }
    destruct (isprintable c' || (c' =? SPACE)%N); [| apply Hsame; reflexivity].
    destruct (printable_spec config e s c' Hok)
      as (s1 & E & Hsrc & _ & _ & Hst & Hok1 & (ext & Hext) & HJ1 & _).
    rewrite E. cbn [bind]. eexists. split; [reflexivity |].
    pose proof (check_end_spec config e s1) as (Hsrc' & Htxt' & _ & _ & Hst' & _).
    cbv zeta in *.
    split; [apply check_end_consistent; [exact Hok1 |] |].
    { intros Hfin. right. apply HJ1. exact Hfin. }
    split; [congruence |].
    split; [exists ext; congruence |].
    intros t Ht. rewrite Hst', Hst, Ht. reflexivity.
  - destruct (n =? KEY_EXIT).
    { eexists. split; [reflexivity |]. exact Hexit. }
    destruct (n =? KEY_RESIZE).
    { exists s. split; [reflexivity |].
      split; [split; [exact Hok | intros _; exact HJ] |].
      split; [reflexivity |].
      split; [exists []; rewrite app_nil_r; reflexivity |]. auto. }
    destruct ((n =? KEY_BACKSPACE) || (n =? 127)); [| apply Hsame; reflexivity].
    destruct Hbs as (s1 & E & _ & Hsrc & Htxt & Hst & HJ1 & Hok1).
    rewrite E. cbn [bind]. eexists. split; [reflexivity |].
    pose proof (check_end_spec config e s1) as (Hsrc' & Htxt' & _ & _ & Hst' & _).
    cbv zeta in *.
    split; [apply check_end_consistent; [exact Hok1 | intros _; exact HJ1] |].
    split; [congruence |].
    split; [exists []; rewrite app_nil_r; congruence |].
    intros t Ht. congruence.
Qed.

Lemma results_loop_spec (s : Session) (k : key) :
  phase_of s = Results ->
  let s' := results_loop s k in
  source s' = source s /\ text s' = text s /\ typed s' = typed s
  /\ stats s' = stats s /\ phase_of s' <> Typing.
Proof.
  intros Hph. destruct s as [src txt ty st ph]. cbn in Hph. subst ph.
  unfold results_loop. destruct k as [c | n].
  - destruct ((c =? 114)%N || (c =? 82)%N); [cbn; repeat split; discriminate |].
    destruct ((c =? 113)%N || (c =? 81)%N); [cbn; repeat split; discriminate |].
    destruct (c =? TAB)%N; [cbn; repeat split; discriminate |].
    destruct (c =? ESC)%N; cbn; repeat split; try discriminate.
  - destruct (n =? KEY_EXIT); cbn; repeat split; try discriminate.
Qed.

(** One key event, in whatever phase the session is. *)
Lemma apply_spec (config : Config) (s : Session) (ev : key * Env) :
  consistent s ->
  exists s',
    apply config s ev = Some s'
    /\ consistent s'
    /\ source s' = source s
    /\ (exists ext, text s' = text s ++ ext)
    /\ (forall t, Stats.started (stats s) = Some t ->
                  Stats.started (stats s') = Some t).
Proof.
  intros Hc. unfold apply. destruct (phase_of s) eqn:Hph.
  - apply main_loop_spec; assumption.
  - pose proof (results_loop_spec s (fst ev) Hph) as (Hsrc & Htxt & Hty & Hst & Hnt).
    cbv zeta in *. eexists. split; [reflexivity |].
    split; [apply consistent_not_typing; [| exact Hnt] |].
    { rewrite Htxt, Hty, Hst. apply Hc. }
    split; [exact Hsrc |].
    split; [exists []; rewrite app_nil_r; exact Htxt |].
    intros t Ht. rewrite Hst. exact Ht.
  - exists s. split; [reflexivity |]. split; [exact Hc |].
    split; [reflexivity |].
    split; [exists []; rewrite app_nil_r; reflexivity |]. auto.
Qed.

(** Nothing brings a session back into its main loop. *)
Lemma apply_typing_inv (config : Config) (s s' : Session) (ev : key * Env) :
  apply config s ev = Some s' ->
  phase_of s' = Typing ->
  phase_of s = Typing.
Proof.
  unfold apply. destruct (phase_of s) eqn:Hph; [reflexivity | |].
  - intros E. injection E as <-.
    pose proof (results_loop_spec s (fst ev) Hph) as (_ & _ & _ & _ & Hnt).
    intros H. contradiction.
  - intros E. injection E as <-. intros H. congruence.
Qed.

Lemma run_spec (config : Config) (evs : list (key * Env)) (s : Session) :
  consistent s ->
  exists s',
    run config s evs = Some s'
    /\ consistent s'
    /\ (forall t, Stats.started (stats s) = Some t ->
                  Stats.started (stats s') = Some t).
Proof.
  revert s. induction evs as [|ev evs IH]; intros s Hc.
  - exists s. split; [reflexivity |]. split; [exact Hc | auto].
  - cbn [run].
    destruct (apply_spec config s ev Hc) as (s1 & E & Hc1 & _ & _ & Hst).
    rewrite E. cbn [bind].
    destruct (IH s1 Hc1) as (s2 & E2 & Hc2 & Hst2).
    exists s2. split; [exact E2 |]. split; [exact Hc2 | auto].
Qed.

Lemma session_start_consistent (src : WordSource) (txt : str) :
  consistent (session_start src txt).
Proof.
  split; [| intros _; left; reflexivity].
  unfold counts_ok. cbn. repeat split; lia.
Qed.

(** C1. Whatever the keys and whenever they come, every key event is
    processed without an exception, and after each of them the counters
    satisfy [typed = correct + mistakes = len(typed log)]. *)
Theorem counters_invariant (config : Config) (src : WordSource) (txt : str)
    (evs : list (key * Env)) (k : nat) :
  exists s,
    run config (session_start src txt) (firstn k evs) = Some s
    /\ Stats.typed (stats s) = Stats.correct (stats s) + Stats.mistakes (stats s)
    /\ Stats.typed (stats s) = len (typed s).
Proof.
  destruct (run_spec config (firstn k evs) (session_start src txt)
              (session_start_consistent src txt)) as (s & E & [Hok _] & _).
  exists s. split; [exact E |].
  destruct (counts_ok_sum _ _ _ Hok) as (H1 & H2 & _). split; assumption.
Qed.

(** The same for the function as a whole, text generation included. *)
Lemma typing_session_total (est_words : Z) (e : rng_state) (config : Config)
    (evs : list (key * Env)) :
  exists s,
    typing_session est_words e config evs = Some s
    /\ Stats.typed (stats s) = Stats.correct (stats s) + Stats.mistakes (stats s)
    /\ Stats.typed (stats s) = len (typed s).
Proof.
  unfold typing_session, typing_session_init, build_text.
  destruct (generate_succeeds e config
              (if str_eqb (mode config) (u "words")
               then Z.max 1 (words config) else est_words))
    as (ws & src & E & _).
  rewrite E. cbn [bind fst snd].
  destruct (run_spec config evs (session_start src (str_join [SPACE] ws))
              (session_start_consistent src (str_join [SPACE] ws)))
    as (s & Es & [Hok _] & _).
  exists s. split; [exact Es |].
  destruct (counts_ok_sum _ _ _ Hok) as (H1 & H2 & _). split; assumption.
Qed.

(** C7. In every state a session can reach, the accuracy is a number
    between 0 and 1, namely 0 when nothing is typed and [correct / typed]
    otherwise, and the raw words-per-minute figure is never negative,
    whatever the clock shows. *)
Theorem metrics_bounds (config : Config) (src : WordSource) (txt : str)
    (evs : list (key * Env)) (s : Session) :
  run config (session_start src txt) evs = Some s ->
  (0 <= Stats.accuracy (stats s) <= 1)%Q
  /\ (Stats.typed (stats s) = 0 -> Stats.accuracy (stats s) = 0%Q)
  /\ (Stats.typed (stats s) <> 0 ->
      Stats.accuracy (stats s)
      = (inject_Z (Stats.correct (stats s)) / inject_Z (Stats.typed (stats s)))%Q)
  /\ forall t : Q, (0 <= Stats.raw_wpm t (stats s))%Q.
Proof.
  intros Hrun.
  destruct (run_spec config evs (session_start src txt)
              (session_start_consistent src txt)) as (s' & E & [Hok _] & _).
  assert (s' = s) by congruence. subst s'.
  destruct (counts_ok_sum _ _ _ Hok) as (_ & _ & [Hc0 Hct] & _).
  set (st := stats s) in *. clearbody st.
  repeat split.
  - unfold Stats.accuracy. destruct (Z.eqb_spec (Stats.typed st) 0);
      [apply Qle_refl |].
    apply Qle_shift_div_l.
    + rewrite <- (Zlt_Qlt 0). lia.
    + rewrite Qmult_0_l. rewrite <- (Zle_Qle 0). exact Hc0.
  - unfold Stats.accuracy. destruct (Z.eqb_spec (Stats.typed st) 0);
      [discriminate |].
    apply Qle_shift_div_r.
    + rewrite <- (Zlt_Qlt 0). lia.
    + rewrite Qmult_1_l. rewrite <- Zle_Qle. exact Hct.
  - intros H0. unfold Stats.accuracy. rewrite H0. reflexivity.
  - intros Hn. unfold Stats.accuracy.
    destruct (Z.eqb_spec (Stats.typed st) 0); [contradiction | reflexivity].
  - intros t. unfold Stats.raw_wpm.
    destruct (Qle_bool (Stats.minutes_elapsed t st) 0) eqn:Hm;
      [apply Qle_refl |].
    assert (Hpos : (0 < Stats.minutes_elapsed t st)%Q).
    { apply Qnot_le_lt. intros Hle. apply Qle_bool_iff in Hle. congruence. }
    apply Qle_shift_div_l; [exact Hpos |].
    rewrite Qmult_0_l. apply Qle_shift_div_l; [reflexivity |].
    rewrite Qmult_0_l. rewrite <- (Zle_Qle 0). exact Hc0.
Qed.

(** ** Which branch a key takes *)

Lemma printable_key_cases (c : char) :
  printable_key c = true ->
  (c =? TAB)%N = false /\ (c =? ESC)%N = false
  /\ (normalize c =? DEL)%N || (normalize c =? BS)%N = false
  /\ isprintable (normalize c) || (normalize c =? SPACE)%N = true.
Proof.
  unfold printable_key, normalize. intros H.
  destruct (N.eqb_spec c LF) as [E | Hlf];
    [rewrite E; repeat split; try reflexivity; apply orb_true_r |].
  destruct (N.eqb_spec c CR) as [E | Hcr];
    [rewrite E; repeat split; try reflexivity; apply orb_true_r |].
  destruct (N.eqb_spec c SPACE) as [E | Hsp];
    [rewrite E; repeat split; try reflexivity; apply orb_true_r |].
  cbn [orb] in H |- *.
  assert (Hctl : forall k, (k < 32 \/ k = 127)%N -> (c =? k)%N = false).
  { intros k Hk. destruct (N.eqb_spec c k) as [-> | _]; [| reflexivity].
    rewrite isprintable_ascii in H by (destruct Hk; lia).
    destruct Hk as [Hk | ->]; [| discriminate H].
    apply andb_prop in H. destruct H as [H _]. apply N.leb_le in H. lia. }
  rewrite H. unfold TAB, ESC, DEL, BS.
  rewrite !Hctl by (first [left; reflexivity | right; reflexivity]).
  repeat split.
Qed.

Lemma main_loop_printable (config : Config) (e : Env) (s : Session) (c : char) :
  printable_key c = true ->
  main_loop config e s (KStr c)
  = (s1 <- printable config e s (normalize c) ;; Some (check_end config e s1)).
Proof.
  intros H. destruct (printable_key_cases c H) as (Ht & He & Hb & Hp).
  unfold main_loop. rewrite Ht, He. fold (normalize c). rewrite Hb, Hp.
  reflexivity.
Qed.

Lemma main_loop_backspace (config : Config) (e : Env) (s : Session) (bs : key) :
  In bs backspace_keys ->
  main_loop config e s bs = backspace s
  \/ main_loop config e s bs
     = (s1 <- backspace s ;; Some (check_end config e s1)).
Proof.
  intros [<- | [<- | [<- | [<- | []]]]]; [left | left | right | right];
    reflexivity.
Qed.

Lemma reachable_consistent (config : Config) (src : WordSource) (txt : str)
    (evs : list (key * Env)) (s : Session) :
  run config (session_start src txt) evs = Some s -> consistent s.
Proof.
  intros Hrun.
  destruct (run_spec config evs (session_start src txt)
              (session_start_consistent src txt)) as (s' & E & Hc & _).
  congruence.
Qed.

(** C6, as the code has it.  In a session that has not started its clock
    and still reads keys, a printable key that is not whitespace sets
    [started] to the current time and leaves [ended] unset when the key
    handler is done; the end check of the same pass keeps [started].  A
    space, typed as such or coming from enter, leaves [started] unset.
    Once set, [started] keeps its value under every later key. *)
Theorem started_set_by_first_visible_key (config : Config) :
  (forall (src : WordSource) (txt : str) (evs : list (key * Env))
          (s : Session) (e : Env) (c : char),
      run config (session_start src txt) evs = Some s ->
      phase_of s = Typing ->
      Stats.started (stats s) = None ->
      Stats.ended (stats s) = None ->
      printable_key c = true ->
      exists s1,
        printable config e s (normalize c) = Some s1
        /\ apply config s (KStr c, e) = Some (check_end config e s1)
        /\ Stats.ended (stats s1) = None
        /\ Stats.started (stats s1)
           = (if isspace (normalize c) then None else Some (now e))
        /\ Stats.started (stats (check_end config e s1))
           = (if isspace (normalize c) then None else Some (now e)))
  /\ (forall (src : WordSource) (txt : str) (evs evs' : list (key * Env))
             (s s' : Session) (t : Q),
         run config (session_start src txt) evs = Some s ->
         Stats.started (stats s) = Some t ->
         run config s evs' = Some s' ->
         Stats.started (stats s') = Some t).
Proof.
  split.
  - intros src txt evs s e c Hrun Hph Hst Hen Hkey.
    pose proof (reachable_consistent _ _ _ _ _ Hrun) as [Hok _].
    destruct (printable_spec config e s (normalize c) Hok)
      as (s1 & E & _ & _ & Hen1 & Hst1 & _).
    exists s1. split; [exact E |].
    split.
    { unfold apply. rewrite Hph. cbn [fst snd].
      rewrite (main_loop_printable config e s c Hkey), E. reflexivity. }
    rewrite Hst in Hst1.
    split; [congruence |]. split; [exact Hst1 |].
    pose proof (check_end_spec config e s1) as (_ & _ & _ & _ & Hst' & _).
    cbv zeta in Hst'. congruence.
  - intros src txt evs evs' s s' t Hrun Ht Hrun'.
    pose proof (reachable_consistent _ _ _ _ _ Hrun) as Hc.
    destruct (run_spec config evs' s Hc) as (s2 & E & _ & Hkeep).
    assert (s2 = s') by congruence. subst s2. apply Hkeep. exact Ht.
Qed.

(** C5, as the code has it.  In a reachable state of the main loop, a
    printable key followed at once by a backspace leaves [typed], [correct]
    and [mistakes] as they were before the key, provided the session still
    reads keys in its main loop after the printable key. *)
Theorem backspace_undoes_key (config : Config) (src : WordSource) (txt : str)
    (evs : list (key * Env)) (s s1 : Session) (e e' : Env) (c : char)
    (bs : key) :
  run config (session_start src txt) evs = Some s ->
  printable_key c = true ->
  apply config s (KStr c, e) = Some s1 ->
  phase_of s1 = Typing ->
  In bs backspace_keys ->
  exists s2,
    apply config s1 (bs, e') = Some s2
    /\ counters (stats s2) = counters (stats s).
Proof.
  intros Hrun Hkey Happ Hph1 Hbs.
  pose proof (apply_typing_inv config s s1 _ Happ Hph1) as Hph.
  pose proof (reachable_consistent _ _ _ _ _ Hrun) as [Hok HJ].
  specialize (HJ Hph).
  unfold apply in Happ. rewrite Hph in Happ. cbn [fst snd] in Happ.
  rewrite (main_loop_printable config e s c Hkey) in Happ.
  destruct (printable_spec config e s (normalize c) Hok)
    as (sp & E & _ & Hphp & _ & _ & Hokp & (ext & Hext) & _ & Hcase).
  rewrite E in Happ. cbn [bind] in Happ. injection Happ as <-.
  pose proof (check_end_spec config e sp) as (_ & _ & _ & _ & _ & Hfin).
  cbv zeta in Hfin.
  destruct (finished config (now e) sp).
  { destruct Hfin as [Hres _]. congruence. }
  rewrite Hfin in *. clear Hfin.
  assert (Hback : exists s2, backspace sp = Some s2
                    /\ counters (stats s2) = counters (stats s)).
  { destruct Hcase as [(Hroom & Hpush & t & Ht & Hcnt) | (Hfull & Hty & Hcnt)].
    - assert (Ht' : nth_error (text sp) (length (typed s)) = Some t).
      { rewrite Hext, nth_error_app1 by exact Hroom. exact Ht. }
      destruct (backspace_snoc sp (typed s) (normalize c) t Hpush Ht')
        as (s2 & E2 & _ & _ & _ & _ & _ & _ & Hcnt2).
      exists s2. split; [exact E2 |].
      destruct (counts_ok_sum _ _ _ Hok) as (_ & _ & [Hc0 Hct] & Hm0).
      rewrite Hcnt2. unfold counters in Hcnt |- *.
      injection Hcnt as -> -> ->.
      destruct (normalize c =? t)%N; repeat f_equal; lia.
    - exists sp. split; [| exact Hcnt].
      apply backspace_empty. rewrite Hty.
      destruct HJ as [HJ | HJ]; [exact HJ | lia]. }
  destruct Hback as (s2 & E2 & Hcnt2).
  unfold apply. rewrite Hph1. cbn [fst snd].
  destruct (main_loop_backspace config e' sp bs Hbs) as [-> | ->].
  - exists s2. split; assumption.
  - rewrite E2. cbn [bind]. eexists. split; [reflexivity |].
    pose proof (check_end_spec config e' s2) as (_ & _ & _ & Hc & _).
    cbv zeta in Hc. congruence.
Qed.

Lemma WordSource_init_seeded (config : Config) (z : Z) (g g' : rng_state) :
  seed config = Some z ->
  WordSource_init g config = WordSource_init g' config.
Proof. intros H. unfold WordSource_init. rewrite H. reflexivity. Qed.

(** The text a seeded time-mode session starts with begins with the words
    that [generate(50)] gives on a new source. *)
Lemma build_text_starts_with (config : Config) (est : Z) (g : rng_state)
    (ws : list str) (src' : WordSource) (t0 : str) (src0 : WordSource) :
  mode config = u "time" ->
  50 <= est ->
  generate (WordSource_init g config) 50 = Some (ws, src') ->
  build_text est (WordSource_init g config) config = Some (t0, src0) ->
  exists rest, t0 = str_join [SPACE] (ws ++ rest).
Proof.
  intros Hmode Hest Hgen Hbuild. unfold build_text in Hbuild.
  rewrite Hmode in Hbuild.
  change (str_eqb (u "time") (u "words")) with false in Hbuild.
  unfold generate in Hgen, Hbuild.
  set (W := ws_words (WordSource_init g config)) in *.
  set (G := ws_rng (WordSource_init g config)) in *.
  destruct (draw W G (Z.to_nat est)) as [[all g1]|] eqn:Eall;
    [| discriminate Hbuild].
  cbn [bind fst snd] in Hbuild. injection Hbuild as <- _.
  replace (Z.to_nat est) with (50 + (Z.to_nat est - 50))%nat in Eall by lia.
  destruct (draw_prefix W G 50 _ _ Eall) as ([ws' g2] & E50 & Hfirst).
  change (Z.to_nat 50) with 50%nat in Hgen. rewrite E50 in Hgen.
  cbn [bind fst snd] in Hgen, Hfirst. injection Hgen as <- _.
  exists (skipn 50 all). rewrite Hfirst, firstn_skipn. reflexivity.
Qed.

(** C10. In time mode, a printable key that takes the log to the end of
    the text, in a session that is not over after it, appends to the text
    a space and the fifty words that [generate(50)] returns on a newly
    built [WordSource(config)].  With a seed in the configuration these
    fifty words are the same whatever the session has done and whenever it
    happens; they are the words the session's first text began with, not
    the ones that would follow it in the stream. *)
Theorem time_mode_extension (config : Config) (src : WordSource) (txt : str)
    (evs : list (key * Env)) (s s2 : Session) (e : Env) (c : char) :
  run config (session_start src txt) evs = Some s ->
  mode config = u "time" ->
  printable_key c = true ->
  S (length (typed s)) = length (text s) ->
  apply config s (KStr c, e) = Some s2 ->
  phase_of s2 = Typing ->
  exists ws src',
    generate (WordSource_init (entropy e) config) 50 = Some (ws, src')
    /\ length ws = 50%nat
    /\ typed s2 = typed s ++ [normalize c]
    /\ text s2 = text s ++ [SPACE] ++ str_join [SPACE] ws
    /\ (forall z, seed config = Some z ->
          (forall g, generate (WordSource_init g config) 50 = Some (ws, src'))
          /\ (forall est g t0 src0,
                 50 <= est ->
                 build_text est (WordSource_init g config) config
                 = Some (t0, src0) ->
                 exists rest, t0 = str_join [SPACE] (ws ++ rest))).
Proof.
  intros Hrun Hmode Hkey Hend Happ Hph2.
  pose proof (apply_typing_inv config s s2 _ Happ Hph2) as Hph.
  pose proof (reachable_consistent _ _ _ _ _ Hrun) as [Hok _].
  unfold apply in Happ. rewrite Hph in Happ. cbn [fst snd] in Happ.
  rewrite (main_loop_printable config e s c Hkey) in Happ.
  unfold printable in Happ.
  pose proof (start_on_key_spec e s (normalize c)) as H1. cbv zeta in H1.
  set (s1 := start_on_key e s (normalize c)) in *.
  destruct H1 as (_ & Htxt1 & Hty1 & Hph1 & Hcnt1 & _ & _).
  assert (Hok1 : counts_ok (text s1) (typed s1) (stats s1)).
  { rewrite Htxt1, Hty1. apply (counts_ok_counters _ _ (stats s)); assumption. }
  destruct (append_char_spec s1 (normalize c) Hok1)
    as (sa & Ea & _ & Htxta & Hpha & _ & _ & _ & Hcase).
  rewrite Ea in Happ. cbn [bind] in Happ.
  destruct Hcase as [(_ & Hpush & _) | [Hfull _]];
    [| rewrite Htxt1, Hty1 in Hfull; lia].
  destruct (extend_text_spec config e sa)
    as (sx & Ex & _ & Htyx & Hstx & Hphx & Hext).
  rewrite Ex in Happ. cbn [bind] in Happ. injection Happ as <-.
  pose proof (check_end_spec config e sx) as (_ & Htxt2 & Hty2 & _ & _ & Hfin).
  cbv zeta in Hfin, Htxt2, Hty2.
  destruct (finished config (now e) sx) eqn:Hfx.
  { destruct Hfin as [Hres _]. congruence. }
  rewrite Hfin in *. clear Hfin Htxt2 Hty2.
  assert (Hm : str_eqb (mode config) (u "time") = true)
    by (rewrite Hmode; reflexivity).
  destruct Hext as [[Hcond Esame] | [_ (ws & src' & Egen & Hlen & Etxt)]].
  - exfalso. subst sx. rewrite Hm, Hfx in Hcond.
    rewrite Htxta, Hpush, Htxt1, Hty1, length_app in Hcond.
    cbn [length negb andb] in Hcond. rewrite andb_true_r in Hcond.
    apply Nat.leb_gt in Hcond. lia.
  - exists ws, src'. split; [exact Egen |]. split; [exact Hlen |].
    split; [congruence |]. split; [congruence |].
    intros z Hseed. split.
    + intros g.
      rewrite (WordSource_init_seeded config z g (entropy e) Hseed). exact Egen.
    + intros est g t0 src0 Hest Hbuild.
      apply (build_text_starts_with config est g ws src' t0 src0); auto.
      rewrite (WordSource_init_seeded config z g (entropy e) Hseed). exact Egen.
Qed.

Lemma printable_key_ascii (c : char) :
  (32 <= c < 127)%N -> printable_key c = true.
Proof.
  intros Hc. unfold printable_key.
  rewrite isprintable_ascii by lia.
  replace ((32 <=? c)%N && (c <? 127)%N) with true; [apply orb_true_r |].
  symmetry. apply andb_true_intro. split; [apply N.leb_le | apply N.ltb_lt]; lia.
Qed.

Lemma apply_printable (config : Config) (e : Env) (s : Session) (c : char) :
  phase_of s = Typing ->
  printable_key c = true ->
  apply config s (KStr c, e)
  = (s1 <- printable config e s (normalize c) ;; Some (check_end config e s1)).
Proof.
  intros Hph Hkey. unfold apply. rewrite Hph. cbn [fst snd].
  apply main_loop_printable. exact Hkey.
Qed.

Lemma apply_results (config : Config) (s : Session) (ev : key * Env) :
  phase_of s = Results ->
  apply config s ev = Some (results_loop s (fst ev)).
Proof. intros Hph. unfold apply. rewrite Hph. reflexivity. Qed.

(** Evaluate the calls that involve no table lookup. *)
Ltac crunch :=
  repeat match goal with
    | |- context [printable ?a ?b ?c ?d] =>
        let t := eval vm_compute in (printable a b c d) in
        change (printable a b c d) with t
    | |- context [check_end ?a ?b ?c] =>
        let t := eval vm_compute in (check_end a b c) in
        change (check_end a b c) with t
    | |- context [results_loop ?a ?b] =>
        let t := eval vm_compute in (results_loop a b) in
        change (results_loop a b) with t
    end;
  cbn [bind].

Ltac type_key :=
  cbn [run];
  rewrite apply_printable
    by (first [reflexivity | apply printable_key_ascii; lia]);
  crunch.

(** The scenario of the specification in word mode: typing "abc" against
    the target "abX" ends the session on the third key with [typed = 3],
    [correct = 2] and [mistakes = 1]; the backspace and the "X" that follow
    are read by the results panel, which ignores them. *)
Lemma abX_run_word_mode (config : Config) (src : WordSource)
    (e1 e2 e3 e4 e5 : Env) (bs : key) :
  mode config = u "words" ->
  In bs backspace_keys ->
  exists s,
    run config (session_start src (u "abX"))
        [(KStr 97%N, e1); (KStr 98%N, e2); (KStr 99%N, e3); (bs, e4);
         (KStr 88%N, e5)] = Some s
    /\ counters (stats s) = (3, 2, 1)
    /\ phase_of s = Results.
Proof.
  intros Hmode Hbs. destruct config as [m secs w nu pu sd].
  cbn [mode] in Hmode. subst m.
  do 3 type_key.
  cbn [run]. rewrite apply_results by reflexivity. cbn [fst bind].
  assert (Hbs' : forall s, results_loop s bs = s).
  { intros s. destruct Hbs as [<- | [<- | [<- | [<- | []]]]]; reflexivity. }
  rewrite Hbs'. cbn [run].
  rewrite apply_results by reflexivity. cbn [fst bind]. crunch.
  eexists. split; [reflexivity |]. split; reflexivity.
Qed.

End SessionFacts.

(** ** The theorems on sample sessions *)

Lemma metrics_bounds_witness :
  exists s,
    run (U := ascii_table) words_config (session_start sample_source (u "abX"))
        [(KStr 97%N, at_time 0); (KStr 120%N, at_time 1)] = Some s
    /\ (0 <= Stats.accuracy (stats s) <= 1)%Q
    /\ forall t : Q, (0 <= Stats.raw_wpm t (stats s))%Q.
Proof.
  eexists. split; [vm_compute; reflexivity |].
  refine (let H := metrics_bounds (U := ascii_table) words_config sample_source
                     (u "abX")
                     [(KStr 97%N, at_time 0); (KStr 120%N, at_time 1)] _ _ in _).
  split; [exact (proj1 H) | exact (proj2 (proj2 (proj2 H)))].
  Unshelve. vm_compute. reflexivity.
Defined.

Lemma backspace_undoes_key_witness :
  exists s s1 s2,
    run (U := ascii_table) time_config (session_start sample_source (u "ab cd"))
        [(KStr 97%N, at_time 0)] = Some s
    /\ printable_key (U := ascii_table) 120%N = true
    /\ apply (U := ascii_table) time_config s (KStr 120%N, at_time 1) = Some s1
    /\ phase_of s1 = Typing
    /\ In (KInt KEY_BACKSPACE) backspace_keys
    /\ apply (U := ascii_table) time_config s1 (KInt KEY_BACKSPACE, at_time 2)
       = Some s2
    /\ counters (stats s2) = counters (stats s).
Proof.
  evar (s : Session (R := lcg)). evar (s1 : Session (R := lcg)).
  assert (Hrun : run (U := ascii_table) time_config
                   (session_start sample_source (u "ab cd"))
                   [(KStr 97%N, at_time 0)] = Some s)
    by (unfold s; vm_compute; reflexivity).
  assert (Happ : apply (U := ascii_table) time_config s
                   (KStr 120%N, at_time 1) = Some s1)
    by (unfold s, s1; vm_compute; reflexivity).
  exists s, s1.
  destruct (backspace_undoes_key (U := ascii_table) time_config sample_source
              (u "ab cd") [(KStr 97%N, at_time 0)] s s1 (at_time 1) (at_time 2)
              120%N (KInt KEY_BACKSPACE) Hrun eq_refl Happ eq_refl
              (or_intror (or_intror (or_introl eq_refl))))
    as (s2 & E2 & Hcnt).
  exists s2. repeat split; try assumption; try reflexivity.
  right. right. left. reflexivity.
Defined.

(** Counterexample to C5 as the specification words it, when the printable
    key completes the session: in word mode the last character of "ab" ends
    it, the backspace goes to the results panel, and the counters stay at
    their values after the key. *)
Lemma backspace_after_last_key :
  exists s s1 s2,
    run (U := ascii_table) words_config (session_start sample_source (u "ab"))
        [(KStr 97%N, at_time 0)] = Some s
    /\ apply (U := ascii_table) words_config s (KStr 98%N, at_time 1) = Some s1
    /\ apply (U := ascii_table) words_config s1 (KStr DEL, at_time 2) = Some s2
    /\ counters (stats s) = (1, 1, 0)
    /\ counters (stats s2) = (2, 2, 0)
    /\ counters (stats s2) <> counters (stats s).
Proof.
  eexists. eexists. eexists.
  split; [vm_compute; reflexivity |].
  split; [vm_compute; reflexivity |].
  split; [vm_compute; reflexivity |].
  split; [reflexivity |]. split; [reflexivity | discriminate].
Qed.

Lemma started_set_by_first_visible_key_witness :
  exists s s1,
    run (U := ascii_table) time_config (session_start sample_source (u "ab cd"))
        [(KStr SPACE, at_time 0)] = Some s
    /\ printable time_config (at_time 5) s (normalize 97%N)
       = Some s1
    /\ Stats.ended (stats s1) = None
    /\ Stats.started (stats s1) = Some 5%Q.
Proof.
  evar (s : Session (R := lcg)).
  assert (Hrun : run (U := ascii_table) time_config
                   (session_start sample_source (u "ab cd"))
                   [(KStr SPACE, at_time 0)] = Some s)
    by (unfold s; vm_compute; reflexivity).
  exists s.
  destruct (proj1 (started_set_by_first_visible_key (U := ascii_table) time_config)
              sample_source (u "ab cd") [(KStr SPACE, at_time 0)] s (at_time 5)
              97%N Hrun eq_refl eq_refl eq_refl eq_refl)
    as (s1 & E & _ & Hen & Hst & _).
  exists s1. repeat split; assumption.
Defined.

(** Counterexample to C6 as the specification words it: a space, typed as
    such or produced by enter, is a printable key event, and it leaves
    [started] unset. *)
Lemma space_does_not_start_clock :
  printable_key (U := ascii_table) SPACE = true
  /\ printable_key (U := ascii_table) LF = true
  /\ (exists s,
         apply (U := ascii_table) time_config
           (session_start sample_source (u " ab")) (KStr SPACE, at_time 5) = Some s
         /\ typed s = [SPACE]
         /\ phase_of s = Typing
         /\ Stats.started (stats s) = None)
  /\ (exists s,
         apply (U := ascii_table) time_config
           (session_start sample_source (u " ab")) (KStr LF, at_time 5) = Some s
         /\ typed s = [SPACE]
         /\ phase_of s = Typing
         /\ Stats.started (stats s) = None).
Proof.
  split; [reflexivity |]. split; [reflexivity |].
  split; eexists; (split; [vm_compute; reflexivity |]); repeat split.
Qed.

Lemma time_mode_extension_witness :
  exists s s2 ws,
    run (U := ascii_table) time_config (session_start sample_source (u "ab"))
        [(KStr 97%N, at_time 0)] = Some s
    /\ S (length (typed s)) = length (text s)
    /\ apply (U := ascii_table) time_config s (KStr 98%N, at_time 1) = Some s2
    /\ phase_of s2 = Typing
    /\ length ws = 50%nat
    /\ text s2 = text s ++ [SPACE] ++ str_join [SPACE] ws.
Proof.
  evar (s : Session (R := lcg)). evar (s2 : Session (R := lcg)).
  assert (Hrun : run (U := ascii_table) time_config
                   (session_start sample_source (u "ab"))
                   [(KStr 97%N, at_time 0)] = Some s)
    by (unfold s; vm_compute; reflexivity).
  assert (Happ : apply (U := ascii_table) time_config s
                   (KStr 98%N, at_time 1) = Some s2)
    by (unfold s, s2; vm_compute; reflexivity).
  exists s, s2.
  destruct (time_mode_extension (U := ascii_table) time_config sample_source
              (u "ab") [(KStr 97%N, at_time 0)] s s2 (at_time 1) 98%N
              Hrun eq_refl eq_refl eq_refl Happ eq_refl)
    as (ws & src' & _ & Hlen & _ & Htxt & _).
  exists ws. repeat split; try assumption; reflexivity.
Defined.

(** * Further properties *)

(** ** More on the wrap *)

Lemma str_split_no_space (s : str) :
  Forall (fun w => ~ In SPACE w) (str_split s).
Proof.
  induction s as [|c s IH]; cbn [str_split].
  - constructor; [intros [] | constructor].
  - destruct (N.eqb_spec c SPACE) as [_ | Hc].
    + constructor; [intros [] | exact IH].
    + destruct (str_split s) as [|w ws]; [repeat constructor; intros [E | []]; auto |].
      apply Forall_cons_iff in IH. destruct IH as [Hw Hws].
      constructor; [| exact Hws].
      intros [E | Hin]; [apply Hc; auto | contradiction].
Qed.

Lemma chunk_heads_in_word (cs : list str) (r w : str) (width : Z) :
  0 < width ->
  Forall (fun c => len c = width) cs ->
  concat cs ++ r = w ->
  ~ In SPACE w ->
  Forall starts_visible cs /\ (r = [] \/ starts_visible r).
Proof.
  intros Hw Hcs <- Hsp. split.
  - induction cs as [|c cs IH]; [constructor |].
    apply Forall_cons_iff in Hcs. destruct Hcs as [Hc Hcs].
    constructor.
    + destruct c as [|x c]; [unfold len in Hc; cbn in Hc; lia |].
      cbn. intros E. apply Hsp. subst x. cbn. left. reflexivity.
    + apply IH; [exact Hcs |].
      intros Hin. apply Hsp. cbn [concat]. rewrite <- app_assoc.
      apply in_or_app. right. exact Hin.
  - destruct r as [|x r]; [left; reflexivity | right].
    cbn. intros E. apply Hsp. apply in_or_app. right. subst x. left. reflexivity.
Qed.

Lemma wrap_step_visible (width : Z) (st : list str * str) (w : str) :
  0 < width ->
  ~ In SPACE w ->
  Forall starts_visible (fst st) /\ (snd st = [] \/ starts_visible (snd st)) ->
  Forall starts_visible (fst (wrap_step width st w))
  /\ (snd (wrap_step width st w) = [] \/ starts_visible (snd (wrap_step width st w))).
Proof.
  intros Hw Hsp [Hlines Hline]. destruct st as [lines line]. cbn [fst snd] in *.
  destruct (wrap_step_cases width lines line w Hw)
    as [[_ E] | [_ (cs & r & E & Hcs & Hcat & _ & _)]]; rewrite E; cbn [fst snd].
  - split; [exact Hlines |].
    destruct line as [|c line]; cbn [truthy].
    + destruct w as [|x w]; [left; reflexivity | right].
      cbn. intros Ex. apply Hsp. subst x. left. reflexivity.
    + right. destruct Hline as [Hnil | Hv]; [discriminate Hnil | exact Hv].
  - destruct (chunk_heads_in_word cs r w width Hw Hcs Hcat Hsp) as [Hv Hr].
    split; [| exact Hr].
    apply Forall_app. split; [| exact Hv].
    destruct line as [|c line]; cbn [truthy]; [exact Hlines |].
    apply Forall_app. split; [exact Hlines |].
    constructor; [| constructor].
    destruct Hline as [Hnil | Hvis]; [discriminate Hnil | exact Hvis].
Qed.

Lemma wrap_fold_visible (width : Z) (ws : list str) (st : list str * str) :
  0 < width ->
  Forall (fun w => ~ In SPACE w) ws ->
  Forall starts_visible (fst st) /\ (snd st = [] \/ starts_visible (snd st)) ->
  Forall starts_visible (fst (fold_left (wrap_step width) ws st))
  /\ (snd (fold_left (wrap_step width) ws st) = []
      \/ starts_visible (snd (fold_left (wrap_step width) ws st))).
Proof.
  intros Hw Hws. revert st. induction Hws as [|w ws Hsp _ IH]; intros st Hst.
  - exact Hst.
  - cbn [fold_left]. apply IH. apply wrap_step_visible; assumption.
Qed.

(** X1. For a width of at least 1, no line that [wrap_text_to_lines] returns
    is empty, and none begins with a space. *)
Theorem wrap_lines_start_visible (text : str) (width : Z) :
  1 <= width ->
  Forall (fun l => exists c rest, l = c :: rest /\ c <> SPACE)
         (wrap_text_to_lines text width).
Proof.
  intros Hw.
  assert (H : Forall starts_visible (wrap_text_to_lines text width)).
  { unfold wrap_text_to_lines.
    destruct (Z.leb_spec width 0) as [Hle | Hpos]; [lia |].
    pose proof (wrap_fold_visible width (str_split text) ([], []) Hpos
                  (str_split_no_space text)) as Hf.
    destruct (fold_left (wrap_step width) (str_split text) ([], []))
      as [lines line].
    cbn [fst snd] in Hf.
    destruct Hf as [Hlines Hline]; [split; [constructor | left; reflexivity] |].
    destruct line as [|c line]; cbn [truthy]; [exact Hlines |].
    apply Forall_app. split; [exact Hlines |].
    constructor; [| constructor].
    destruct Hline as [Hnil | Hv]; [discriminate Hnil | exact Hv]. }
  eapply Forall_impl; [| exact H].
  intros [|c l] Hv; [destruct Hv | exists c, l; split; [reflexivity | exact Hv]].
Qed.

Lemma wrap_lines_start_visible_witness :
  1 <= 3
  /\ Forall (fun l => exists c rest, l = c :: rest /\ c <> SPACE)
            (wrap_text_to_lines (u "  ab  cdefgh ") 3).
Proof.
  split; [lia |].
  apply (wrap_lines_start_visible (u "  ab  cdefgh ") 3). lia.
Defined.

Lemma str_split_head (c : char) (s : str) :
  c <> SPACE ->
  exists w ws, str_split (c :: s) = (c :: w) :: ws.
Proof.
  intros Hc. cbn [str_split].
  destruct (N.eqb_spec c SPACE) as [E | _]; [contradiction |].
  destruct (str_split s) as [|w ws]; eauto.
Qed.

Lemma wrap_fold_one_line (width : Z) (ws : list str) (line : str) :
  line <> [] ->
  len (line ++ concat (List.map (fun w => [SPACE] ++ w) ws)) <= width ->
  fold_left (wrap_step width) ws ([], line)
  = ([], line ++ concat (List.map (fun w => [SPACE] ++ w) ws)).
Proof.
  revert line. induction ws as [|w ws IH]; intros line Hne Hlen.
  - cbn. rewrite app_nil_r. reflexivity.
  - cbn [fold_left List.map concat] in *.
    assert (Hstep : wrap_step width ([], line) w = ([], line ++ [SPACE] ++ w)).
    { unfold wrap_step. destruct line as [|c line]; [contradiction |].
      cbn [truthy].
      destruct (Z.leb_spec (len ((c :: line) ++ [SPACE] ++ w)) width) as [_ | Hover];
        [reflexivity |].
      unfold len in Hlen, Hover. rewrite !length_app in Hlen, Hover.
      cbn [app length] in Hlen, Hover. lia. }
    rewrite Hstep, IH.
    + rewrite <- !app_assoc. reflexivity.
    + destruct line; [contradiction | discriminate].
    + rewrite <- !app_assoc. exact Hlen.
Qed.

(** X2. A text that is not empty, does not begin with a space and is no
    longer than the width is returned as one line, unchanged. *)
Theorem wrap_short_text (c : char) (rest : str) (width : Z) :
  c <> SPACE ->
  len (c :: rest) <= width ->
  wrap_text_to_lines (c :: rest) width = [c :: rest].
Proof.
  intros Hc Hlen. unfold wrap_text_to_lines.
  assert (Hpos : 0 < width) by (unfold len in Hlen; cbn [length] in Hlen; lia).
  destruct (Z.leb_spec width 0) as [Hle | _]; [lia |].
  pose proof (str_join_split (c :: rest)) as Hjoin.
  destruct (str_split_head c rest Hc) as (w & ws & E). rewrite E in *.
  rewrite str_join_cons in Hjoin.
  cbn [fold_left].
  assert (Hfirst : wrap_step width ([], []) (c :: w) = ([], c :: w)).
  { unfold wrap_step. cbn [truthy].
    destruct (Z.leb_spec (len (c :: w)) width) as [_ | Hover]; [reflexivity |].
    rewrite <- Hjoin in Hlen. unfold len in Hlen, Hover.
    rewrite !length_app in Hlen. cbn [app length] in Hlen, Hover. lia. }
  rewrite Hfirst, wrap_fold_one_line.
  - rewrite Hjoin. reflexivity.
  - discriminate.
  - rewrite Hjoin. exact Hlen.
Qed.

Lemma wrap_short_text_witness :
  97%N <> SPACE
  /\ len (u "ab  cd ") <= 7
  /\ wrap_text_to_lines (u "ab  cd ") 7 = [u "ab  cd "].
Proof.
  assert (H1 : 97%N <> SPACE) by discriminate.
  assert (H2 : len (u "ab  cd ") <= 7) by (vm_compute; discriminate).
  split; [exact H1 |]. split; [exact H2 |].
  exact (wrap_short_text 97%N (u "b  cd ") 7 H1 H2).
Defined.

(** ** More on the coordinate table *)

Lemma wrap_all_fit (text : str) (width : Z) :
  0 < width ->
  Forall (fun l => len l <= width) (wrap_text_to_lines text width).
Proof.
  intros Hw. unfold wrap_text_to_lines.
  destruct (Z.leb_spec width 0) as [Hle | _]; [lia |].
  assert (Hfit : fits width (fold_left (wrap_step width) (str_split text) ([], []))).
  { apply wrap_fold_fits; [lia |]. split; cbn; [constructor | lia]. }
  destruct (fold_left (wrap_step width) (str_split text) ([], [])) as [lines line].
  destruct Hfit as [Hlines Hline]. cbn [fst snd] in *.
  destruct (truthy line); [| exact Hlines].
  apply Forall_app. split; [exact Hlines | constructor; [exact Hline | constructor]].
Qed.

Lemma table_cell_bounds (text : str) (W : Z) (i li ci : nat) :
  1 <= W ->
  nth_error (coordinate_table text W) i = Some (li, ci) ->
  (li < length (wrap_text_to_lines text W))%nat /\ Z.of_nat ci < W.
Proof.
  intros HW Hcell. unfold coordinate_table in Hcell.
  apply flat_to_line_ok in Hcell.
  destruct Hcell as (line & Hline & Hc). cbn [fst snd] in *.
  split; [apply nth_error_Some; congruence |].
  pose proof (wrap_all_fit text W ltac:(lia)) as Hfit.
  rewrite Forall_forall in Hfit.
  specialize (Hfit line (nth_error_In _ _ Hline)). unfold len in *.
  destruct Hc as [Hlt | (-> & Hroom & _)]; lia.
Qed.

(** X3. Every entry of the coordinate table of a text wrapped at a width of
    at least 1 names an existing line and a column inside the width, so a
    character painted from the table stays inside the text area. *)
Theorem table_cells_inside (text : str) (W : Z) (i li ci : nat) :
  1 <= W ->
  nth_error (coordinate_table text W) i = Some (li, ci) ->
  (li < length (wrap_text_to_lines text W))%nat /\ Z.of_nat ci < W.
Proof.
  intros HW Hcell. apply (table_cell_bounds text W i); assumption.
Qed.

Lemma table_cells_inside_witness :
  1 <= 4
  /\ nth_error (coordinate_table (u "ab cd") 4) 2 = Some (0, 2)%nat
  /\ (0 < length (wrap_text_to_lines (u "ab cd") 4))%nat /\ Z.of_nat 2 < 4.
Proof.
  assert (H1 : 1 <= 4) by lia.
  assert (H2 : nth_error (coordinate_table (u "ab cd") 4) 2 = Some (0, 2)%nat)
    by reflexivity.
  split; [exact H1 |]. split; [exact H2 |].
  exact (table_cells_inside (u "ab cd") 4 2%nat 0%nat 2%nat H1 H2).
Defined.

Lemma StronglySorted_app {A} (R : A -> A -> Prop) (l1 l2 : list A) :
  StronglySorted R l1 ->
  StronglySorted R l2 ->
  (forall x y, In x l1 -> In y l2 -> R x y) ->
  StronglySorted R (l1 ++ l2).
Proof.
  intros H1 H2 H12. induction H1 as [|a l1 Hs IH Ha]; [exact H2 |].
  cbn [app]. constructor.
  - apply IH. intros x y Hx Hy. apply H12; [right; exact Hx | exact Hy].
  - apply Forall_app. split; [exact Ha |].
    apply Forall_forall. intros y Hy. apply H12; [left; reflexivity | exact Hy].
Qed.

Lemma StronglySorted_nth {A} (R : A -> A -> Prop) (l : list A) (i j : nat) (a b : A) :
  StronglySorted R l ->
  (i < j)%nat ->
  nth_error l i = Some a -> nth_error l j = Some b -> R a b.
Proof.
  intros Hs. revert i j. induction Hs as [|x l Hs IH Hx]; intros i j Hij Hi Hj.
  - destruct i; discriminate Hi.
  - destruct j as [|j]; [lia |]. cbn [nth_error] in Hj.
    destruct i as [|i].
    + cbn in Hi. injection Hi as <-.
      rewrite Forall_forall in Hx. apply Hx. eapply nth_error_In. exact Hj.
    + cbn [nth_error] in Hi. apply (IH i j); [lia | assumption | assumption].
Qed.

Lemma line_cells_from_sorted (li a : nat) (line : str) :
  StronglySorted cell_lt
    (List.map (fun p : nat * char => (li, fst p)) (combine (seq a (length line)) line)).
Proof.
  revert a. induction line as [|c line IH]; intros a; [constructor |].
  cbn [length seq combine List.map fst]. constructor; [apply IH |].
  apply Forall_forall. intros [l k] Hin. apply in_map_iff in Hin.
  destruct Hin as ([k' ch] & E & Hin). injection E as <- <-.
  destruct (enumerate_from_In line (S a) k' ch Hin) as [Hle _].
  right. cbn [fst snd]. split; [reflexivity | lia].
Qed.

Lemma table_step_sorted (text : str) (W : Z) (st : list cell * nat) (li : nat)
    (line : str) :
  StronglySorted cell_lt (fst st) ->
  (forall c, In c (fst st) -> (fst c < li)%nat) ->
  StronglySorted cell_lt (fst (table_step text W st (li, line)))
  /\ (forall c, In c (fst (table_step text W st (li, line))) -> (fst c < S li)%nat).
Proof.
  destruct st as [tbl idx]. cbn [fst]. intros Hs Hb.
  assert (Hbase : StronglySorted cell_lt (tbl ++ line_cells li line)
                  /\ forall c, In c (tbl ++ line_cells li line) -> (fst c < S li)%nat).
  { split.
    - apply StronglySorted_app; [exact Hs | apply line_cells_from_sorted |].
      intros x y Hx Hy. apply line_cells_In in Hy. destruct Hy as [Hy _].
      left. rewrite Hy. apply Hb. exact Hx.
    - intros c Hc. apply in_app_or in Hc. destruct Hc as [Hc | Hc].
      + specialize (Hb c Hc). lia.
      + apply line_cells_In in Hc. destruct Hc as [Hc _]. lia. }
  destruct Hbase as [Hs1 Hb1]. unfold table_step.
  destruct ((idx + length line <? length text)%nat
            && match nth_error text (idx + length line) with
               | Some c => (c =? SPACE)%N
               | None => false
               end); [| split; assumption].
  destruct (len line <? W); [| split; assumption].
  cbn [fst]. split.
  - apply StronglySorted_app; [exact Hs1 | repeat constructor |].
    intros x y Hx [<- | []]. apply in_app_or in Hx. destruct Hx as [Hx | Hx].
    + left. cbn [fst]. apply Hb. exact Hx.
    + apply line_cells_In in Hx. destruct Hx as [Hf Hsn].
      right. cbn [fst snd]. split; assumption.
  - intros c Hc. apply in_app_or in Hc. destruct Hc as [Hc | [<- | []]].
    + apply Hb1. exact Hc.
    + cbn. lia.
Qed.

Lemma table_fold_sorted (text : str) (W : Z) (lines : list str) (a : nat)
    (st : list cell * nat) :
  StronglySorted cell_lt (fst st) ->
  (forall c, In c (fst st) -> (fst c < a)%nat) ->
  StronglySorted cell_lt
    (fst (fold_left (table_step text W) (combine (seq a (length lines)) lines) st)).
Proof.
  revert a st. induction lines as [|line lines IH]; intros a st Hs Hb.
  - exact Hs.
  - cbn [length seq combine fold_left].
    destruct (table_step_sorted text W st a line Hs Hb) as [Hs' Hb'].
    apply (IH (S a)); assumption.
Qed.

(** X4. The coordinate table follows reading order: of two flat indices, the
    later one has its cell on a later line, or further right on the same
    line.  So no two indices share a screen cell. *)
Theorem table_reading_order (text : str) (W : Z) (lines : list str)
    (i j : nat) (a b : cell) :
  (i < j)%nat ->
  nth_error (flat_to_line text W lines) i = Some a ->
  nth_error (flat_to_line text W lines) j = Some b ->
  cell_lt a b /\ a <> b.
Proof.
  intros Hij Hi Hj.
  assert (Hlt : cell_lt a b).
  { apply (StronglySorted_nth cell_lt (flat_to_line text W lines) i j); auto.
    unfold flat_to_line, enumerate. apply table_fold_sorted.
    - constructor.
    - intros c []. }
  split; [exact Hlt |].
  intros ->. destruct Hlt as [H | [_ H]]; lia.
Qed.

Lemma table_reading_order_witness :
  (1 < 3)%nat
  /\ cell_lt (0, 1)%nat (1, 0)%nat.
Proof.
  assert (H : (1 < 3)%nat) by lia.
  split; [exact H |].
  exact (proj1 (table_reading_order (u "ab cd") 4 [u "ab"; u "cd"] 1%nat 3%nat
                  (0, 1)%nat (1, 0)%nat H eq_refl eq_refl)).
Defined.

(** ** The text area of render_screen *)

Lemma usable_lines_ge_3 (height : Z) : 3 <= usable_lines height.
Proof. unfold usable_lines. cbv zeta. lia. Qed.

Lemma caret_line_nonneg (lines : list str) (tbl : list cell) (pos : nat) :
  0 <= caret_line lines tbl pos.
Proof.
  unfold caret_line. destruct (nth_error tbl pos); [lia |].
  destruct lines as [|l lines]; cbn [truthy]; [lia |].
  unfold len. cbn [length]. lia.
Qed.

Lemma scroll_bounds (caret usable : Z) :
  0 <= caret -> 3 <= usable ->
  0 <= scroll_of caret usable
  /\ caret - scroll_of caret usable = Z.min caret (usable / 2)
  /\ 0 <= caret - scroll_of caret usable < usable.
Proof.
  intros Hc Hu. unfold scroll_of.
  assert (0 <= usable / 2 < usable) by (split; [apply Z.div_pos | apply Z.div_lt]; lia).
  lia.
Qed.

Lemma mapM_ok {A B} (f : A -> option B) (P : B -> Prop) (l : list A) :
  (forall a, In a l -> exists b, f a = Some b /\ P b) ->
  exists bs, mapM f l = Some bs /\ Forall P bs.
Proof.
  induction l as [|a l IH]; intros H.
  - exists []. split; [reflexivity | constructor].
  - destruct (H a (or_introl eq_refl)) as (b & Eb & Hb).
    destruct IH as (bs & Ebs & Hbs); [intros x Hx; apply H; right; exact Hx |].
    exists (b :: bs). cbn [mapM]. rewrite Eb, Ebs. split; [reflexivity |].
    constructor; assumption.
Qed.

Lemma index_z_nonneg {A} (l : list A) (z : Z) :
  0 <= z < len l -> exists x, index_z l z = Some x.
Proof.
  intros Hz. unfold index_z, index.
  destruct (Z.ltb_spec z 0) as [Hneg | _]; [lia |].
  destruct (nth_error l (Z.to_nat z)) as [x|] eqn:E; [eauto |].
  apply nth_error_None in E. unfold len in Hz. lia.
Qed.

Lemma base_draw_ok (lines : list str) (W usable scroll : Z) :
  0 <= scroll -> 1 <= W ->
  exists ps, base_draw lines W usable scroll = Some ps
             /\ Forall (in_text_area W usable) ps.
Proof.
  intros Hs HW. unfold base_draw. apply mapM_ok. intros i Hi.
  apply in_seq in Hi.
  assert (Hy : 2 <= 2 + Z.of_nat i < 2 + usable) by lia.
  cbv zeta. destruct (Z.ltb_spec (Z.of_nat i + scroll) (len lines)) as [Hin | _].
  - destruct (index_z_nonneg lines (Z.of_nat i + scroll)) as [line E]; [lia |].
    rewrite E. cbn [bind]. eexists. split; [reflexivity |].
    unfold in_text_area. cbn [p_y p_x p_n]. lia.
  - eexists. split; [reflexivity |]. unfold in_text_area. cbn [p_y p_x p_n]. lia.
Qed.

Lemma overlay_ok (lines : list str) (tbl : list cell) (typed : list char)
    (W usable scroll : Z) (ps : list (nat * char)) :
  1 <= W ->
  (forall i c, nth_error tbl i = Some c -> Z.of_nat (snd c) < W) ->
  (forall p, In p ps -> (fst p < length typed)%nat) ->
  exists ov, overlay lines tbl typed usable scroll ps = Some ov
             /\ Forall (in_text_area W usable) ov.
Proof.
  intros HW Htbl. induction ps as [|[i ch] ps IH]; intros Hps.
  - exists []. split; [reflexivity | constructor].
  - destruct IH as (rest & Er & Hr); [intros p Hp; apply Hps; right; exact Hp |].
    cbn [overlay]. rewrite Er. cbn [bind].
    assert (Hcol : 0 <= snd (cell_or_last lines tbl i) < W).
    { unfold cell_or_last. destruct (nth_error tbl i) as [c|] eqn:Ec; cbn [snd].
      - specialize (Htbl i c Ec). lia.
      - lia. }
    destruct (cell_or_last lines tbl i) as [tl tc]. cbn [snd] in Hcol.
    destruct ((2 <=? 2 + (tl - scroll)) && (2 + (tl - scroll) <? 2 + usable)) eqn:Hvis.
    + apply andb_prop in Hvis. destruct Hvis as [H2 Hu].
      apply Z.leb_le in H2. apply Z.ltb_lt in Hu.
      specialize (Hps (i, ch) (or_introl eq_refl)). cbn [fst] in Hps.
      unfold index. destruct (nth_error typed i) as [t|] eqn:Et;
        [| apply nth_error_None in Et; lia].
      cbn [bind app]. eexists. split; [reflexivity |].
      constructor; [| exact Hr]. unfold in_text_area. cbn [p_y p_x p_n]. lia.
    + cbn [bind app]. exists rest. split; [reflexivity | exact Hr].
Qed.

Lemma caret_draw_ok (text : str) (tbl : list cell) (pos : nat) (W usable scroll : Z) :
  1 <= W ->
  (forall i c, nth_error tbl i = Some c -> Z.of_nat (snd c) < W) ->
  exists ca, caret_draw text tbl pos usable scroll = Some ca
             /\ Forall (in_text_area W usable) ca.
Proof.
  intros HW Htbl. unfold caret_draw.
  destruct ((pos <? length text)%nat && (pos <? length tbl)%nat) eqn:Hg;
    [| exists []; split; [reflexivity | constructor]].
  apply andb_prop in Hg. destruct Hg as [Ht Hl].
  apply Nat.ltb_lt in Ht. apply Nat.ltb_lt in Hl.
  unfold index. destruct (nth_error tbl pos) as [c|] eqn:Ec;
    [| apply nth_error_None in Ec; lia].
  cbn [bind]. specialize (Htbl pos c Ec).
  destruct ((2 <=? 2 + (Z.of_nat (fst c) - scroll))
            && (2 + (Z.of_nat (fst c) - scroll) <? 2 + usable)) eqn:Hvis;
    [| exists []; split; [reflexivity | constructor]].
  apply andb_prop in Hvis. destruct Hvis as [H2 Hu].
  apply Z.leb_le in H2. apply Z.ltb_lt in Hu.
  destruct (nth_error text pos) as [ch|] eqn:Ech;
    [| apply nth_error_None in Ech; lia].
  cbn [bind]. eexists. split; [reflexivity |].
  constructor; [| constructor]. unfold in_text_area. cbn [p_y p_x p_n]. lia.
Qed.

Lemma screen_table_cols (text : str) (width : Z) (i : nat) (c : cell) :
  nth_error (flat_to_line text (Z.max 1 (width - 2))
               (wrap_text_to_lines text (Z.max 1 (width - 2)))) i = Some c ->
  Z.of_nat (snd c) < Z.max 1 (width - 2).
Proof.
  intros H. destruct c as [li ci].
  apply (table_cell_bounds text (Z.max 1 (width - 2)) i li ci); [lia | exact H].
Qed.

Lemma enumerate_firstn_index (text : str) (typed : list char) (p : nat * char) :
  In p (enumerate (firstn (length typed) text)) -> (fst p < length typed)%nat.
Proof.
  destruct p as [i ch]. intros Hin. apply enumerate_In in Hin. cbn [fst].
  assert (H : (i < length (firstn (length typed) text))%nat)
    by (apply nth_error_Some; congruence).
  rewrite length_firstn in H. lia.
Qed.

(** X5. Whatever the window size, the text and the typed log, drawing the
    text area raises no exception, and every paint it issues lies inside the
    text area: on one of the [usable_lines] rows from row 2 on, and within
    the [max(1, width - 2)] columns from column 1 on. *)
Theorem render_stays_in_text_area (height width : Z) (text : str)
    (typed : list char) :
  exists plan,
    render_text_area height width text typed = Some plan
    /\ Forall (in_text_area (Z.max 1 (width - 2)) (usable_lines height)) plan.
Proof.
  unfold render_text_area. cbv zeta.
  set (W := Z.max 1 (width - 2)).
  set (lines := wrap_text_to_lines text W).
  set (tbl := flat_to_line text W lines).
  set (usable := usable_lines height).
  set (scroll := scroll_of (caret_line lines tbl (length typed)) usable).
  assert (HW : 1 <= W) by (unfold W; lia).
  assert (Hs : 0 <= scroll).
  { apply scroll_bounds; [apply caret_line_nonneg | apply usable_lines_ge_3]. }
  assert (Hcols : forall i c, nth_error tbl i = Some c -> Z.of_nat (snd c) < W).
  { intros i c. apply screen_table_cols. }
  destruct (base_draw_ok lines W usable scroll Hs HW) as (base & Eb & Hb).
  destruct (overlay_ok lines tbl typed W usable scroll
              (enumerate (firstn (length typed) text)) HW Hcols
              (enumerate_firstn_index text typed)) as (ov & Eo & Ho).
  destruct (caret_draw_ok text tbl (length typed) W usable scroll HW Hcols)
    as (ca & Ec & Hc).
  rewrite Eb, Eo, Ec. cbn [bind]. eexists. split; [reflexivity |].
  apply Forall_app. split; [exact Hb |]. apply Forall_app. split; assumption.
Qed.

(** X6. When the cursor is inside the text and has a cell in the coordinate
    table, the caret is painted: its row test never hides it.  It sits
    [min(line, usable_lines // 2)] rows below row 2, at the cell's column,
    and shows the target character, or an underscore for a space. *)
Theorem caret_always_painted (height width : Z) (text : str)
    (typed : list char) (li ci : nat) (ch : char) :
  nth_error text (length typed) = Some ch ->
  nth_error (coordinate_table text (Z.max 1 (width - 2))) (length typed)
  = Some (li, ci) ->
  exists plan,
    render_text_area height width text typed = Some plan
    /\ In (mkPaint (2 + Z.min (Z.of_nat li) (usable_lines height / 2))
                   (1 + Z.of_nat ci)
                   [if (ch =? SPACE)%N then 95%N else ch] 1 caret_color)
          plan.
Proof.
  intros Hch Hcell.
  destruct (render_text_area height width text typed) as [plan|] eqn:E.
  2: { exfalso. revert E. unfold render_text_area. cbv zeta.
       set (W := Z.max 1 (width - 2)).
       set (lines := wrap_text_to_lines text W).
       set (tbl := flat_to_line text W lines).
       set (usable := usable_lines height).
       set (scroll := scroll_of (caret_line lines tbl (length typed)) usable).
       assert (HW : 1 <= W) by (unfold W; lia).
       assert (Hs : 0 <= scroll)
         by (apply scroll_bounds; [apply caret_line_nonneg | apply usable_lines_ge_3]).
       assert (Hcols : forall i c, nth_error tbl i = Some c -> Z.of_nat (snd c) < W)
         by (intros i c; apply screen_table_cols).
       destruct (base_draw_ok lines W usable scroll Hs HW) as (base & Eb & _).
       destruct (overlay_ok lines tbl typed W usable scroll
                   (enumerate (firstn (length typed) text)) HW Hcols
                   (enumerate_firstn_index text typed)) as (ov & Eo & _).
       destruct (caret_draw_ok text tbl (length typed) W usable scroll HW Hcols)
         as (ca & Ec & _).
       rewrite Eb, Eo, Ec. discriminate. }
  exists plan. split; [reflexivity |].
  revert E. unfold render_text_area, coordinate_table in *. cbv zeta.
  set (W := Z.max 1 (width - 2)) in *.
  set (lines := wrap_text_to_lines text W) in *.
  set (tbl := flat_to_line text W lines) in *.
  set (usable := usable_lines height).
  assert (Hcaret : caret_line lines tbl (length typed) = Z.of_nat li)
    by (unfold caret_line; rewrite Hcell; reflexivity).
  rewrite Hcaret.
  destruct (scroll_bounds (Z.of_nat li) usable ltac:(lia) (usable_lines_ge_3 height))
    as (Hs & Hmin & Hrow).
  set (scroll := scroll_of (Z.of_nat li) usable) in *.
  destruct (base_draw lines W usable scroll) as [base|]; [| discriminate].
  cbn [bind].
  destruct (overlay lines tbl typed usable scroll
              (enumerate (firstn (length typed) text))) as [ov|]; [| discriminate].
  cbn [bind]. unfold caret_draw.
  assert (Hpt : (length typed <? length text)%nat = true)
    by (apply Nat.ltb_lt, nth_error_Some; congruence).
  assert (Hpl : (length typed <? length tbl)%nat = true)
    by (apply Nat.ltb_lt, nth_error_Some; congruence).
  rewrite Hpt, Hpl. cbn [andb]. unfold index. rewrite Hcell. cbn [bind fst snd].
  assert (Hvis : (2 <=? 2 + (Z.of_nat li - scroll))
                 && (2 + (Z.of_nat li - scroll) <? 2 + usable) = true).
  { apply andb_true_intro. split; [apply Z.leb_le | apply Z.ltb_lt]; lia. }
  rewrite Hvis, Hch. cbn [bind]. intros E. injection E as <-.
  apply in_or_app. right. apply in_or_app. right. left.
  rewrite Hmin. reflexivity.
Qed.

Lemma caret_always_painted_witness :
  nth_error (u "ab cd") (length (u "ab")) = Some SPACE
  /\ exists plan,
       render_text_area 24 6 (u "ab cd") (u "ab") = Some plan
       /\ In (mkPaint 2 3 [95%N] 1 caret_color) plan.
Proof.
  assert (H1 : nth_error (u "ab cd") (length (u "ab")) = Some SPACE) by reflexivity.
  split; [exact H1 |].
  exact (caret_always_painted 24 6 (u "ab cd") (u "ab") 0%nat 2%nat SPACE
           H1 eq_refl).
Defined.

(** ** More on WordSource and build_text *)

Lemma str_eqb_eq (a b : str) : str_eqb a b = true <-> a = b.
Proof.
  unfold str_eqb. destruct (list_eq_dec N.eq_dec a b); split; auto; discriminate.
Qed.

Lemma str_in_In (w : str) (l : list str) : str_in w l = true <-> In w l.
Proof.
  unfold str_in. rewrite existsb_exists. split.
  - intros (x & Hx & E). apply str_eqb_eq in E. subst x. exact Hx.
  - intros H. exists w. split; [exact H | apply str_eqb_eq; reflexivity].
Qed.

Lemma clean_word_spec (w : str) :
  clean_word w = true -> w <> [] /\ ~ In SPACE w.
Proof.
  unfold clean_word. intros H. apply andb_prop in H. destruct H as [Ht Hs].
  split; [apply truthy_true; exact Ht |].
  intros Hin. apply negb_true_iff in Hs.
  assert (existsb (N.eqb SPACE) w = true)
    by (apply existsb_exists; exists SPACE; split; [exact Hin | apply N.eqb_refl]).
  congruence.
Qed.

Lemma vocabulary_clean :
  forallb clean_word (DEFAULT_WORDS ++ NUMBERS ++ PUNCT) = true.
Proof. vm_compute. reflexivity. Qed.

Lemma vocabulary_disjoint :
  forallb (fun w => negb (str_in w NUMBERS) && negb (str_in w PUNCT)) DEFAULT_WORDS
  = true
  /\ forallb (fun w => negb (str_in w PUNCT)) NUMBERS = true.
Proof. split; vm_compute; reflexivity. Qed.

Section MoreWordSource.

Context {R : PRNG}.

Lemma WordSource_words_sub (e : rng_state) (config : Config) (w : str) :
  In w (ws_words (WordSource_init e config)) ->
  In w (DEFAULT_WORDS ++ NUMBERS ++ PUNCT)
  /\ (In w NUMBERS -> numbers config = true)
  /\ (In w PUNCT -> punctuation config = true).
Proof.
  destruct vocabulary_disjoint as [Hd Hn].
  rewrite forallb_forall in Hd, Hn.
  assert (HdN : In w DEFAULT_WORDS -> ~ In w NUMBERS /\ ~ In w PUNCT).
  { intros Hw. specialize (Hd w Hw). apply andb_prop in Hd. destruct Hd as [H1 H2].
    apply negb_true_iff in H1, H2.
    split; intros Hin; apply str_in_In in Hin; congruence. }
  assert (HnP : In w NUMBERS -> ~ In w PUNCT).
  { intros Hw Hin. specialize (Hn w Hw). apply negb_true_iff in Hn.
    apply str_in_In in Hin. congruence. }
  assert (Hcases : In w (ws_words (WordSource_init e config)) ->
            In w DEFAULT_WORDS
            \/ (In w NUMBERS /\ numbers config = true)
            \/ (In w PUNCT /\ punctuation config = true)).
  { unfold WordSource_init. cbn [ws_words].
    destruct (numbers config), (punctuation config); intros Hin.
    - destruct (in_app_or (DEFAULT_WORDS ++ NUMBERS) PUNCT w Hin) as [H | H];
        [| right; right; auto].
      destruct (in_app_or DEFAULT_WORDS NUMBERS w H) as [H' | H'];
        [left; exact H' | right; left; auto].
    - destruct (in_app_or DEFAULT_WORDS NUMBERS w Hin) as [H' | H'];
        [left; exact H' | right; left; auto].
    - destruct (in_app_or DEFAULT_WORDS PUNCT w Hin) as [H' | H'];
        [left; exact H' | right; right; auto].
    - left. exact Hin. }
  intros Hin. destruct (Hcases Hin) as [Hw | [[Hw Hf] | [Hw Hf]]].
  - split; [exact (in_or_app DEFAULT_WORDS (NUMBERS ++ PUNCT) w (or_introl Hw)) |].
    destruct (HdN Hw) as [H1 H2].
    split; intros Hx; exfalso; [exact (H1 Hx) | exact (H2 Hx)].
  - split.
    + apply (in_or_app DEFAULT_WORDS (NUMBERS ++ PUNCT) w). right.
      exact (in_or_app NUMBERS PUNCT w (or_introl Hw)).
    + split; [intros _; exact Hf |]. intros Hx. exfalso. exact (HnP Hw Hx).
  - split.
    + apply (in_or_app DEFAULT_WORDS (NUMBERS ++ PUNCT) w). right.
      exact (in_or_app NUMBERS PUNCT w (or_intror Hw)).
    + split; [| intros _; exact Hf]. intros Hx. exfalso. exact (HnP Hx Hw).
Qed.

Lemma choice_In {A} (g : rng_state) (l : list A) (x : A) (g' : rng_state) :
  choice g l = Some (x, g') -> In x l.
Proof.
  unfold choice. destruct l as [|a l]; [discriminate |].
  destruct (randbelow g (length (a :: l))) as [k g1]. unfold index.
  destruct (nth_error (a :: l) k) as [y|] eqn:E; [| discriminate].
  cbn [bind]. intros H. injection H as <- _. eapply nth_error_In. exact E.
Qed.

Lemma draw_In (ws : list str) (g : rng_state) (n : nat) (r : list str * rng_state) :
  draw ws g n = Some r -> length (fst r) = n /\ Forall (fun w => In w ws) (fst r).
Proof.
  revert g r. induction n as [|n IH]; intros g r H.
  - cbn in H. injection H as <-. split; [reflexivity | constructor].
  - cbn [draw] in H. destruct (choice g ws) as [[x g1]|] eqn:Ec; [| discriminate H].
    cbn [bind fst snd] in H.
    destruct (draw ws g1 n) as [[rest g2]|] eqn:Ed; [| discriminate H].
    cbn [bind fst snd] in H. injection H as <-. cbn [fst].
    destruct (IH g1 _ Ed) as [Hl Hf]. cbn [fst] in *.
    split; [cbn; congruence |].
    constructor; [eapply choice_In; exact Ec | exact Hf].
Qed.

(** X7. [generate(count)] on a freshly built source never fails and returns
    exactly [max(0, count)] words, every one of them an entry of the
    source's word list; the word list itself is left as it was. *)
Theorem generate_draws_from_vocabulary (e : rng_state) (config : Config)
    (count : Z) :
  exists ws src',
    generate (WordSource_init e config) count = Some (ws, src')
    /\ Z.of_nat (length ws) = Z.max 0 count
    /\ Forall (fun w => In w (ws_words (WordSource_init e config))) ws
    /\ ws_words src' = ws_words (WordSource_init e config).
Proof.
  destruct (generate_succeeds e config count) as (ws & src' & E & _).
  exists ws, src'. split; [exact E |].
  unfold generate in E.
  destruct (draw (ws_words (WordSource_init e config))
              (ws_rng (WordSource_init e config)) (Z.to_nat count))
    as [[ws0 g]|] eqn:Ed; [| discriminate E].
  cbn [bind fst snd] in E. injection E as <- <-.
  destruct (draw_In _ _ _ _ Ed) as [Hl Hf]. cbn [fst] in *.
  split; [lia |]. split; [exact Hf | reflexivity].
Qed.

(** X8. A generated word is a digit token only when the configuration asks
    for numbers, and a punctuation token only when it asks for punctuation;
    every generated word is non-empty and holds no space. *)
Theorem generated_words_respect_flags (e : rng_state) (config : Config)
    (count : Z) (ws : list str) (src' : WordSource) (w : str) :
  generate (WordSource_init e config) count = Some (ws, src') ->
  In w ws ->
  (In w NUMBERS -> numbers config = true)
  /\ (In w PUNCT -> punctuation config = true)
  /\ w <> [] /\ ~ In SPACE w.
Proof.
  intros E Hw. unfold generate in E.
  destruct (draw (ws_words (WordSource_init e config))
              (ws_rng (WordSource_init e config)) (Z.to_nat count))
    as [[ws0 g]|] eqn:Ed; [| discriminate E].
  cbn [bind fst snd] in E. injection E as <- _.
  destruct (draw_In _ _ _ _ Ed) as [_ Hf]. cbn [fst] in Hf.
  rewrite Forall_forall in Hf. specialize (Hf w Hw).
  destruct (WordSource_words_sub e config w Hf) as (Hall & Hn & Hp).
  split; [exact Hn |]. split; [exact Hp |].
  apply clean_word_spec.
  pose proof vocabulary_clean as Hc. rewrite forallb_forall in Hc.
  apply Hc. exact Hall.
Qed.

End MoreWordSource.

Lemma generated_words_respect_flags_witness :
  exists ws src' w,
    generate (R := lcg) (WordSource_init (R := lcg) 7%N words_config) 3
    = Some (ws, src')
    /\ In w ws
    /\ (In w NUMBERS -> numbers words_config = true)
    /\ w <> [].
Proof.
  evar (ws : list str). evar (src' : WordSource (R := lcg)).
  assert (E : generate (R := lcg) (WordSource_init (R := lcg) 7%N words_config) 3
              = Some (ws, src'))
    by (unfold ws, src'; vm_compute; reflexivity).
  evar (w : str).
  assert (Hw : In w ws) by (unfold w, ws; left; reflexivity).
  exists ws, src', w.
  destruct (generated_words_respect_flags (R := lcg) 7%N words_config 3 ws src' w
              E Hw) as (Hn & _ & Hne & _).
  repeat split; assumption.
Defined.

Lemma str_split_word (w : str) : ~ In SPACE w -> str_split w = [w].
Proof.
  induction w as [|c w IH]; intros H; [reflexivity |].
  cbn [str_split]. destruct (N.eqb_spec c SPACE) as [E | _].
  - exfalso. apply H. left. auto.
  - rewrite IH; [reflexivity |]. intros Hin. apply H. right. exact Hin.
Qed.

Lemma str_split_word_space (w s : str) :
  ~ In SPACE w -> str_split (w ++ SPACE :: s) = w :: str_split s.
Proof.
  induction w as [|c w IH]; intros H.
  - cbn [app str_split]. rewrite N.eqb_refl. reflexivity.
  - cbn [app str_split]. destruct (N.eqb_spec c SPACE) as [E | _].
    + exfalso. apply H. left. auto.
    + rewrite IH; [reflexivity |]. intros Hin. apply H. right. exact Hin.
Qed.

(** Splitting a joined list of space-free words gives the words back. *)
Lemma str_split_join (ws : list str) :
  ws <> [] ->
  Forall (fun w => ~ In SPACE w) ws ->
  str_split (str_join [SPACE] ws) = ws.
Proof.
  induction ws as [|w ws IH]; intros Hne Hws; [contradiction |].
  apply Forall_cons_iff in Hws. destruct Hws as [Hw Hws].
  destruct ws as [|w' ws].
  - cbn [str_join]. apply str_split_word. exact Hw.
  - change (str_join [SPACE] (w :: w' :: ws))
      with (w ++ SPACE :: str_join [SPACE] (w' :: ws)).
    rewrite str_split_word_space by exact Hw.
    rewrite IH; [reflexivity | discriminate | exact Hws].
Qed.

Section MoreBuildText.

Context {R : PRNG}.

Lemma build_text_shape (est_words : Z) (e : rng_state) (config : Config) :
  1 <= est_words ->
  exists txt src' ws,
    generate (WordSource_init e config) (build_count est_words config)
    = Some (ws, src')
    /\ build_text est_words (WordSource_init e config) config = Some (txt, src')
    /\ txt = str_join [SPACE] ws
    /\ str_split txt = ws
    /\ Z.of_nat (length ws) = build_count est_words config
    /\ Forall (fun w => w <> [] /\ In w (ws_words (WordSource_init e config))) ws
    /\ txt <> []
    /\ Forall (fun w => w <> []) (str_split txt).
Proof.
  intros Hest. unfold build_text. fold (build_count est_words config).
  assert (Hcount : 1 <= build_count est_words config).
  { unfold build_count. destruct (str_eqb (mode config) (u "words")); lia. }
  destruct (generate_succeeds e config (build_count est_words config))
    as (ws & src' & E & Hlen).
  rewrite E. cbn [bind fst snd].
  unfold generate in E.
  destruct (draw (ws_words (WordSource_init e config))
              (ws_rng (WordSource_init e config))
              (Z.to_nat (build_count est_words config)))
    as [[ws0 g]|] eqn:Ed; [| discriminate E].
  cbn [bind fst snd] in E. injection E as <- <-.
  destruct (draw_In _ _ _ _ Ed) as [_ Hin]. cbn [fst] in Hin.
  assert (Hclean : Forall (fun w => w <> [] /\ ~ In SPACE w) ws0).
  { rewrite Forall_forall in *. intros w Hw.
    apply clean_word_spec.
    pose proof vocabulary_clean as Hc. rewrite forallb_forall in Hc.
    apply Hc. apply (WordSource_words_sub e config w). apply Hin. exact Hw. }
  assert (Hne : ws0 <> []) by (destruct ws0; [cbn in Hlen; lia | discriminate]).
  assert (Hsplit : str_split (str_join [SPACE] ws0) = ws0).
  { apply str_split_join; [exact Hne |].
    eapply Forall_impl; [| exact Hclean]. intros w [_ H]. exact H. }
  eexists. eexists. exists ws0. split; [reflexivity |].
  split; [reflexivity |]. split; [reflexivity |].
  split; [exact Hsplit |]. split; [lia |].
  split.
  { rewrite Forall_forall in *. intros w Hw. split; [apply Hclean | apply Hin]; exact Hw. }
  split.
  - destruct ws0 as [|w ws1]; [contradiction |].
    apply Forall_cons_iff in Hclean. destruct Hclean as [[Hw _] _].
    rewrite str_join_cons. destruct w; [contradiction | discriminate].
  - rewrite Hsplit. eapply Forall_impl; [| exact Hclean]. intros w [H _]. exact H.
Qed.

(** X9. [build_text] never fails when at least one word is asked for, and
    its text is the words that [generate] returns on the given source, joined
    by single spaces: [max(1, config.words)] of them in word mode and
    [est_words] otherwise, each from the word list, and splitting the text on
    spaces gives back exactly those words.  So the text is not empty and has
    no space at either end and none doubled. *)
Theorem build_text_words (est_words : Z) (e : rng_state) (config : Config) :
  1 <= est_words ->
  exists txt src' ws,
    generate (WordSource_init e config) (build_count est_words config)
    = Some (ws, src')
    /\ build_text est_words (WordSource_init e config) config = Some (txt, src')
    /\ txt = str_join [SPACE] ws
    /\ str_split txt = ws
    /\ Z.of_nat (length ws) = build_count est_words config
    /\ Forall (fun w => w <> [] /\ In w (ws_words (WordSource_init e config))) ws
    /\ txt <> []
    /\ Forall (fun w => w <> []) (str_split txt).
Proof. apply build_text_shape. Qed.

(** X10. Wrapping a text that [build_text] produced, at a width of at least
    1, loses nothing but single spaces: the text is its lines with one space
    or nothing between two consecutive lines, and nothing in front of the
    first or behind the last. *)
Theorem build_text_wrap_rejoins (est_words : Z) (e : rng_state) (config : Config)
    (width : Z) (txt : str) (src' : WordSource) :
  1 <= est_words ->
  1 <= width ->
  build_text est_words (WordSource_init e config) config = Some (txt, src') ->
  exists gaps : list str,
    length gaps = length (wrap_text_to_lines txt width)
    /\ Forall (fun g => g = [] \/ g = [SPACE]) gaps
    /\ hd [] gaps = []
    /\ rejoin gaps (wrap_text_to_lines txt width) = txt.
Proof.
  intros Hest Hw Hb.
  destruct (build_text_shape est_words e config Hest)
    as (txt0 & src0 & ws & _ & E0 & _ & _ & _ & _ & Hne & Hws).
  assert (txt0 = txt) by congruence. subst txt0.
  destruct (wrap_rejoin_tight txt width ltac:(lia) Hws) as (gaps & Hlen & Hg & Erj).
  exists gaps. split; [exact Hlen |]. split; [exact Hg |]. split; [| exact Erj].
  destruct gaps as [|g gaps]; [reflexivity |]. cbn [hd].
  apply Forall_cons_iff in Hg. destruct Hg as [[Hg | Hg] _]; [exact Hg |].
  exfalso. subst g.
  destruct (wrap_text_to_lines txt width) as [|l ls]; [discriminate Hlen |].
  cbn [rejoin app] in Erj. rewrite <- Erj in Hws.
  cbn [str_split] in Hws. rewrite N.eqb_refl in Hws.
  apply Forall_cons_iff in Hws. destruct Hws as [Hbad _]. apply Hbad. reflexivity.
Qed.

End MoreBuildText.

Lemma build_text_words_witness :
  1 <= 3
  /\ exists txt src' ws,
       generate (R := lcg) (WordSource_init (R := lcg) 7%N words_config)
         (build_count 3 words_config) = Some (ws, src')
       /\ build_text (R := lcg) 3 (WordSource_init (R := lcg) 7%N words_config)
            words_config = Some (txt, src')
       /\ txt = str_join [SPACE] ws
       /\ str_split txt = ws
       /\ txt <> [].
Proof.
  assert (H1 : 1 <= 3) by lia. split; [exact H1 |].
  destruct (build_text_words (R := lcg) 3 7%N words_config H1)
    as (txt & src' & ws & Eg & E & Ej & Hs & _ & _ & Hne & _).
  exists txt, src', ws. repeat split; assumption.
Defined.

Lemma build_text_wrap_rejoins_witness :
  exists txt src' gaps,
    1 <= 3 /\ 1 <= 7
    /\ build_text (R := lcg) 3 (WordSource_init (R := lcg) 7%N time_config)
         time_config = Some (txt, src')
    /\ Forall (fun g => g = [] \/ g = [SPACE]) gaps
    /\ rejoin gaps (wrap_text_to_lines txt 7) = txt.
Proof.
  evar (txt : str). evar (src' : WordSource (R := lcg)).
  assert (E : build_text (R := lcg) 3 (WordSource_init (R := lcg) 7%N time_config)
                time_config = Some (txt, src'))
    by (unfold txt, src'; vm_compute; reflexivity).
  assert (H1 : 1 <= 3) by lia. assert (H2 : 1 <= 7) by lia.
  destruct (build_text_wrap_rejoins (R := lcg) 3 7%N time_config 7 txt src'
              H1 H2 E) as (gaps & _ & Hg & _ & Erj).
  exists txt, src', gaps. repeat split; assumption.
Defined.

(** ** The scenario of the specification *)

(** A text of [n] words that are not empty has at least [2 n - 1]
    characters. *)
Lemma str_join_length (ws : list str) :
  Forall (fun w => w <> []) ws ->
  (2 * length ws <= length (str_join [SPACE] ws) + 1)%nat.
Proof.
  intros H. destruct ws as [|w ws]; [cbn; lia |].
  rewrite str_join_cons, length_app.
  apply Forall_cons_iff in H. destruct H as [Hw Hws].
  assert (Hrest : (2 * length ws
                   <= length (concat (List.map (fun x => [SPACE] ++ x) ws)))%nat).
  { induction ws as [|a ws IH]; [cbn; lia |].
    apply Forall_cons_iff in Hws. destruct Hws as [Ha Hws].
    cbn [List.map concat]. rewrite !length_app. cbn [length].
    specialize (IH Hws). destruct a; [congruence | cbn [length]; lia]. }
  destruct w; [congruence | cbn [length]; lia].
Qed.

Section Scenario.

Context {U : UnicodeDB} {R : PRNG}.

(** C2. From a fresh session with the target text "abX", the keys "a",
    "b", "c", one backspace and "X" leave [typed = 3], [correct = 2] and
    [mistakes = 1].  A session holds a text of three characters in word mode
    only, and there the third key completes the test, so that the backspace
    and the "X" go to the results panel, which ignores them.  In every other
    mode [build_text] asks for [est_words] words, at least 50, and its text
    has 99 characters or more. *)
Theorem abX_scenario_word_mode (config : Config) (src : WordSource)
    (e1 e2 e3 e4 e5 : Env) (bs : key) :
  In bs backspace_keys ->
  (mode config = u "words" ->
   exists s,
     run config (session_start src (u "abX"))
         [(KStr 97%N, e1); (KStr 98%N, e2); (KStr 99%N, e3); (bs, e4);
          (KStr 88%N, e5)] = Some s
     /\ counters (stats s) = (3, 2, 1)
     /\ phase_of s = Results)
  /\ (mode config <> u "words" ->
      forall (est_words : Z) (g : rng_state) (txt : str) (src' : WordSource),
        50 <= est_words ->
        build_text est_words (WordSource_init g config) config
        = Some (txt, src') ->
        (99 <= length txt)%nat).
Proof.
  intros Hbs. split.
  - intros Hmode. exact (abX_run_word_mode config src e1 e2 e3 e4 e5 bs Hmode Hbs).
  - intros Hmode est_words g txt src' Hest Hb.
    destruct (build_text_shape est_words g config ltac:(lia))
      as (txt0 & src0 & ws & _ & E0 & Ej & _ & Hlen & Hws & _).
    assert (Et : txt0 = txt) by congruence. rewrite Et in Ej.
    assert (Hcount : build_count est_words config = est_words).
    { unfold build_count.
      destruct (str_eqb (mode config) (u "words")) eqn:E; [| reflexivity].
      exfalso. apply Hmode. apply str_eqb_eq. exact E. }
    rewrite Hcount in Hlen.
    assert (Hne : Forall (fun w => w <> []) ws).
    { eapply Forall_impl; [| exact Hws]. intros w [Hw _]. exact Hw. }
    pose proof (str_join_length ws Hne) as Hj. rewrite <- Ej in Hj. lia.
Qed.

End Scenario.

Lemma abX_scenario_word_mode_witness :
  In (KStr DEL) backspace_keys
  /\ mode words_config = u "words"
  /\ exists s,
       run (U := ascii_table) words_config (session_start sample_source (u "abX"))
           [(KStr 97%N, at_time 0); (KStr 98%N, at_time 1); (KStr 99%N, at_time 2);
            (KStr DEL, at_time 3); (KStr 88%N, at_time 4)] = Some s
       /\ counters (stats s) = (3, 2, 1)
       /\ phase_of s = Results.
Proof.
  assert (H : In (KStr DEL) backspace_keys) by (left; reflexivity).
  split; [exact H |]. split; [reflexivity |].
  exact (proj1 (abX_scenario_word_mode (U := ascii_table) words_config
                  sample_source (at_time 0) (at_time 1) (at_time 2) (at_time 3)
                  (at_time 4) (KStr DEL) H) eq_refl).
Defined.

(** ** The session: phases, clock and what it returns *)

Section MoreSession.

Context {U : UnicodeDB} {R : PRNG}.

(** Outside time mode the printable branch leaves the text alone. *)
Lemma printable_text_words (config : Config) (e : Env) (s s' : Session)
    (ch : char) :
  counts_ok (text s) (typed s) (stats s) ->
  str_eqb (mode config) (u "time") = false ->
  printable config e s ch = Some s' -> text s' = text s.
Proof.
  intros Hok Hm. unfold printable.
  pose proof (start_on_key_spec e s ch) as H1. cbv zeta in H1.
  set (s1 := start_on_key e s ch) in *.
  destruct H1 as (_ & Htxt1 & Hty1 & _ & Hcnt1 & _).
  assert (Hok1 : counts_ok (text s1) (typed s1) (stats s1)).
  { rewrite Htxt1, Hty1. apply (counts_ok_counters _ _ (stats s)); assumption. }
  destruct (append_char_spec s1 ch Hok1) as (s2 & E2 & _ & Htxt2 & _).
  rewrite E2. cbn [bind]. unfold extend_text. rewrite Hm. cbn [andb].
  intros E. injection E as <-. congruence.
Qed.

(** The ways out of one pass of the main loop: a [return] on tab, a
    [return] on escape or [KEY_EXIT], or the end of the pass, reached with
    or without the end check, after a handler that keeps the phase and the
    end time and can only set a start time that was unset. *)
Lemma main_loop_cases (config : Config) (e : Env) (s s' : Session) (k : key) :
  counts_ok (text s) (typed s) (stats s) ->
  main_loop config e s k = Some s' ->
  (k = KStr TAB /\ s' = set_phase (Returned Stats.init) s)
  \/ ((k = KStr ESC \/ k = KInt KEY_EXIT)
      /\ s' = set_phase (Returned (Stats.stop (now e) (stats s)))
                (set_stats (Stats.stop (now e) (stats s)) s))
  \/ exists s1,
       (s' = s1 \/ s' = check_end config e s1)
       /\ phase_of s1 = phase_of s
       /\ Stats.ended (stats s1) = Stats.ended (stats s)
       /\ (Stats.started (stats s1) = Stats.started (stats s)
           \/ (Stats.started (stats s) = None
               /\ Stats.started (stats s1) = Some (now e)))
       /\ (str_eqb (mode config) (u "time") = false -> text s1 = text s).
Proof.
  intros Hok.
  set (step := fun s1 : Session =>
       phase_of s1 = phase_of s
       /\ Stats.ended (stats s1) = Stats.ended (stats s)
       /\ (Stats.started (stats s1) = Stats.started (stats s)
           \/ (Stats.started (stats s) = None
               /\ Stats.started (stats s1) = Some (now e)))
       /\ (str_eqb (mode config) (u "time") = false -> text s1 = text s)).
  assert (Hs : step s).
  { unfold step. split; [reflexivity |]. split; [reflexivity |].
    split; [left; reflexivity | intros _; reflexivity]. }
  assert (Hbs : forall s1, backspace s = Some s1 -> step s1).
  { intros s1 E.
    destruct (backspace_spec s Hok) as (s1' & E' & _ & Htxt & Hph & Hst & Hen & _).
    rewrite E in E'. injection E' as <-. unfold step.
    split; [exact Hph |]. split; [exact Hen |].
    split; [left; exact Hst | intros _; exact Htxt]. }
  assert (Hpr : forall c s1, printable config e s c = Some s1 -> step s1).
  { intros c s1 E.
    destruct (printable_spec config e s c Hok)
      as (s1' & E' & _ & Hph & Hen & Hst & _).
    rewrite E in E'. injection E' as <-. unfold step.
    split; [exact Hph |]. split; [exact Hen |]. split.
    - rewrite Hst. destruct (Stats.started (stats s)); [left; reflexivity |].
      destruct (isspace c); [left; reflexivity | right; split; reflexivity].
    - intros Hm. exact (printable_text_words config e s s1 c Hok Hm E). }
  destruct k as [c | n]; unfold main_loop.
  - destruct (N.eqb_spec c TAB) as [-> | _].
    { intros E. injection E as <-. left. split; reflexivity. }
    destruct (N.eqb_spec c ESC) as [-> | _].
    { intros E. injection E as <-. right; left.
      split; [left; reflexivity | reflexivity]. }
    set (c' := if (c =? LF)%N || (c =? CR)%N then SPACE else c).
    destruct ((c' =? DEL)%N || (c' =? BS)%N).
    { intros E. right; right. exists s'.
      split; [left; reflexivity | exact (Hbs s' E)]. }
    destruct (isprintable c' || (c' =? SPACE)%N).
    + destruct (printable config e s c') as [s1|] eqn:E1; cbn [bind];
        [| discriminate].
      intros E. injection E as <-. right; right. exists s1.
      split; [right; reflexivity | exact (Hpr c' s1 E1)].
    + cbn [bind]. intros E. injection E as <-. right; right. exists s.
      split; [right; reflexivity | exact Hs].
  - destruct (Z.eqb_spec n KEY_EXIT) as [-> | _].
    { intros E. injection E as <-. right; left.
      split; [right; reflexivity | reflexivity]. }
    destruct (n =? KEY_RESIZE).
    { intros E. injection E as <-. right; right. exists s.
      split; [left; reflexivity | exact Hs]. }
    destruct ((n =? KEY_BACKSPACE) || (n =? 127)).
    + destruct (backspace s) as [s1|] eqn:E1; cbn [bind]; [| discriminate].
      intros E. injection E as <-. right; right. exists s1.
      split; [right; reflexivity | exact (Hbs s1 eq_refl)].
    + cbn [bind]. intros E. injection E as <-. right; right. exists s.
      split; [right; reflexivity | exact Hs].
Qed.

(** The keys of the results panel. *)
Lemma results_loop_cases (s : Session) (k : key) :
  (restart_key Results k = true
   /\ results_loop s k = set_phase (Returned Stats.init) s)
  \/ (restart_key Results k = false
      /\ (results_loop s k = set_phase (Returned (stats s)) s
          \/ results_loop s k = s)).
Proof.
  destruct k as [c | n]; unfold results_loop, restart_key.
  - destruct (N.eqb_spec c 114) as [-> | _]; [left; split; reflexivity |].
    destruct (N.eqb_spec c 82) as [-> | _]; [left; split; reflexivity |].
    destruct (N.eqb_spec c 113) as [-> | _];
      [right; split; [reflexivity | left; reflexivity] |].
    destruct (N.eqb_spec c 81) as [-> | _];
      [right; split; [reflexivity | left; reflexivity] |].
    cbn [orb].
    destruct (c =? TAB)%N; [left; split; reflexivity |].
    right. split; [reflexivity |].
    destruct (c =? ESC)%N; [left | right]; reflexivity.
  - right. split; [reflexivity |].
    destruct (n =? KEY_EXIT); [left | right]; reflexivity.
Qed.

(** The end check keeps what [phase_ok] says. *)
Lemma check_end_phase_ok (config : Config) (e : Env) (s : Session) :
  phase_of s = Typing -> Stats.ended (stats s) = None ->
  phase_ok config (check_end config e s).
Proof.
  intros Hph Hen. unfold check_end.
  destruct (finished config (now e) s) eqn:Hfin.
  - destruct s as [src txt ty [st en n c m] ph]. cbn in Hph, Hen. subst ph en.
    unfold phase_ok.
    cbn [phase_of set_phase set_stats stats text typed source].
    split; [exists (now e); reflexivity |].
    intros t. unfold finished in *.
    cbn [phase_of set_phase set_stats stats text typed source] in *.
    destruct (str_eqb (mode config) (u "time")); [| exact Hfin].
    destruct st as [t0|]; [| discriminate Hfin].
    exact Hfin.
  - unfold phase_ok. rewrite Hph. exact Hen.
Qed.

Lemma apply_phase_ok (config : Config) (s s' : Session) (ev : key * Env) :
  consistent s -> phase_ok config s ->
  apply config s ev = Some s' -> phase_ok config s'.
Proof.
  intros [Hok _] Hp. unfold apply. destruct (phase_of s) eqn:Hph.
  - intros E. unfold phase_ok in Hp. rewrite Hph in Hp.
    destruct (main_loop_cases config (snd ev) s s' (fst ev) Hok E)
      as [[_ ->] | [[_ ->] | (s1 & Hs' & Hph1 & Hen1 & _)]].
    + unfold phase_ok. cbn [phase_of set_phase]. left. reflexivity.
    + unfold phase_ok. cbn [phase_of set_phase]. right.
      split; [reflexivity |]. cbn [stats set_phase set_stats].
      unfold Stats.stop. rewrite Hp. exists (now (snd ev)). reflexivity.
    + destruct Hs' as [-> | ->].
      * unfold phase_ok. rewrite Hph1, Hph. congruence.
      * apply check_end_phase_ok; congruence.
  - intros E. injection E as <-. unfold phase_ok in Hp |- *.
    rewrite Hph in Hp. destruct Hp as [Hen Hfin].
    destruct (results_loop_cases s (fst ev)) as [[_ ->] | [_ [-> | ->]]].
    + cbn [phase_of set_phase]. left. reflexivity.
    + cbn [phase_of set_phase]. right. split; [reflexivity | exact Hen].
    + rewrite Hph. split; assumption.
  - intros E. injection E as <-. exact Hp.
Qed.

Lemma session_start_phase_ok (config : Config) (src : WordSource) (txt : str) :
  phase_ok config (session_start src txt).
Proof. reflexivity. Qed.

Lemma run_phase_ok (config : Config) (evs : list (key * Env)) (s s' : Session) :
  consistent s -> phase_ok config s ->
  run config s evs = Some s' -> consistent s' /\ phase_ok config s'.
Proof.
  revert s. induction evs as [|ev evs IH]; intros s Hc Hp.
  - intros E. injection E as <-. split; assumption.
  - cbn [run].
    destruct (apply_spec config s ev Hc) as (s1 & E & Hc1 & _).
    rewrite E. cbn [bind]. apply IH; [exact Hc1 |].
    exact (apply_phase_ok config s s1 ev Hc Hp E).
Qed.

Lemma reachable_phase_ok (config : Config) (src : WordSource) (txt : str)
    (evs : list (key * Env)) (s : Session) :
  run config (session_start src txt) evs = Some s ->
  consistent s /\ phase_ok config s.
Proof.
  apply run_phase_ok;
    [apply session_start_consistent | apply session_start_phase_ok].
Qed.

Lemma apply_text_words (config : Config) (s s' : Session) (ev : key * Env) :
  consistent s ->
  str_eqb (mode config) (u "time") = false ->
  apply config s ev = Some s' -> text s' = text s.
Proof.
  intros [Hok _] Hm. unfold apply. destruct (phase_of s) eqn:Hph.
  - intros E.
    destruct (main_loop_cases config (snd ev) s s' (fst ev) Hok E)
      as [[_ ->] | [[_ ->] | (s1 & Hs' & _ & _ & _ & Htxt)]];
      [reflexivity | reflexivity |].
    destruct Hs' as [-> | ->]; [exact (Htxt Hm) |].
    pose proof (check_end_spec config (snd ev) s1) as (_ & Ht & _).
    cbv zeta in Ht. rewrite Ht. exact (Htxt Hm).
  - intros E. injection E as <-.
    pose proof (results_loop_spec s (fst ev) Hph) as (_ & Ht & _).
    exact Ht.
  - intros E. injection E as <-. reflexivity.
Qed.

Lemma run_text (config : Config) (evs : list (key * Env)) (s s' : Session) :
  consistent s ->
  run config s evs = Some s' ->
  (exists ext, text s' = text s ++ ext)
  /\ (str_eqb (mode config) (u "time") = false -> text s' = text s).
Proof.
  revert s. induction evs as [|ev evs IH]; intros s Hc.
  - intros E. injection E as <-.
    split; [exists []; rewrite app_nil_r; reflexivity | reflexivity].
  - cbn [run].
    destruct (apply_spec config s ev Hc) as (s1 & E & Hc1 & _ & (x1 & Hx1) & _).
    rewrite E. cbn [bind]. intros Hrun.
    destruct (IH s1 Hc1 Hrun) as [(x2 & Hx2) Hw]. split.
    + exists (x1 ++ x2). rewrite Hx2, Hx1, app_assoc. reflexivity.
    + intros Hm. rewrite (Hw Hm). exact (apply_text_words config s s1 ev Hc Hm E).
Qed.

Lemma mode_not_time (config : Config) :
  mode config <> u "time" -> str_eqb (mode config) (u "time") = false.
Proof.
  intros H. destruct (str_eqb (mode config) (u "time")) eqn:E; [| reflexivity].
  exfalso. apply H. apply str_eqb_eq. exact E.
Qed.

Lemma mode_time (config : Config) :
  mode config = u "time" -> str_eqb (mode config) (u "time") = true.
Proof. intros H. apply str_eqb_eq. exact H. Qed.

(** In the main loop of a session that began with a text, the log is
    shorter than the text. *)
Lemma typing_has_room (config : Config) (src : WordSource) (txt : str)
    (evs : list (key * Env)) (s : Session) :
  txt <> [] ->
  run config (session_start src txt) evs = Some s ->
  phase_of s = Typing ->
  (length (typed s) < length (text s))%nat.
Proof.
  intros Htxt Hrun Hph.
  destruct (reachable_consistent config src txt evs s Hrun) as [_ HJ].
  destruct (run_text config evs (session_start src txt) s
              (session_start_consistent src txt) Hrun) as [(ext & Hext) _].
  cbn [text session_start] in Hext.
  destruct (HJ Hph) as [E | Hlt]; [| exact Hlt].
  rewrite E, Hext, length_app. destruct txt; [congruence | cbn; lia].
Qed.

(** What a key does to the two times: each is kept, or set to the reading
    of this pass when it was unset; and a start time is only set while no
    end time is. *)
Lemma apply_times (config : Config) (s s' : Session) (k : key) (e : Env) :
  consistent s -> phase_ok config s ->
  apply config s (k, e) = Some s' ->
  (Stats.started (stats s') = Stats.started (stats s)
   \/ (Stats.started (stats s) = None
       /\ Stats.started (stats s') = Some (now e)
       /\ Stats.ended (stats s) = None))
  /\ (Stats.ended (stats s') = Stats.ended (stats s)
      \/ (Stats.ended (stats s) = None
          /\ Stats.ended (stats s') = Some (now e))).
Proof.
  intros [Hok _] Hp. unfold apply, phase_ok in *.
  destruct (phase_of s) eqn:Hph; cbn [fst snd].
  - intros E.
    destruct (main_loop_cases config e s s' k Hok E)
      as [[_ ->] | [[_ ->] | (s1 & Hs' & Hph1 & Hen1 & Hst1 & _)]].
    + split; left; reflexivity.
    + cbn [stats set_phase set_stats].
      split; [left; apply stop_counters |].
      right. split; [exact Hp |]. unfold Stats.stop. rewrite Hp. reflexivity.
    + assert (Hst : Stats.started (stats s1) = Stats.started (stats s)
                    \/ (Stats.started (stats s) = None
                        /\ Stats.started (stats s1) = Some (now e)
                        /\ Stats.ended (stats s) = None)).
      { destruct Hst1 as [H | [H1 H2]]; [left; exact H | right; auto]. }
      destruct Hs' as [-> | ->]; [split; [exact Hst | left; exact Hen1] |].
      pose proof (check_end_spec config e s1) as (_ & _ & _ & _ & Hs & Hfin).
      cbv zeta in *. rewrite Hs. split; [exact Hst |].
      destruct (finished config (now e) s1).
      * destruct Hfin as [_ Hen]. right. split; [exact Hp |].
        rewrite Hen, Hen1, Hp. reflexivity.
      * left. rewrite Hfin. exact Hen1.
  - intros E. injection E as <-.
    pose proof (results_loop_spec s k Hph) as (_ & _ & _ & Hst & _).
    cbv zeta in Hst. rewrite Hst. split; left; reflexivity.
  - intros E. injection E as <-. split; left; reflexivity.
Qed.

Lemma run_times (config : Config) (evs : list (key * Env)) (s s' : Session) :
  consistent s -> phase_ok config s ->
  clock_sorted evs -> times_ok evs s ->
  run config s evs = Some s' ->
  forall a b, Stats.started (stats s') = Some a ->
              Stats.ended (stats s') = Some b -> (a <= b)%Q.
Proof.
  revert s. induction evs as [|[k e] evs IH]; intros s Hc Hp Hsort [T1 T2].
  - intros E. injection E as <-. exact T1.
  - cbn [run].
    destruct (apply_spec config s (k, e) Hc) as (s1 & E & Hc1 & _).
    rewrite E. cbn [bind].
    pose proof (apply_phase_ok config s s1 (k, e) Hc Hp E) as Hp1.
    destruct (apply_times config s s1 k e Hc Hp E) as [Hst Hen].
    inversion Hsort as [| ev0 evs0 Hsort' Hhead]; subst.
    apply (IH s1 Hc1 Hp1 Hsort'). split.
    + intros a b Ha Hb.
      destruct Hst as [Hst | (Hnone & Hnew & Hnoend)].
      * rewrite Hst in Ha.
        destruct Hen as [Hen | [_ Hen]].
        { rewrite Hen in Hb. exact (T1 a b Ha Hb). }
        { rewrite Hen in Hb. injection Hb as <-.
          pose proof (T2 a Ha) as HF. inversion HF; subst. assumption. }
      * rewrite Hnew in Ha. injection Ha as <-.
        destruct Hen as [Hen | [_ Hen]].
        { rewrite Hen, Hnoend in Hb. discriminate Hb. }
        { rewrite Hen in Hb. injection Hb as <-. apply Qle_refl. }
    + intros a Ha.
      destruct Hst as [Hst | (Hnone & Hnew & _)].
      * rewrite Hst in Ha. pose proof (T2 a Ha) as HF.
        inversion HF; subst. assumption.
      * rewrite Hnew in Ha. injection Ha as <-. exact Hhead.
Qed.

(** Once the main loop is left, no key changes the text, the log or the
    [Stats]. *)
Lemma run_after_typing (config : Config) (evs : list (key * Env))
    (s s' : Session) :
  phase_of s <> Typing ->
  run config s evs = Some s' ->
  text s' = text s /\ typed s' = typed s /\ stats s' = stats s
  /\ phase_of s' <> Typing.
Proof.
  revert s. induction evs as [|ev evs IH]; intros s Hph.
  - intros E. injection E as <-. repeat split. exact Hph.
  - cbn [run]. unfold apply. destruct (phase_of s) eqn:Ephase;
      [congruence | |]; cbn [bind]; intros Hrun.
    + pose proof (results_loop_spec s (fst ev) Ephase)
        as (_ & Ht & Hty & Hst & Hnt).
      cbv zeta in *.
      destruct (IH _ Hnt Hrun) as (H1 & H2 & H3 & H4).
      split; [congruence |]. split; [congruence |]. split; [congruence | exact H4].
    + apply IH; [congruence | exact Hrun].
Qed.

(** When the time is up, [finished()] holds. *)
Lemma finished_late (config : Config) (e : Env) (s : Session) (t0 : Q) :
  mode config = u "time" ->
  Stats.started (stats s) = Some t0 ->
  Stats.ended (stats s) = None ->
  (inject_Z (seconds config) <= now e - t0)%Q ->
  finished config (now e) s = true.
Proof.
  intros Hm Hst Hen Hlate. unfold finished, Stats.seconds_elapsed.
  rewrite (mode_time config Hm), Hst, Hen. apply Qle_bool_iff.
  apply Qle_trans with (now e - t0)%Q; [exact Hlate | apply Q.le_max_r].
Qed.

Lemma check_end_late (config : Config) (e : Env) (s : Session) :
  finished config (now e) s = true ->
  Stats.ended (stats s) = None ->
  phase_of (check_end config e s) = Results
  /\ Stats.ended (stats (check_end config e s)) = Some (now e)
  /\ typed (check_end config e s) = typed s.
Proof.
  intros Hfin Hen.
  pose proof (check_end_spec config e s) as (_ & _ & Hty & _ & _ & H).
  cbv zeta in *. rewrite Hfin in H. destruct H as [Hph He].
  rewrite He, Hen. repeat split; assumption.
Qed.

(** X11. In every state a session can reach, [correct] is the number of
    positions at which the log agrees with the text and [mistakes] the
    number at which it differs, the log being no longer than the text: a
    mistake taken back with backspace is no longer counted. *)
Theorem counters_match_log (config : Config) (src : WordSource) (txt : str)
    (evs : list (key * Env)) (s : Session) :
  run config (session_start src txt) evs = Some s ->
  Stats.correct (stats s) = Z.of_nat (matches (typed s) (text s))
  /\ Stats.mistakes (stats s) = Z.of_nat (mismatches (typed s) (text s))
  /\ (length (typed s) <= length (text s))%nat.
Proof.
  intros Hrun.
  destruct (reachable_consistent config src txt evs s Hrun)
    as [(Hle & _ & Hc & Hm) _].
  split; [exact Hc |]. split; [exact Hm | exact Hle].
Qed.

(** X12. Along a session the text is only ever added to at its end, and
    outside time mode it never changes. *)
Theorem text_only_grows (config : Config) (src : WordSource) (txt : str)
    (evs1 evs2 : list (key * Env)) (s1 s2 : Session) :
  run config (session_start src txt) evs1 = Some s1 ->
  run config s1 evs2 = Some s2 ->
  (exists ext, text s2 = text s1 ++ ext)
  /\ (mode config <> u "time" -> text s2 = text s1).
Proof.
  intros Hrun1 Hrun2.
  pose proof (reachable_consistent config src txt evs1 s1 Hrun1) as Hc.
  destruct (run_text config evs2 s1 s2 Hc Hrun2) as [Hext Hw].
  split; [exact Hext |]. intros Hm. apply Hw. apply mode_not_time. exact Hm.
Qed.

(** X13. While a session that began with a non-empty text is in its main
    loop, the log is shorter than the text, so the guard
    [len(typed) < len(text)] never drops a key: every printable key is
    appended to the log (enter as a space) and counted. *)
Theorem printable_key_always_logged (config : Config) (src : WordSource)
    (txt : str) (evs : list (key * Env)) (s : Session) (e : Env) (c : char) :
  txt <> [] ->
  run config (session_start src txt) evs = Some s ->
  phase_of s = Typing ->
  printable_key c = true ->
  (length (typed s) < length (text s))%nat
  /\ exists s',
       apply config s (KStr c, e) = Some s'
       /\ typed s' = typed s ++ [normalize c]
       /\ Stats.typed (stats s') = Stats.typed (stats s) + 1.
Proof.
  intros Htxt Hrun Hph Hkey.
  pose proof (typing_has_room config src txt evs s Htxt Hrun Hph) as Hroom.
  split; [exact Hroom |].
  destruct (reachable_consistent config src txt evs s Hrun) as [Hok _].
  rewrite (apply_printable config e s c Hph Hkey).
  destruct (printable_spec config e s (normalize c) Hok)
    as (s1 & E & _ & _ & _ & _ & _ & _ & _ & Hcase).
  rewrite E. cbn [bind]. eexists. split; [reflexivity |].
  pose proof (check_end_spec config e s1) as (_ & _ & Hty & Hcnt & _).
  cbv zeta in *. rewrite Hty.
  destruct Hcase as [(_ & Hpush & t & _ & Hc1) | (Hfull & _)]; [| lia].
  split; [exact Hpush |].
  rewrite Hc1 in Hcnt. unfold counters in Hcnt. injection Hcnt as H1 _ _.
  exact H1.
Qed.

(** X14. The [Stats] a session returns pass the restart test of
    [run_curses] (neither time set) exactly when the key that made it
    return is tab in the main loop, or [r], [R] or tab in the results
    panel; on escape, [KEY_EXIT], [q] and [Q] the returned [Stats] have
    their end time set. *)
Theorem restart_exactly_on_restart_keys (config : Config) (src : WordSource)
    (txt : str) (evs : list (key * Env)) (s s' : Session) (k : key) (e : Env)
    (r : Stats.t) :
  run config (session_start src txt) evs = Some s ->
  (phase_of s = Typing \/ phase_of s = Results) ->
  apply config s (k, e) = Some s' ->
  phase_of s' = Returned r ->
  restart_requested r = restart_key (phase_of s) k.
Proof.
  intros Hrun Hph Happ Hret.
  destruct (reachable_phase_ok config src txt evs s Hrun) as [[Hok _] Hp].
  unfold apply in Happ. unfold phase_ok in Hp. cbn [fst snd] in Happ.
  destruct (phase_of s) eqn:Ephase.
  - destruct (main_loop_cases config e s s' k Hok Happ)
      as [[-> ->] | [[Hk ->] | (s1 & Hs' & Hph1 & Hen1 & _)]].
    + cbn [phase_of set_phase] in Hret. injection Hret as <-. reflexivity.
    + cbn [phase_of set_phase] in Hret. injection Hret as <-.
      unfold restart_requested, Stats.stop. rewrite Hp.
      cbn [Stats.started Stats.ended Stats.set_ended].
      destruct (Stats.started (stats s)); destruct Hk as [-> | ->]; reflexivity.
    + exfalso. destruct Hs' as [-> | ->]; [congruence |].
      unfold check_end in Hret.
      destruct (finished config (now e) s1);
        [cbn [phase_of set_phase] in Hret; discriminate | congruence].
  - injection Happ as <-. destruct Hp as [[t Hen] _].
    destruct (results_loop_cases s k) as [[Hk E] | [Hk [E | E]]];
      rewrite E in Hret; rewrite Hk.
    + cbn [phase_of set_phase] in Hret. injection Hret as <-. reflexivity.
    + cbn [phase_of set_phase] in Hret. injection Hret as <-.
      unfold restart_requested. rewrite Hen.
      destruct (Stats.started (stats s)); reflexivity.
    + congruence.
  - destruct Hph; discriminate.
Qed.

(** X15. The results panel is reached only by completing the test: the
    end time is set; outside time mode the whole text has been typed; in
    time mode the clock was started and the time from start to end is at
    least [config.seconds]. *)
Theorem results_panel_means_finished (config : Config) (src : WordSource)
    (txt : str) (evs : list (key * Env)) (s : Session) :
  run config (session_start src txt) evs = Some s ->
  phase_of s = Results ->
  (exists t1, Stats.ended (stats s) = Some t1)
  /\ (mode config <> u "time" -> length (typed s) = length (text s))
  /\ (mode config = u "time" ->
      exists t0 t1,
        Stats.started (stats s) = Some t0
        /\ Stats.ended (stats s) = Some t1
        /\ (inject_Z (seconds config) <= Qmax 0 (t1 - t0))%Q).
Proof.
  intros Hrun Hph.
  destruct (reachable_phase_ok config src txt evs s Hrun) as [[Hok _] Hp].
  unfold phase_ok in Hp. rewrite Hph in Hp. destruct Hp as [[t1 Hen] Hfin].
  specialize (Hfin 0%Q). unfold finished in Hfin.
  assert (Hlen : mode config <> u "time" -> length (typed s) = length (text s)).
  { intros Hm. rewrite (mode_not_time config Hm) in Hfin.
    apply Nat.leb_le in Hfin. destruct Hok as [Hle _]. lia. }
  split; [exists t1; exact Hen |]. split; [exact Hlen |].
  intros Hm. rewrite (mode_time config Hm) in Hfin.
  unfold Stats.seconds_elapsed in Hfin. rewrite Hen in Hfin. revert Hfin.
  destruct (Stats.started (stats s)) as [t0|]; [| discriminate].
  intros Hfin. exists t0, t1. split; [reflexivity |]. split; [exact Hen |].
  apply Qle_bool_iff. exact Hfin.
Qed.

(** X16. Once the results panel is up, no key changes the text, the log or
    the [Stats], and the elapsed time and the words-per-minute figure no
    longer depend on the clock. *)
Theorem results_are_final (config : Config) (src : WordSource) (txt : str)
    (evs1 evs2 : list (key * Env)) (s s' : Session) :
  run config (session_start src txt) evs1 = Some s ->
  phase_of s = Results ->
  run config s evs2 = Some s' ->
  text s' = text s /\ typed s' = typed s /\ stats s' = stats s
  /\ forall t t',
       Stats.seconds_elapsed t (stats s') = Stats.seconds_elapsed t' (stats s')
       /\ Stats.raw_wpm t (stats s') = Stats.raw_wpm t' (stats s').
Proof.
  intros Hrun Hph Hrun2.
  destruct (reachable_phase_ok config src txt evs1 s Hrun) as [_ Hp].
  unfold phase_ok in Hp. rewrite Hph in Hp. destruct Hp as [[t1 Hen] _].
  assert (Hnt : phase_of s <> Typing) by (rewrite Hph; discriminate).
  destruct (run_after_typing config evs2 s s' Hnt Hrun2) as (H1 & H2 & H3 & _).
  split; [exact H1 |]. split; [exact H2 |]. split; [exact H3 |].
  intros t t'. rewrite H3.
  assert (Hsec : Stats.seconds_elapsed t (stats s)
                 = Stats.seconds_elapsed t' (stats s)).
  { unfold Stats.seconds_elapsed. rewrite Hen. reflexivity. }
  split; [exact Hsec |].
  unfold Stats.raw_wpm, Stats.minutes_elapsed. rewrite Hsec. reflexivity.
Qed.

(** X17. If the clock readings of the keys never go back, a session never
    has an end time before its start time. *)
Theorem ended_not_before_started (config : Config) (src : WordSource)
    (txt : str) (evs : list (key * Env)) (s : Session) (a b : Q) :
  clock_sorted evs ->
  run config (session_start src txt) evs = Some s ->
  Stats.started (stats s) = Some a ->
  Stats.ended (stats s) = Some b ->
  (a <= b)%Q.
Proof.
  intros Hsort Hrun.
  apply (run_times config evs (session_start src txt) s
           (session_start_consistent src txt)
           (session_start_phase_ok config src txt) Hsort); [| exact Hrun].
  split; cbn; [intros a0 b0 H | intros a0 H]; discriminate H.
Qed.

(** X18. In time mode the deadline is noticed only when a key arrives: a
    printable key that comes at or after the deadline is still appended to
    the log and counted, and then the session stops with that key's time as
    its end time. *)
Theorem late_key_still_counts (config : Config) (src : WordSource) (txt : str)
    (evs : list (key * Env)) (s : Session) (e : Env) (c : char) (t0 : Q) :
  txt <> [] ->
  mode config = u "time" ->
  run config (session_start src txt) evs = Some s ->
  phase_of s = Typing ->
  Stats.started (stats s) = Some t0 ->
  (inject_Z (seconds config) <= now e - t0)%Q ->
  printable_key c = true ->
  exists s',
    apply config s (KStr c, e) = Some s'
    /\ typed s' = typed s ++ [normalize c]
    /\ Stats.typed (stats s') = Stats.typed (stats s) + 1
    /\ phase_of s' = Results
    /\ Stats.ended (stats s') = Some (now e).
Proof.
  intros Htxt Hm Hrun Hph Hst Hlate Hkey.
  pose proof (typing_has_room config src txt evs s Htxt Hrun Hph) as Hroom.
  destruct (reachable_phase_ok config src txt evs s Hrun) as [[Hok _] Hp].
  unfold phase_ok in Hp. rewrite Hph in Hp.
  rewrite (apply_printable config e s c Hph Hkey).
  destruct (printable_spec config e s (normalize c) Hok)
    as (s1 & E & _ & _ & Hen1 & Hst1 & _ & _ & _ & Hcase).
  rewrite E. cbn [bind]. eexists. split; [reflexivity |].
  rewrite Hst in Hst1. rewrite Hp in Hen1.
  pose proof (finished_late config e s1 t0 Hm Hst1 Hen1 Hlate) as Hfin.
  destruct (check_end_late config e s1 Hfin Hen1) as (Hres & Hend & Hty).
  pose proof (check_end_spec config e s1) as (_ & _ & _ & Hcnt & _).
  cbv zeta in Hcnt.
  destruct Hcase as [(_ & Hpush & t & _ & Hc1) | (Hfull & _)]; [| lia].
  split; [rewrite Hty; exact Hpush |].
  split; [| split; assumption].
  rewrite Hc1 in Hcnt. unfold counters in Hcnt. injection Hcnt as H1 _ _.
  exact H1.
Qed.

(** X19. In time mode, once the time is up, the string backspaces
    ([\x7f], [\b]) and [KEY_RESIZE] leave the session in its main loop,
    because their branches end in [continue]; every other key that does not
    return (so also [KEY_BACKSPACE] and keys that are otherwise ignored)
    reaches the end check and stops the session at its own time. *)
Theorem deadline_needs_end_check (config : Config) (src : WordSource)
    (txt : str) (evs : list (key * Env)) (s : Session) (e : Env) (k : key)
    (t0 : Q) :
  mode config = u "time" ->
  run config (session_start src txt) evs = Some s ->
  phase_of s = Typing ->
  Stats.started (stats s) = Some t0 ->
  (inject_Z (seconds config) <= now e - t0)%Q ->
  (In k [KStr DEL; KStr BS; KInt KEY_RESIZE] ->
   exists s1, apply config s (k, e) = Some s1
              /\ phase_of s1 = Typing /\ Stats.ended (stats s1) = None)
  /\ (~ In k [KStr TAB; KStr ESC; KStr DEL; KStr BS;
              KInt KEY_EXIT; KInt KEY_RESIZE] ->
      exists s2, apply config s (k, e) = Some s2
                 /\ phase_of s2 = Results
                 /\ Stats.ended (stats s2) = Some (now e)).
Proof.
  intros Hm Hrun Hph Hst Hlate.
  destruct (reachable_phase_ok config src txt evs s Hrun) as [[Hok _] Hp].
  unfold phase_ok in Hp. rewrite Hph in Hp.
  assert (Hself : exists s2, Some (check_end config e s) = Some s2
                    /\ phase_of s2 = Results
                    /\ Stats.ended (stats s2) = Some (now e)).
  { eexists. split; [reflexivity |].
    pose proof (finished_late config e s t0 Hm Hst Hp Hlate) as Hfin.
    destruct (check_end_late config e s Hfin Hp) as (H1 & H2 & _).
    split; assumption. }
  destruct (backspace_spec s Hok)
    as (sb & Eb & _ & _ & Hphb & Hstb & Henb & _).
  unfold apply. rewrite Hph. cbn [fst snd]. split.
  - intros [<- | [<- | [<- | []]]].
    + exists sb. split; [exact Eb |]. split; congruence.
    + exists sb. split; [exact Eb |]. split; congruence.
    + exists s. split; [reflexivity |]. split; assumption.
  - intros Hk. destruct k as [c | n]; unfold main_loop.
    + assert (Hc : forall x, In (KStr x) [KStr TAB; KStr ESC; KStr DEL; KStr BS]
                             -> (c =? x)%N = false).
      { intros x Hx. apply N.eqb_neq. intros ->. apply Hk.
        destruct Hx as [<- | [<- | [<- | [<- | []]]]]; cbn; auto 10. }
      rewrite (Hc TAB) by (cbn; auto). rewrite (Hc ESC) by (cbn; auto).
      fold (normalize c).
      assert (Hn : (normalize c =? DEL)%N || (normalize c =? BS)%N = false).
      { unfold normalize. destruct ((c =? LF)%N || (c =? CR)%N);
          [reflexivity |].
        rewrite (Hc DEL) by (cbn; auto). rewrite (Hc BS) by (cbn; auto 10).
        reflexivity. }
      rewrite Hn.
      destruct (isprintable (normalize c) || (normalize c =? SPACE)%N);
        [| exact Hself].
      destruct (printable_spec config e s (normalize c) Hok)
        as (s1 & E & _ & _ & Hen1 & Hst1 & _).
      rewrite E. cbn [bind]. eexists. split; [reflexivity |].
      rewrite Hst in Hst1. rewrite Hp in Hen1.
      pose proof (finished_late config e s1 t0 Hm Hst1 Hen1 Hlate) as Hfin.
      destruct (check_end_late config e s1 Hfin Hen1) as (H1 & H2 & _).
      split; assumption.
    + assert (Hn : forall x, In (KInt x) [KInt KEY_EXIT; KInt KEY_RESIZE]
                             -> (n =? x) = false).
      { intros x Hx. apply Z.eqb_neq. intros ->. apply Hk.
        destruct Hx as [<- | [<- | []]]; cbn; auto 10. }
      rewrite (Hn KEY_EXIT) by (cbn; auto).
      rewrite (Hn KEY_RESIZE) by (cbn; auto).
      destruct ((n =? KEY_BACKSPACE) || (n =? 127)); [| exact Hself].
      rewrite Eb. cbn [bind]. eexists. split; [reflexivity |].
      rewrite Hst in Hstb. rewrite Hp in Henb.
      pose proof (finished_late config e sb t0 Hm Hstb Henb Hlate) as Hfin.
      destruct (check_end_late config e sb Hfin Henb) as (H1 & H2 & _).
      split; assumption.
Qed.

End MoreSession.

Lemma counters_match_log_witness :
  exists s,
    run (U := ascii_table) words_config (session_start sample_source (u "the of"))
        [(KStr 116%N, at_time 0); (KStr 120%N, at_time 1); (KStr DEL, at_time 2);
         (KStr 104%N, at_time 3)] = Some s
    /\ Stats.correct (stats s) = Z.of_nat (matches (typed s) (text s))
    /\ Stats.mistakes (stats s) = Z.of_nat (mismatches (typed s) (text s))
    /\ (length (typed s) <= length (text s))%nat.
Proof.
  evar (s : Session (R := lcg)).
  assert (Hrun : run (U := ascii_table) words_config
                   (session_start sample_source (u "the of"))
                   [(KStr 116%N, at_time 0); (KStr 120%N, at_time 1);
                    (KStr DEL, at_time 2); (KStr 104%N, at_time 3)] = Some s)
    by (unfold s; vm_compute; reflexivity).
  exists s. split; [exact Hrun |].
  exact (counters_match_log (U := ascii_table) words_config sample_source
           (u "the of") _ s Hrun).
Defined.

Lemma text_only_grows_witness :
  exists s1 s2,
    run (U := ascii_table) time_config (session_start sample_source (u "ab"))
        [(KStr 97%N, at_time 0)] = Some s1
    /\ run (U := ascii_table) time_config s1 [(KStr 98%N, at_time 1)] = Some s2
    /\ (exists ext, text s2 = text s1 ++ ext)
    /\ (mode time_config <> u "time" -> text s2 = text s1).
Proof.
  evar (s1 : Session (R := lcg)). evar (s2 : Session (R := lcg)).
  assert (Hrun1 : run (U := ascii_table) time_config
                    (session_start sample_source (u "ab"))
                    [(KStr 97%N, at_time 0)] = Some s1)
    by (unfold s1; vm_compute; reflexivity).
  assert (Hrun2 : run (U := ascii_table) time_config s1
                    [(KStr 98%N, at_time 1)] = Some s2)
    by (unfold s1, s2; vm_compute; reflexivity).
  exists s1, s2. split; [exact Hrun1 |]. split; [exact Hrun2 |].
  exact (text_only_grows (U := ascii_table) time_config sample_source (u "ab")
           _ _ s1 s2 Hrun1 Hrun2).
Defined.

Lemma printable_key_always_logged_witness :
  exists s,
    u "ab cd" <> []
    /\ run (U := ascii_table) time_config (session_start sample_source (u "ab cd"))
         [(KStr 97%N, at_time 0)] = Some s
    /\ phase_of s = Typing
    /\ printable_key (U := ascii_table) 120%N = true
    /\ (length (typed s) < length (text s))%nat
    /\ exists s',
         apply (U := ascii_table) time_config s (KStr 120%N, at_time 1) = Some s'
         /\ typed s' = typed s ++ [normalize 120%N]
         /\ Stats.typed (stats s') = Stats.typed (stats s) + 1.
Proof.
  evar (s : Session (R := lcg)).
  assert (Hrun : run (U := ascii_table) time_config
                   (session_start sample_source (u "ab cd"))
                   [(KStr 97%N, at_time 0)] = Some s)
    by (unfold s; vm_compute; reflexivity).
  assert (Htxt : u "ab cd" <> []) by discriminate.
  exists s. split; [exact Htxt |]. split; [exact Hrun |].
  split; [reflexivity |]. split; [reflexivity |].
  exact (printable_key_always_logged (U := ascii_table) time_config
           sample_source (u "ab cd") _ s (at_time 1) 120%N
           Htxt Hrun eq_refl eq_refl).
Defined.

Lemma restart_exactly_on_restart_keys_witness :
  exists s s',
    run (U := ascii_table) words_config (session_start sample_source (u "ab"))
        [(KStr 97%N, at_time 0); (KStr 98%N, at_time 1)] = Some s
    /\ (phase_of s = Typing \/ phase_of s = Results)
    /\ apply (U := ascii_table) words_config s (KStr 114%N, at_time 2) = Some s'
    /\ phase_of s' = Returned Stats.init
    /\ restart_requested Stats.init = restart_key (phase_of s) (KStr 114%N).
Proof.
  evar (s : Session (R := lcg)). evar (s' : Session (R := lcg)).
  assert (Hrun : run (U := ascii_table) words_config
                   (session_start sample_source (u "ab"))
                   [(KStr 97%N, at_time 0); (KStr 98%N, at_time 1)] = Some s)
    by (unfold s; vm_compute; reflexivity).
  assert (Happ : apply (U := ascii_table) words_config s
                   (KStr 114%N, at_time 2) = Some s')
    by (unfold s, s'; vm_compute; reflexivity).
  exists s, s'. split; [exact Hrun |].
  split; [right; reflexivity |]. split; [exact Happ |].
  split; [reflexivity |].
  exact (restart_exactly_on_restart_keys (U := ascii_table) words_config
           sample_source (u "ab") _ s s' (KStr 114%N) (at_time 2) Stats.init
           Hrun (or_intror eq_refl) Happ eq_refl).
Defined.

Lemma results_panel_means_finished_witness :
  exists s,
    run (U := ascii_table) words_config (session_start sample_source (u "ab"))
        [(KStr 97%N, at_time 0); (KStr 120%N, at_time 1)] = Some s
    /\ phase_of s = Results
    /\ (exists t1, Stats.ended (stats s) = Some t1)
    /\ (mode words_config <> u "time" -> length (typed s) = length (text s))
    /\ (mode words_config = u "time" ->
        exists t0 t1,
          Stats.started (stats s) = Some t0
          /\ Stats.ended (stats s) = Some t1
          /\ (inject_Z (seconds words_config) <= Qmax 0 (t1 - t0))%Q).
Proof.
  evar (s : Session (R := lcg)).
  assert (Hrun : run (U := ascii_table) words_config
                   (session_start sample_source (u "ab"))
                   [(KStr 97%N, at_time 0); (KStr 120%N, at_time 1)] = Some s)
    by (unfold s; vm_compute; reflexivity).
  exists s. split; [exact Hrun |]. split; [reflexivity |].
  exact (results_panel_means_finished (U := ascii_table) words_config
           sample_source (u "ab") _ s Hrun eq_refl).
Defined.

Lemma results_are_final_witness :
  exists s s',
    run (U := ascii_table) words_config (session_start sample_source (u "ab"))
        [(KStr 97%N, at_time 0); (KStr 98%N, at_time 1)] = Some s
    /\ phase_of s = Results
    /\ run (U := ascii_table) words_config s
         [(KStr 120%N, at_time 2); (KStr DEL, at_time 3)] = Some s'
    /\ text s' = text s /\ typed s' = typed s /\ stats s' = stats s
    /\ forall t t',
         Stats.seconds_elapsed t (stats s') = Stats.seconds_elapsed t' (stats s')
         /\ Stats.raw_wpm t (stats s') = Stats.raw_wpm t' (stats s').
Proof.
  evar (s : Session (R := lcg)). evar (s' : Session (R := lcg)).
  assert (Hrun : run (U := ascii_table) words_config
                   (session_start sample_source (u "ab"))
                   [(KStr 97%N, at_time 0); (KStr 98%N, at_time 1)] = Some s)
    by (unfold s; vm_compute; reflexivity).
  assert (Hrun2 : run (U := ascii_table) words_config s
                    [(KStr 120%N, at_time 2); (KStr DEL, at_time 3)] = Some s')
    by (unfold s, s'; vm_compute; reflexivity).
  exists s, s'. split; [exact Hrun |]. split; [reflexivity |].
  split; [exact Hrun2 |].
  exact (results_are_final (U := ascii_table) words_config sample_source
           (u "ab") _ _ s s' Hrun eq_refl Hrun2).
Defined.

Lemma ended_not_before_started_witness :
  exists s,
    clock_sorted [(KStr 97%N, at_time 3); (KStr 98%N, at_time 5)]
    /\ run (U := ascii_table) words_config (session_start sample_source (u "ab"))
         [(KStr 97%N, at_time 3); (KStr 98%N, at_time 5)] = Some s
    /\ Stats.started (stats s) = Some 3%Q
    /\ Stats.ended (stats s) = Some 5%Q
    /\ (3 <= 5)%Q.
Proof.
  evar (s : Session (R := lcg)).
  assert (Hrun : run (U := ascii_table) words_config
                   (session_start sample_source (u "ab"))
                   [(KStr 97%N, at_time 3); (KStr 98%N, at_time 5)] = Some s)
    by (unfold s; vm_compute; reflexivity).
  assert (Hsort : clock_sorted [(KStr 97%N, at_time 3); (KStr 98%N, at_time 5)]).
  { repeat constructor. cbn. discriminate. }
  exists s. split; [exact Hsort |]. split; [exact Hrun |].
  split; [reflexivity |]. split; [reflexivity |].
  exact (ended_not_before_started (U := ascii_table) words_config
           sample_source (u "ab") _ s 3%Q 5%Q Hsort Hrun eq_refl eq_refl).
Defined.

Lemma late_key_still_counts_witness :
  exists s,
    u "ab cd" <> []
    /\ mode time_config = u "time"
    /\ run (U := ascii_table) time_config (session_start sample_source (u "ab cd"))
         [(KStr 97%N, at_time 0)] = Some s
    /\ phase_of s = Typing
    /\ Stats.started (stats s) = Some 0%Q
    /\ (inject_Z (seconds time_config) <= now (at_time 61) - 0)%Q
    /\ printable_key (U := ascii_table) 98%N = true
    /\ exists s',
         apply (U := ascii_table) time_config s (KStr 98%N, at_time 61) = Some s'
         /\ typed s' = typed s ++ [normalize 98%N]
         /\ Stats.typed (stats s') = Stats.typed (stats s) + 1
         /\ phase_of s' = Results
         /\ Stats.ended (stats s') = Some (now (at_time 61)).
Proof.
  evar (s : Session (R := lcg)).
  assert (Hrun : run (U := ascii_table) time_config
                   (session_start sample_source (u "ab cd"))
                   [(KStr 97%N, at_time 0)] = Some s)
    by (unfold s; vm_compute; reflexivity).
  assert (Htxt : u "ab cd" <> []) by discriminate.
  assert (Hlate : (inject_Z (seconds time_config) <= now (at_time 61) - 0)%Q)
    by (vm_compute; discriminate).
  exists s. split; [exact Htxt |]. split; [reflexivity |].
  split; [exact Hrun |]. split; [reflexivity |]. split; [reflexivity |].
  split; [exact Hlate |]. split; [reflexivity |].
  exact (late_key_still_counts (U := ascii_table) time_config sample_source
           (u "ab cd") _ s (at_time 61) 98%N 0%Q
           Htxt eq_refl Hrun eq_refl eq_refl Hlate eq_refl).
Defined.

Lemma deadline_needs_end_check_witness :
  exists s,
    mode time_config = u "time"
    /\ run (U := ascii_table) time_config (session_start sample_source (u "ab cd"))
         [(KStr 97%N, at_time 0)] = Some s
    /\ phase_of s = Typing
    /\ Stats.started (stats s) = Some 0%Q
    /\ (inject_Z (seconds time_config) <= now (at_time 61) - 0)%Q
    /\ (In (KInt KEY_BACKSPACE) [KStr DEL; KStr BS; KInt KEY_RESIZE] ->
        exists s1,
          apply (U := ascii_table) time_config s (KInt KEY_BACKSPACE, at_time 61)
          = Some s1
          /\ phase_of s1 = Typing /\ Stats.ended (stats s1) = None)
    /\ (~ In (KInt KEY_BACKSPACE)
            [KStr TAB; KStr ESC; KStr DEL; KStr BS;
             KInt KEY_EXIT; KInt KEY_RESIZE] ->
        exists s2,
          apply (U := ascii_table) time_config s (KInt KEY_BACKSPACE, at_time 61)
          = Some s2
          /\ phase_of s2 = Results
          /\ Stats.ended (stats s2) = Some (now (at_time 61))).
Proof.
  evar (s : Session (R := lcg)).
  assert (Hrun : run (U := ascii_table) time_config
                   (session_start sample_source (u "ab cd"))
                   [(KStr 97%N, at_time 0)] = Some s)
    by (unfold s; vm_compute; reflexivity).
  assert (Hlate : (inject_Z (seconds time_config) <= now (at_time 61) - 0)%Q)
    by (vm_compute; discriminate).
  exists s. split; [reflexivity |]. split; [exact Hrun |].
  split; [reflexivity |]. split; [reflexivity |]. split; [exact Hlate |].
  exact (deadline_needs_end_check (U := ascii_table) time_config sample_source
           (u "ab cd") _ s (at_time 61) (KInt KEY_BACKSPACE) 0%Q
           eq_refl Hrun eq_refl eq_refl Hlate).
Defined.

(** ** Stats and the status bar *)

(** X20. The elapsed time is never negative and never goes down as the
    clock goes up. *)
Theorem elapsed_monotone (st : Stats.t) (t t' : Q) :
  (t <= t')%Q ->
  (0 <= Stats.seconds_elapsed t st)%Q
  /\ (Stats.seconds_elapsed t st <= Stats.seconds_elapsed t' st)%Q.
Proof.
  intros Htt. unfold Stats.seconds_elapsed.
  destruct (Stats.started st) as [t0|]; [| split; apply Qle_refl].
  split; [apply Q.le_max_l |].
  destruct (Stats.ended st) as [t1|]; [apply Qle_refl |].
  apply Q.max_le_compat_l. unfold Qminus. apply Qplus_le_l. exact Htt.
Qed.

Lemma elapsed_monotone_witness :
  (1 <= 3)%Q
  /\ (0 <= Stats.seconds_elapsed 1 (Stats.start 0 Stats.init))%Q
  /\ (Stats.seconds_elapsed 1 (Stats.start 0 Stats.init)
      <= Stats.seconds_elapsed 3 (Stats.start 0 Stats.init))%Q.
Proof.
  assert (H : (1 <= 3)%Q) by (vm_compute; discriminate).
  split; [exact H |].
  exact (elapsed_monotone (Stats.start 0 Stats.init) 1 3 H).
Defined.

Lemma py_int_nonneg (q : Q) : (0 <= q)%Q -> 0 <= py_int q.
Proof.
  unfold Qle, py_int. cbn. intros H. apply Z.quot_pos; lia.
Qed.

Lemma py_int_lower (n : Z) (q : Q) :
  (0 <= q)%Q -> (inject_Z n <= q)%Q -> n <= py_int q.
Proof.
  unfold Qle, py_int. cbn. intros H0 H.
  rewrite Z.quot_div_nonneg by lia.
  apply Z.div_le_lower_bound; lia.
Qed.

Lemma elapsed_nonneg (t : Q) (st : Stats.t) :
  (0 <= Stats.seconds_elapsed t st)%Q.
Proof.
  unfold Stats.seconds_elapsed.
  destruct (Stats.started st); [apply Q.le_max_l | apply Qle_refl].
Qed.

Section StatusBar.

Context {U : UnicodeDB} {R : PRNG}.

(** X21. In time mode the status bar shows a number of seconds left between
    0 and [config.seconds], and once the results panel is up it shows 0. *)
Theorem remaining_time_shown (config : Config) (src : WordSource) (txt : str)
    (evs : list (key * Env)) (s : Session) (t : Q) :
  mode config = u "time" ->
  run config (session_start src txt) evs = Some s ->
  exists r,
    remaining config t (stats s) = Some r
    /\ 0 <= r <= Z.max 0 (seconds config)
    /\ (phase_of s = Results -> r = 0).
Proof.
  intros Hm Hrun. unfold remaining. rewrite (mode_time config Hm).
  eexists. split; [reflexivity |].
  pose proof (py_int_nonneg _ (elapsed_nonneg t (stats s))) as H0.
  split; [lia |]. intros Hph.
  destruct (reachable_phase_ok config src txt evs s Hrun) as [_ Hp].
  unfold phase_ok in Hp. rewrite Hph in Hp. destruct Hp as [_ Hfin].
  specialize (Hfin t). unfold finished in Hfin.
  rewrite (mode_time config Hm) in Hfin.
  destruct (Stats.started (stats s)) as [t0|] eqn:Est; [| discriminate].
  apply Qle_bool_iff in Hfin.
  pose proof (py_int_lower _ _ (elapsed_nonneg t (stats s)) Hfin). lia.
Qed.

End StatusBar.

Lemma remaining_time_shown_witness :
  exists s,
    mode time_config = u "time"
    /\ run (U := ascii_table) time_config (session_start sample_source (u "ab cd"))
         [(KStr 97%N, at_time 0); (KStr 98%N, at_time 61)] = Some s
    /\ exists r,
         remaining time_config 100 (stats s) = Some r
         /\ 0 <= r <= Z.max 0 (seconds time_config)
         /\ (phase_of s = Results -> r = 0).
Proof.
  evar (s : Session (R := lcg)).
  assert (Hrun : run (U := ascii_table) time_config
                   (session_start sample_source (u "ab cd"))
                   [(KStr 97%N, at_time 0); (KStr 98%N, at_time 61)] = Some s)
    by (unfold s; vm_compute; reflexivity).
  exists s. split; [reflexivity |]. split; [exact Hrun |].
  exact (remaining_time_shown (U := ascii_table) time_config sample_source
           (u "ab cd") _ s 100 eq_refl Hrun).
Defined.

(** ** Restart *)

Section Restart.

Context {U : UnicodeDB} {R : PRNG}.

(** X22. With a seed in the configuration, [typing_session] starts from
    the same text whatever the generator state around it: a restart shows
    the text of the session before. *)
Theorem restart_same_text_with_seed (config : Config) (z : Z) (est_words : Z)
    (g g' : rng_state) :
  seed config = Some z ->
  exists s,
    typing_session_init est_words g config = Some s
    /\ typing_session_init est_words g' config = Some s
    /\ typed s = [] /\ stats s = Stats.init /\ phase_of s = Typing.
Proof.
  intros Hseed. unfold typing_session_init.
  rewrite (WordSource_init_seeded config z g g' Hseed).
  unfold build_text.
  destruct (generate_succeeds g' config
              (if str_eqb (mode config) (u "words")
               then Z.max 1 (words config) else est_words))
    as (ws & src & E & _).
  rewrite E. cbn [bind fst snd]. eexists. split; [reflexivity |].
  split; [reflexivity |]. repeat split.
Qed.

End Restart.

Lemma restart_same_text_with_seed_witness :
  seed words_config = Some 1
  /\ exists s,
       typing_session_init (R := lcg) 50 7%N words_config = Some s
       /\ typing_session_init (R := lcg) 50 8%N words_config = Some s
       /\ typed s = [] /\ stats s = Stats.init /\ phase_of s = Typing.
Proof.
  split; [reflexivity |].
  exact (restart_same_text_with_seed (R := lcg) words_config 1 50 7%N 8%N
           eq_refl).
Defined.
(** ** The keyboard display *)

Lemma skipn_app_length {A} (a b : list A) : skipn (length a) (a ++ b) = b.
Proof. induction a as [|x a IH]; [reflexivity | exact IH]. Qed.

Lemma firstn_app_length {A} (a b : list A) : firstn (length a) (a ++ b) = a.
Proof. induction a as [|x a IH]; [reflexivity | cbn; rewrite IH; reflexivity]. Qed.

Lemma substring_middle (a l b : str) : substring (len a) (len l) (a ++ l ++ b) = l.
Proof.
  unfold substring, len. rewrite !Nat2Z.id, skipn_app_length.
  apply firstn_app_length.
Qed.

Lemma enumerate_from_nth {A} (l : list A) (a k : nat) (x : A) :
  nth_error l k = Some x -> In ((a + k)%nat, x) (combine (seq a (length l)) l).
Proof.
  revert a k. induction l as [|y l IH]; intros a k; [destruct k; discriminate |].
  destruct k as [|k]; cbn [nth_error length seq combine].
  - intros E. injection E as ->. left. rewrite Nat.add_0_r. reflexivity.
  - intros E. right. replace (a + S k)%nat with (S a + k)%nat by lia.
    apply IH. exact E.
Qed.

Lemma enumerate_nth {A} (l : list A) (k : nat) (x : A) :
  nth_error l k = Some x -> In (k, x) (enumerate l).
Proof. intros E. exact (enumerate_from_nth l 0 k x E). Qed.

(** A highlight paint is the label of a cap of the row that is in the
    highlight set, placed after the caps before it, each with its joining
    space. *)
Lemma highlight_row_In (y : Z) (hl row : list str) (x : Z) (p : paint) :
  In p (highlight_row y x hl row) ->
  exists pre t post,
    row = pre ++ t :: post
    /\ str_in t hl = true
    /\ p = mkPaint y
             (x + len (concat (List.map (fun t' => key_label t' ++ [SPACE]) pre)))
             (key_label t) (len (key_label t)) key_color.
Proof.
  revert x. induction row as [|t row IH]; intros x; cbn [highlight_row];
    [intros [] |].
  cbv zeta. intros Hin.
  destruct (in_app_or _ _ _ Hin) as [H | H].
  - destruct (str_in t hl) eqn:E; [| destruct H]. destruct H as [<- | []].
    exists [], t, row. split; [reflexivity |]. split; [exact E |].
    cbn [List.map concat]. change (len (@nil char)) with 0.
    rewrite Z.add_0_r. reflexivity.
  - destruct (IH _ H) as (pre & t' & post & -> & E & ->).
    exists (t :: pre), t', post. split; [reflexivity |]. split; [exact E |].
    f_equal. cbn [List.map concat]. rewrite !len_app.
    change (len [SPACE]) with 1. lia.
Qed.

Lemma highlight_row_complete (y : Z) (hl row : list str) (x : Z) (t : str) :
  In t row -> str_in t hl = true ->
  exists p, In p (highlight_row y x hl row)
            /\ p_color p = key_color /\ p_text p = key_label t.
Proof.
  revert x. induction row as [|t' row IH]; intros x; [intros [] |].
  intros [-> | Hin] E; cbn [highlight_row]; cbv zeta.
  - rewrite E. eexists. split; [left; reflexivity |]. split; reflexivity.
  - destruct (IH (x + len (key_label t') + 1) Hin E) as (p & Hp & H1 & H2).
    exists p. split; [apply in_or_app; right; exact Hp |]. split; assumption.
Qed.

Lemma row_text_split (pre : list str) (t : str) (post : list str) :
  exists rest,
    row_text (pre ++ t :: post)
    = concat (List.map (fun t' => key_label t' ++ [SPACE]) pre)
      ++ key_label t ++ rest.
Proof.
  unfold row_text. induction pre as [|a pre IH].
  - cbn [app List.map concat]. rewrite str_join_cons. eexists. reflexivity.
  - destruct IH as (rest & IH). exists rest.
    change ((a :: pre) ++ t :: post) with (a :: (pre ++ t :: post)).
    cbn [List.map concat].
    destruct (List.map key_label (pre ++ t :: post)) as [|l l0] eqn:E.
    { destruct pre; discriminate E. }
    change (str_join [SPACE] (key_label a :: l :: l0))
      with (key_label a ++ [SPACE] ++ str_join [SPACE] (l :: l0)).
    rewrite IH, <- !app_assoc. reflexivity.
Qed.

Lemma layout_rows (k : nat) (row : list str) :
  In (k, row) (enumerate get_keyboard_layout) ->
  (k < 5)%nat /\ In row get_keyboard_layout.
Proof.
  intros Hin. apply enumerate_In in Hin. split.
  - change 5%nat with (length get_keyboard_layout).
    apply nth_error_Some. congruence.
  - exact (nth_error_In _ _ Hin).
Qed.

(** The paints of one row: the base paint, and the highlights. *)
Lemma render_keyboard_In (top width : Z) (hl : list str) (p : paint) :
  In p (render_keyboard top width hl) ->
  exists k row,
    In (k, row) (enumerate get_keyboard_layout)
    /\ let x0 := Z.max 1 ((width - len (row_text row)) / 2) in
       let b := mkPaint (top + Z.of_nat k) x0 (row_text row)
                  (Z.min (len (row_text row)) (width - x0 - 1)) dim_color in
       In b (render_keyboard top width hl)
       /\ (p = b
           \/ (hl <> []
               /\ In p (highlight_row (top + Z.of_nat k) x0 hl row))).
Proof.
  unfold render_keyboard. intros Hin. apply in_flat_map in Hin.
  destruct Hin as ([k row] & Hr & Hp). exists k, row. split; [exact Hr |].
  cbv zeta. split.
  - apply in_flat_map. exists (k, row). split; [exact Hr | left; reflexivity].
  - unfold render_keyboard_row in Hp. cbn [fst snd] in Hp. cbv zeta in Hp.
    destruct Hp as [<- | Hp]; [left; reflexivity |].
    right. destruct hl as [|h hl]; [destruct Hp |].
    split; [discriminate | exact Hp].
Qed.

(** X23. Every highlight that [render_keyboard] paints lies on the base
    paint of its row, at the place of a cap that is in the highlight set,
    and repaints exactly the characters the base row has there. *)
Theorem highlight_over_own_cap (top width : Z) (hl : list str) (p : paint) :
  In p (render_keyboard top width hl) ->
  p_color p = key_color ->
  exists b t,
    In b (render_keyboard top width hl)
    /\ p_color b = dim_color
    /\ p_y b = p_y p
    /\ p_x b <= p_x p
    /\ In t hl /\ In t all_caps
    /\ p_text p = key_label t
    /\ p_n p = len (key_label t)
    /\ substring (p_x p - p_x b) (p_n p) (p_text b) = p_text p.
Proof.
  intros Hin Hcol.
  destruct (render_keyboard_In top width hl p Hin)
    as (k & row & Hr & Hb & [-> | [_ Hp]]); cbv zeta in *;
    [discriminate Hcol |].
  destruct (highlight_row_In _ _ _ _ _ Hp) as (pre & t & post & Erow & Et & ->).
  eexists. exists t. split; [exact Hb |].
  cbn [p_color p_y p_x p_text p_n].
  split; [reflexivity |]. split; [reflexivity |].
  split; [pose proof (len_nonneg
            (concat (List.map (fun t' => key_label t' ++ [SPACE]) pre))); lia |].
  split; [apply str_in_In; exact Et |].
  split.
  { apply in_concat. exists row. split; [apply (layout_rows k row Hr) |].
    rewrite Erow. apply in_or_app. right. left. reflexivity. }
  split; [reflexivity |]. split; [reflexivity |].
  destruct (row_text_split pre t post) as (rest & Esplit).
  rewrite Erow, Esplit.
  replace (Z.max 1 ((width - len (concat (List.map (fun t' => key_label t' ++ [SPACE]) pre) ++ key_label t ++ rest)) / 2)
           + len (concat (List.map (fun t' => key_label t' ++ [SPACE]) pre))
           - Z.max 1 ((width - len (concat (List.map (fun t' => key_label t' ++ [SPACE]) pre) ++ key_label t ++ rest)) / 2))
    with (len (concat (List.map (fun t' => key_label t' ++ [SPACE]) pre)))
    by lia.
  apply substring_middle.
Qed.

Lemma highlight_over_own_cap_witness :
  In (mkPaint 10 7 (u "[q]") 3 key_color) (render_keyboard 9 60 [u "q"])
  /\ p_color (mkPaint 10 7 (u "[q]") 3 key_color) = key_color
  /\ exists b t,
       In b (render_keyboard 9 60 [u "q"])
       /\ p_color b = dim_color
       /\ p_y b = 10
       /\ p_x b <= 7
       /\ In t [u "q"] /\ In t all_caps
       /\ u "[q]" = key_label t
       /\ 3 = len (key_label t)
       /\ substring (7 - p_x b) 3 (p_text b) = u "[q]".
Proof.
  assert (Hin : In (mkPaint 10 7 (u "[q]") 3 key_color)
                   (render_keyboard 9 60 [u "q"])).
  { vm_compute. right. right. left. reflexivity. }
  split; [exact Hin |]. split; [reflexivity |].
  exact (highlight_over_own_cap 9 60 [u "q"]
           (mkPaint 10 7 (u "[q]") 3 key_color) Hin eq_refl).
Defined.

(** X24. When the keyboard is shown (a window of 16 rows or more), its
    rows lie below the text area and a blank row, and end two rows above the
    status bar; nothing is painted left of column 1.  Its last row, the
    space bar, is row [height - 4]. *)
Theorem keyboard_rows_layout (height width : Z) (hl : list str) :
  16 <= height ->
  show_keyboard height = true
  /\ (forall p, In p (render_keyboard (kb_top height) width hl) ->
        2 + usable_lines height < p_y p <= height - 4 /\ 1 <= p_x p)
  /\ exists p, In p (render_keyboard (kb_top height) width hl)
               /\ p_y p = height - 4 /\ p_text p = u "[Space]".
Proof.
  intros Hh.
  assert (Hshow : (16 <=? height) = true) by (apply Z.leb_le; exact Hh).
  assert (Hu : usable_lines height = height - 11).
  { unfold usable_lines. rewrite Hshow.
    change (len get_keyboard_layout) with 5. lia. }
  split; [exact Hshow |]. unfold kb_top. rewrite Hu. split.
  - intros p Hin.
    destruct (render_keyboard_In _ width hl p Hin)
      as (k & row & Hr & _ & Hp). cbv zeta in Hp.
    destruct (layout_rows k row Hr) as [Hk _].
    destruct Hp as [-> | [_ Hp]].
    + cbn [p_y p_x]. lia.
    + destruct (highlight_row_In _ _ _ _ _ Hp) as (pre & t & post & _ & _ & ->).
      cbn [p_y p_x].
      pose proof (len_nonneg
        (concat (List.map (fun t' => key_label t' ++ [SPACE]) pre))).
      lia.
  - eexists. split.
    + unfold render_keyboard. apply in_flat_map.
      exists (4%nat, [u "Space"]). split; [| left; reflexivity].
      apply enumerate_nth. reflexivity.
    + cbn [p_y p_text fst snd]. split; [lia | reflexivity].
Qed.

Lemma keyboard_rows_layout_witness :
  16 <= 24
  /\ show_keyboard 24 = true
  /\ (forall p, In p (render_keyboard (kb_top 24) 80 [u "q"]) ->
        2 + usable_lines 24 < p_y p <= 24 - 4 /\ 1 <= p_x p)
  /\ exists p, In p (render_keyboard (kb_top 24) 80 [u "q"])
               /\ p_y p = 24 - 4 /\ p_text p = u "[Space]".
Proof.
  assert (H : 16 <= 24) by lia.
  split; [exact H |].
  exact (keyboard_rows_layout 24 80 [u "q"] H).
Defined.

(** ** Keys and their caps *)

Section KeyCaps.

Context {C : CaseDB}.

Lemma cap_key_ascii (c : char) : cap_key c = true -> (c < 128)%N.
Proof.
  intros H. destruct (N.ltb_spec c 128) as [Hlt | Hge]; [exact Hlt |].
  exfalso. unfold cap_key, DEL, BS, LF, CR, TAB in H.
  assert (E : forall k, (k < 128)%N -> (c =? k)%N = false)
    by (intros k Hk; apply N.eqb_neq; lia).
  rewrite !E in H by lia.
  rewrite (proj2 (N.ltb_ge c 127)) in H by lia.
  rewrite andb_false_r in H. discriminate H.
Qed.

(** On ASCII the tokens are those computed with the ASCII tables. *)
Lemma tokens_ascii (c : char) :
  (c < 128)%N ->
  normalize_key_to_tokens (KStr c)
  = normalize_key_to_tokens (C := ascii_case) (KStr c).
Proof.
  intros Hc. unfold normalize_key_to_tokens.
  rewrite (@isalpha_ascii C c Hc), (@isupper_ascii C c Hc),
    (@lower_ascii C c Hc).
  reflexivity.
Qed.

Lemma ascii_tokens_checked :
  forallb
    (fun c =>
       negb (cap_key c)
       || truthy (normalize_key_to_tokens (C := ascii_case) (KStr c))
          && forallb (fun t => str_in t all_caps)
               (normalize_key_to_tokens (C := ascii_case) (KStr c)))
    (List.map N.of_nat (seq 0 128)) = true.
Proof. vm_compute. reflexivity. Qed.

Lemma cap_key_tokens (c : char) :
  cap_key c = true ->
  normalize_key_to_tokens (KStr c) <> []
  /\ Forall (fun t => In t all_caps) (normalize_key_to_tokens (KStr c)).
Proof.
  intros H. pose proof (cap_key_ascii c H) as Hc.
  rewrite (tokens_ascii c Hc).
  pose proof ascii_tokens_checked as Hall.
  rewrite forallb_forall in Hall.
  assert (Hin : In c (List.map N.of_nat (seq 0 128))).
  { apply in_map_iff. exists (N.to_nat c). split; [apply N2Nat.id |].
    apply in_seq. lia. }
  specialize (Hall c Hin). rewrite H in Hall. cbn [negb orb] in Hall.
  apply andb_prop in Hall. destruct Hall as [Hne Hcaps]. split.
  - apply truthy_true. exact Hne.
  - apply Forall_forall. intros t Ht.
    rewrite forallb_forall in Hcaps. apply str_in_In. exact (Hcaps t Ht).
Qed.

(** X25. For every printable ASCII character, and for backspace, enter
    and tab, [normalize_key_to_tokens] returns at least one token and every
    token is a cap of the layout; for a key code it returns nothing or the
    cap [Back]. *)
Theorem key_tokens_are_caps (k : key) :
  match k with KStr c => cap_key c = true | KInt _ => True end ->
  Forall (fun t => In t all_caps) (normalize_key_to_tokens k)
  /\ match k with
     | KStr _ => normalize_key_to_tokens k <> []
     | KInt n => normalize_key_to_tokens k <> [] <-> In n [8; 127; 263]
     end.
Proof.
  destruct k as [c | n]; intros H.
  - destruct (cap_key_tokens c H) as [H1 H2]. split; assumption.
  - unfold normalize_key_to_tokens.
    destruct (Z.eqb_spec n 8) as [-> | H8];
      [split; [constructor; [apply str_in_In; reflexivity | constructor]
              | split; [intros _; left; reflexivity | intros _; discriminate]] |].
    destruct (Z.eqb_spec n 127) as [-> | H127];
      [split; [constructor; [apply str_in_In; reflexivity | constructor]
              | split; [intros _; right; left; reflexivity | intros _; discriminate]] |].
    destruct (Z.eqb_spec n 263) as [-> | H263];
      [split; [constructor; [apply str_in_In; reflexivity | constructor]
              | split; [intros _; right; right; left; reflexivity
                       | intros _; discriminate]] |].
    cbn [orb]. split; [constructor |]. split; [congruence |].
    intros [E | [E | [E | []]]]; congruence.
Qed.

(** X26. Pressing such a character lights a cap: with its tokens as the
    highlight set, [render_keyboard] paints at least one highlight, the
    label of one of the tokens. *)
Theorem key_press_lights_a_cap (top width : Z) (c : char) :
  cap_key c = true ->
  exists p t,
    In p (render_keyboard top width (normalize_key_to_tokens (KStr c)))
    /\ p_color p = key_color
    /\ In t (normalize_key_to_tokens (KStr c))
    /\ p_text p = key_label t.
Proof.
  intros H. destruct (cap_key_tokens c H) as [Hne Hcaps].
  destruct (normalize_key_to_tokens (KStr c)) as [|t ts] eqn:E;
    [congruence |].
  inversion Hcaps as [| t0 ts0 Ht _]; subst.
  apply in_concat in Ht. destruct Ht as (row & Hrow & Htrow).
  destruct (In_nth_error _ _ Hrow) as (k & Hk).
  assert (Hin : str_in t (t :: ts) = true)
    by (apply str_in_In; left; reflexivity).
  destruct (highlight_row_complete
              (top + Z.of_nat k)
              (t :: ts) row
              (Z.max 1 ((width - len (row_text row)) / 2)) t Htrow Hin)
    as (p & Hp & Hcol & Htext).
  exists p, t. split; [| split; [exact Hcol | split; [left; reflexivity | exact Htext]]].
  unfold render_keyboard. apply in_flat_map. exists (k, row).
  split; [apply enumerate_nth; exact Hk |].
  unfold render_keyboard_row. cbn [fst snd truthy]. right. exact Hp.
Qed.

End KeyCaps.

Lemma key_tokens_are_caps_witness :
  cap_key 65%N = true
  /\ Forall (fun t => In t all_caps)
       (normalize_key_to_tokens (C := ascii_case) (KStr 65%N))
  /\ normalize_key_to_tokens (C := ascii_case) (KStr 65%N) <> [].
Proof.
  split; [reflexivity |].
  exact (key_tokens_are_caps (C := ascii_case) (KStr 65%N) eq_refl).
Defined.

Lemma key_press_lights_a_cap_witness :
  cap_key 63%N = true
  /\ exists p t,
       In p (render_keyboard 9 60
               (normalize_key_to_tokens (C := ascii_case) (KStr 63%N)))
       /\ p_color p = key_color
       /\ In t (normalize_key_to_tokens (C := ascii_case) (KStr 63%N))
       /\ p_text p = key_label t.
Proof.
  split; [reflexivity |].
  exact (key_press_lights_a_cap (C := ascii_case) 9 60 63%N eq_refl).
Defined.
